(* ===== verification/_CoqProject ===== *)
-Q . S2P
Prelude.v
PyBase.v
PyLong.v
SwapDefs.v
MoteData.v
Server.v
MoteOps.v
MoteSpec.v
Samples.v
Sending.v
Queue.v
Bound.v
Setters.v
Lookup.v
Construct.v
Dumps.v
Objects.v
Machine.v
Trace.v
Footprint.v
Wf.v
Liveness.v
Threads.v
Status.v
Interleave.v
Conserve.v
Solo.v
Serial.v
Races.v
