(* ===== verification/Prelude.v ===== *)
(** * Verification of pyswap's [SwapMote] (src/pyswap/swap/protocol/SwapMote.py)

    ** The program

    [SwapMote] is the proxy object a SWAP controller keeps for one remote
    wireless mote.  It mirrors the mote's identity and settings (address,
    security option, nonce, state, tx interval), looks registers and
    parameters up in the lists its device definition supplies, builds
    command, query and status packets and hands them to a communication
    delegate (the attribute [server]), and, for a device that switches its
    receiver off between transmissions, defers commands in a queue and
    replays them when the mote reports a receiving state.  The file has one
    class with 23 methods; packets, values, registers, the device
    definition and the delegate are classes of other files of pyswap.

    ** Files, in dependency order

    - [Prelude] (this file): the libraries every file loads, the hint
      database [swap], lemmas on linear search ([find] and stdpp's
      [list_find]), on the replacement of one element and on the
      enumeration of a list by its indices, and the runs of a labelled
      relation ([lrtc]) with their simulation lemma.
    - [PyBase]: the Python notions the source relies on.  Exceptions
      ([PyExn]) and the outcome of a call ([outcome]: [Return] or
      [Raise]); the state-and-exception monad [M W A = W -> outcome A * W]
      in which every method is written, with stdpp's [mret], bind and
      [fmap]; [for i in range(n)] ([for_range]); invariance of a property
      under a computation ([preserves]) and its rules; string slices and
      the built-in [long(s, 16)] of Python 2 ([py_long16]), character by
      character: white space, a sign, white space again, an optional
      [0x], the digits, an optional [L], white space.
    - [PyLong]: what [py_long16] accepts: a string of hexadecimal digits
      has the value of its digits, and a string with a character outside
      digits, signs, [x], [l] and white space is rejected.
    - [SwapDefs]: the collaborators outside the file, modelled from their
      use and the specification: the constants of [SwapState] and
      [SwapRegId] with the numbers of the SWAP register table (network
      id 8, device address 9, transmission interval 10), [SwapValue] as
      big-endian bytes of a fixed length, the
      three packet kinds as constructors holding the arguments the file
      passes, [SwapRegister], [SwapParam], [XmlDevice].
    - [MoteData]: the record [SwapMote] of the attributes [__init__]
      assigns (all but [server]), a [set_] function per attribute a method
      assigns later, the deque operations [queue_append] and
      [queue_popleft], and the methods that only read: [getRegister],
      [getParameter], [nbof_saved_commands].
    - [Server]: the [World] the methods run in (the mote, the delegate,
      the clock) and the delegate's interface, the class [SwapServer]:
      [send], [setMoteRegister], [queryMoteRegister], each a computation
      on the whole world since the delegate holds a reference to the
      mote, and [wire], the packets transmitted so far.  The classes
      [ServerFramed] (the delegate never writes to the mote),
      [ServerSends] ([send] returns and transmits exactly its packet) and
      [SendEnqueues] (what [send] triggers may only append to the queue)
      are the assumptions theorems name; the delegates [Recorder],
      [Resubmitter] (a delivery call-back that enqueues) and [Faulty] (a
      link that fails) are instances that satisfy or break them.
    - [MoteOps]: the methods that send, queue or assign, one definition
      per method with the statements of the source as binds in the same
      order: [cmdRegister], [qryRegister], [staRegister],
      [cmdRegisterWack], [qryRegisterWack], [save_command],
      [save_address_command], [save_txinterval_command],
      [get_saved_command], [setAddress], [setNetworkId],
      [setFreqChannel], [setSecurity], [setTxInterval], [restart],
      [leaveSync], [updateTimeStamp], [update_state] (its loop body is
      [flush_one]).
    - [MoteSpec]: the equation of one call of each method in terms of the
      delegate's operations; the lemmas the later files share.
    - [Samples]: the concrete motes and worlds the witnesses run on.
    - [Sending]: [cmdRegister] and [qryRegister] transmit one packet built
      from the mote's current address, nonce and addressing mode.
    - [Queue]: the command queue.  [save_command] queues exactly on a mote
      that is not in RXON and has the power-down mode, and is the
      confirmed command otherwise; [update_state] flushes first-in
      first-out on RXON and SYNC and only records the state otherwise; the
      pass covers the commands queued when it starts, also when the
      delegate enqueues during the pass; a failing link loses the command
      in flight; saving then waking delivers every command once, in
      order.
    - [Setters]: the three setters that mirror an attribute on
      acknowledgement, the four that mirror nothing, and the dropped
      result of [setFreqChannel].
    - [Lookup]: [getRegister] and [getParameter] against a reference
      search through the concatenated lists, their [TypeError] when a list
      is absent, and [staRegister].
    - [Construct]: [__init__]: the three ways it raises, in the order of
      its checks, that it raises in no other way, and the object it
      returns.  [XmlDevice(self)] at line 409 is given the mote as far as
      it is built: the loader of the device definition is a section
      variable that receives the attributes assigned by then
      ([Unloaded]: the delegate, the product code, the two identifiers).
      The test [self.definition is not None] of line 425 cannot fail,
      since the loader returns a definition or raises, and is left out.
    - [Dumps]: [dumps]: the dictionary as a [gmap] with its six keys; the
      serializer of a register is a section variable that may raise.
    - [Objects]: the registers as objects with identity.  In Python the
      lists of the mote hold references, and [getRegister] (lines 288 and
      292) and [getParameter] (lines 309 and 314) return the object
      found.  The objects live in a store (a [gmap] from locations
      [loc]); [RegRefs] holds the two lists of references;
      [getRegister_ref] and [getParameter_ref] are the two methods
      returning a location, and [sta_packet] is the packet [staRegister]
      builds from the object.  The lists of register values of
      [MoteData] are the contents of the store at one instant
      ([snapshot]).  [assign_value] and [assign_param_value] are the
      assignments a holder of a reference can make.  The lookups depend
      only on the identifiers and parameter names of the objects: stores
      of the same [shape] form an equivalence ([same_shape]) for which
      the lookups by reference are [Proper], and an assignment stays in
      the class.
    - [Machine]: the methods as the calls ([Call], with the value a call
      returns, [Result] and [call_result]) of a transition system on
      worlds, plain ([step], [reachable]) and labelled ([lstep]: a label
      [Obs] is a call with its outcome, or a tick of the clock with its
      amount); the abstract machine on the mote and the clock alone
      ([mote_step], [mote_trans], and [mote_ltrans] with the labels),
      which fixes the outcome of a call wherever the mote determines it
      ([mote_result]) and reads it from the label where the delegate
      decides; the refinement between the two under [ServerSends] and
      [ServerFramed], label by label; invariants of reachable worlds; and
      the time stamp after a run as a function of its labels
      ([last_stamp]).
    - [Trace]: the calls the methods make on the delegate.  [Logged D]
      wraps any delegate [D] and records every [send],
      [setMoteRegister] and [queryMoteRegister] with its arguments
      ([Event]) before forwarding it; [mote_events] gives the calls of
      each method from the mote it is called on, and [mote_run] the runs
      of the abstract machine with their calls.  Every run of the
      implementation is such a run, and on the path through
      [save_command] and [update_state] register writes reach the
      delegate once and in the order they were requested.
    - [Footprint]: for an arbitrary delegate, the seven writes the methods
      make to the mote ([writes]) and the invariance of every property
      stable under them.
    - [Bound]: the flush of [update_state] under a delegate that
      transmits and is otherwise arbitrary: it performs at most as many
      transmissions as commands were queued at its start and then
      returns, or raises [IndexError] when the delegate emptied the queue
      under it; the delegate [Thief], whose [send] takes a command out of
      the queue, shows the second case.
    - [Wf]: the well-formedness of a mote ([wf_mote]: a state of
      [SwapState], queued values made of bytes, identity as constructed),
      established by [SwapMote_init] and kept by every call with
      well-formed arguments ([wf_step]).
    - [Liveness]: infinite executions, as functions from [nat] to worlds
      driven by a sequence of labels (a call or a tick); under the
      fairness assumption [wakes_again] and without calls that drain the
      queue, every queued command is eventually on the wire.
    - [Threads]: every method statement by statement.  A [Thread] is a
      point of a call: the call itself ([TCall]), a point between two
      statements of a method with the local variables that are live
      there, or the end ([TDone], with the value returned or the
      exception raised).  The statements of a method are a function of
      its own ([cmdRegister_step], [qryRegister_step],
      [staRegister_step], [save_command_step], [get_saved_command_step],
      [updateTimeStamp_step], [update_state_step]; [confirmed_step] for
      the two confirmed exchanges and [setter_step] for the seven
      setters), and [thread_step] makes the next statement of the method
      a thread is in.  [cmdRegister] is called from the caller and from the loop
      of [update_state]: its points carry a continuation ([Kont]), and
      [ret_to] is its return.  The measure ([before_loop], [in_loop]),
      what a thread holds ([owes]) and what it may do to the queue
      ([saves], [pops]) are defined on the points.
    - [Status]: [staRegister] on the objects of [Objects], statement by
      statement ([StaThread], [sta_step]: the lookup at line 85, the
      packet at line 87, the transmission at line 89), in schedules
      ([Action], [run_actions]) that place assignments to register
      objects before, between and after the statements.  The packet
      reports the value the object has when the packet is built; a
      statement on the objects is the statement of [Threads] on their
      contents ([contents]).
    - [Interleave]: pools.  A [Pool] is a list of threads and the world
      they share; a step of the pool ([pool_step]) is a statement of one
      of its threads, chosen freely; a schedule (a list of thread
      indices) is run by [run_schedule].  Every pool terminates, and it
      has no step exactly when every call is done; the invariants of
      [Footprint], and that commands are queued only for a device that
      powers down, hold at every point of every interleaving.
    - [Conserve]: pools on a logging delegate.  The register writes handed
      to the delegate, held by the threads and queued ([in_system]) are
      the same, up to order, at every point of every interleaving; with a
      single reader of the queue ([sole_reader]) their order is kept
      ([through]).
    - [Solo]: a thread alone computes the method ([call_result]) and has
      no other run; the calls of a pool run one after another
      ([run_calls]) are one of its interleavings, and reach the worlds of
      the sequential machine.
    - [Serial]: the discipline the class leaves to its callers, one lock
      around every call ([Locked], [locked_next]: a thread moves when
      the lock is free or its own, and releases it with the last
      statement of its call).  The complete runs under the lock are
      exactly the serial executions ([serial]) of the calls in some
      order, and whenever the lock is free the world is one that
      [Machine] reaches.  With [Trace] this gives delivery in order for
      pools: under the lock the register writes reach the delegate once
      and in the order in which the calls took the lock.
    - [Races]: the schedules [stranded], [overtaking] and [readdress] run
      to their end: what the missing lock costs; and [stranded] under the
      lock.

    ** Theorems, by group

    - Functional behaviour of each method on every branch, errors
      included: [Queue], [Sending], [Setters], [Lookup], [Construct],
      [Dumps].
    - Equivalence with a reference: [Lookup] (linear search through the
      concatenated lists), [Objects] (the lookups on register values
      against the lookups that return the object), [Solo] (the
      statement-level semantics against the methods in the monad: same
      outcome, same world, no other run).
    - Round trips: [Queue] (a command saved is the command got back, after
      those saved before it), [Objects] (a value assigned through the
      reference a lookup returned is the value the mote reads and
      reports, in every list that refers to the object).
    - Refinement: [Machine] (implementation steps are steps of
      [mote_step], with the same call, outcome and tick at every step of
      a run), [Trace] (with the calls made on the delegate as
      observations), [Serial] (runs under one lock are serial
      executions, so that what is proved of the sequential machine holds
      of a pool whose callers lock).
    - Invariants of reachable worlds: [Machine], [Footprint], [Wf]; of
      every point of every interleaving: [Interleave].
    - Ordering: [Queue] (one flush is first-in first-out), [Trace]
      (delivery in the order of the requests over whole runs of the
      sequential machine), [Conserve] (what remains of it without a
      lock: conservation always, order with a single reader), [Serial]
      (all of it again with the lock), [Status] (which assignments to a
      register a status packet reports).
    - Termination: [Bound] (the flush, for any delegate that transmits),
      [Interleave] (strong normalisation of [pool_step] by a
      lexicographic measure summed over the pool, and progress).
    - Liveness: [Liveness].
    - Bounds: [Construct] (32-bit identifiers), [Queue] (one- and two-byte
      values).

    ** Conventions

    Python integers are [Z]; a [str] is a [string], or the list of its
    characters where it is sliced; [None] is [option]'s [None]; a Python
    object attribute that is assigned is a record field with a [set_]
    function; the deque is a list with its head the oldest entry.  A
    method that returns nothing returns [tt].  A raised exception is the
    outcome [Raise e] paired with the state reached when it was raised:
    assignments made before are kept, as in Python.  [time.time()] is the
    component [clock] of the world, which only [tick] changes, by any
    amount: it is a wall clock and may be set back, so a time stamp may
    lie in the future of the clock.  The
    result of [save_command] is [Some true], [Some false] or [None].

    ** Bounds and termination

    Every definition is a total function and evaluates by computation;
    there is no fuel.  The only loop of the file, in [update_state],
    iterates over [range(nb_cmds)] with [nb_cmds] read once before the
    loop, and is modelled by structural recursion on that number
    ([for_range]), so a delegate that enqueues during the flush cannot
    prolong it.  Integers are unbounded as in Python; the one- and
    two-byte widths of values are those of [SwapValue_new], which
    truncates.  Infinite executions are functions from [nat], not
    coinductive streams; liveness is stated with an explicit fairness
    hypothesis and proved by induction on the distance to the next
    report of a receiving state.  The interleavings of [Interleave] are
    shown to terminate by a measure of two components, each summed over
    the threads of the pool: [before_loop] counts the statements a thread
    has to make before it is in the loop or done (at most three), and
    [in_loop] is four times the number of turns left, read once, plus the
    statements left in the turn (a turn is four statements: the removal
    from the queue and the three statements of [cmdRegister]).  Every
    statement decreases the first, or keeps it and decreases the second.
    [run_thread] and [run_schedule] take the number of statements, or
    the schedule, as an argument; they stop at a thread that is done, so
    a number that is too large does no harm, and the theorems of [Solo]
    are stated on the step relation, not on a choice of fuel.

    ** Granularity of the threads

    In [Threads] a step is one statement of the source that reads or
    writes an attribute of the mote or calls the delegate: [cmdRegister]
    is three steps (the status packet, the command packet, [send]), so
    that what it reads at line 56 and at line 58 may differ;
    [save_command] is its test and then the confirmed command or the
    append; a mirroring setter is the confirmed command and then the
    assignment; [update_state] is the assignment of the state, the test
    with the reading of the length, and per turn the removal from the
    queue and the three steps of [cmdRegister].  A call of the delegate
    is one step: what happens inside the delegate while it blocks is the
    delegate's.  The methods that only read ([getRegister],
    [getParameter], [nbof_saved_commands] on its own, [dumps]) are not
    threads; [staRegister] reads the register in one step.  In [Threads]
    and in the monad the registers are the values of [MoteData], and the
    point of [staRegister] after its lookup holds the register found as
    a value: no method of the class assigns to a register, so the
    contents of the register objects change only through a holder of a
    reference outside the class.  That is what [Objects] and [Status]
    model, for one call of [staRegister] at a time; the theorems on
    pools assume a delegate that does not write to the mote
    ([ServerFramed]), or do not depend on the values of registers.

    ** What is not modelled

    The radio framing, check sums and retransmission of packets, the
    parsing of device definition files, [SwapValue]s built from strings
    or lists, and the scheduler of the Python interpreter: a pool may
    switch threads between any two statements, which is more than
    CPython does within a statement and no less between statements.  The
    constructor and [dumps] run on their own, not in pools.  The
    assignments to register objects are interleaved with the statements
    of one call of [staRegister] ([Status]), not with pools: a register
    whose value is assigned while several calls run is not modelled.  A
    location of [Objects] that is not in the store stands for nothing in Python,
    where a reference always has its object; the lookups pass over it.
    The attribute [server] is not a field of the record: the delegate
    is a component of the world.  The
    parameter [include_units] of [dumps] is passed to the register
    serializer and not interpreted. *)

From stdpp Require Export base tactics option list numbers strings.
From Stdlib Require Export ZArith Lia.

(** ** Hint database

    [swap] holds the resolution hints of the development: the rules of
    [preserves] and [frames], and the facts on [same_but_queue]. *)
Create HintDb swap.

(** ** Linear search *)

Section list_facts.
Context {A : Type}.
Implicit Types (f : A → bool) (l k : list A).

(** A linear search through two lists in turn is a search through their
    concatenation. *)
Lemma find_app f l k :
  find f (l ++ k) = match find f l with Some x => Some x | None => find f k end.
Proof. induction l as [|x l IH]; simpl; [done|]. by destruct (f x). Qed.

Lemma find_None_Forall f l : find f l = None ↔ Forall (λ x, f x = false) l.
Proof.
  induction l as [|x l IH]; simpl.
  - split; [constructor | done].
  - destruct (f x) eqn:E.
    + split; [done | intros H; inv H; congruence].
    + rewrite IH. split; [by constructor | intros H; by inv H].
Qed.

(** What is found is the first element that passes the test. *)
Lemma find_Some_split f l x :
  find f l = Some x →
  ∃ l1 l2, l = l1 ++ x :: l2 ∧ f x = true ∧ Forall (λ y, f y = false) l1.
Proof.
  induction l as [|y l IH]; simpl; [done|].
  destruct (f y) eqn:E.
  - intros [= ->]. by exists [], l.
  - intros (l1 & l2 & -> & ? & ?)%IH. exists (y :: l1), l2. auto.
Qed.

(** The element a linear search finds is the one [list_find] finds with
    its position. *)
Lemma find_list_find f l : find f l = snd <$> list_find (λ x, f x = true) l.
Proof.
  induction l as [|x l IH]; simpl; [done|]. destruct (f x) eqn:E.
  - by rewrite decide_True.
  - rewrite decide_False by congruence. rewrite IH. by destruct (list_find _ l) as [[]|].
Qed.

(** Replacing one element of a list leaves the others where they are. *)
Lemma lookup_middle_ne l k (x y : A) (i : nat) :
  i ≠ length l → (l ++ x :: k) !! i = (l ++ y :: k) !! i.
Proof.
  intros Hi. rewrite !lookup_app. destruct (l !! i) eqn:E; [done|].
  apply lookup_ge_None in E. rewrite !lookup_cons.
  destruct (i - length l)%nat eqn:E'; [lia | done].
Qed.

(** The elements of a list, by their indices in order. *)
Lemma omap_lookup_seq l k :
  omap (λ i, (l ++ k) !! i) (seq (length l) (length k)) = k.
Proof.
  revert l. induction k as [|x k IH]; intros l; simpl; [done|].
  rewrite list_lookup_middle by done. f_equal.
  specialize (IH (l ++ [x])). by rewrite length_app, Nat.add_1_r, <-app_assoc in IH.
Qed.
End list_facts.

(** ** Labelled runs

    The runs of a labelled transition relation, with the list of their
    labels. *)
Inductive lrtc {L A : Type} (R : L → relation A) : list L → relation A :=
| lrtc_nil a : lrtc R [] a a
| lrtc_cons l ls a b c : R l a b → lrtc R ls b c → lrtc R (l :: ls) a c.

Section labelled.
Context {L A B : Type} (R : L → relation A) (Q : L → relation B).

(** A simulation of the steps is a simulation of the runs, label by
    label. *)
Lemma lrtc_simulation (f : A → B) ls a b :
  (∀ l a b, R l a b → Q l (f a) (f b)) → lrtc R ls a b → lrtc Q ls (f a) (f b).
Proof. intros Hs. induction 1; [constructor|]. eapply lrtc_cons; eauto. Qed.
End labelled.
