(* ===== verification/PyBase.v ===== *)
(** * PyBase: the Python run-time notions the source relies on

    Exceptions and outcomes of calls, the state-and-exception monad [M] in
    which the methods of [SwapMote] are written, the loop
    [for i in range(n)], and the built-ins used by the constructor: string
    slices and [long(s, 16)]. *)

From S2P Require Import Prelude.
From Stdlib Require Import Ascii.

Local Open Scope Z_scope.

(** ** Exceptions and outcomes *)

(** The exceptions the methods can end with.  [SwapException] is the
    library's own; the others are raised by the interpreter
    ([None.value], iterating [None], [deque().popleft()], [long("zz", 16)]).
    [ExternalError] stands for whatever a collaborator outside the file
    raises. *)
Inductive PyExn : Type :=
| SwapException (msg : string)
| AttributeError
| TypeError
| ValueError
| IndexError
| ExternalError (tag : string).

(** What a call ends with: a value, or a raised exception. *)
Inductive outcome (A : Type) : Type :=
| Return (a : A)
| Raise (e : PyExn).
Arguments Return {A} a.
Arguments Raise {A} e.

#[export] Instance PyExn_eq_dec : EqDecision PyExn.
Proof. solve_decision. Defined.

#[export] Instance outcome_eq_dec `{EqDecision A} : EqDecision (outcome A).
Proof. solve_decision. Defined.

(** The outcome of a call, with its result transformed. *)
#[export] Instance outcome_fmap : FMap outcome := λ A B f o,
  match o with
  | Return a => Return (f a)
  | Raise e => Raise e
  end.

(** ** The monad of methods

    A method is a function from the state before the call to its outcome
    and the state after it.  A raised exception keeps the state reached:
    Python does not roll assignments back. *)
Definition M (W A : Type) : Type := W → outcome A * W.

#[export] Instance M_ret {W} : MRet (M W) := λ A a w, (Return a, w).

#[export] Instance M_bind {W} : MBind (M W) := λ A B f m w,
  match m w with
  | (Return a, w') => f a w'
  | (Raise e, w') => (Raise e, w')
  end.

#[export] Instance M_fmap {W} : FMap (M W) := λ A B f m w,
  match m w with
  | (Return a, w') => (Return (f a), w')
  | (Raise e, w') => (Raise e, w')
  end.

(** [raise e] *)
Definition raise {W A} (e : PyExn) : M W A := λ w, (Raise e, w).

(** Reading a component of the state, and assigning to the state. *)
Definition gets {W A} (f : W → A) : M W A := λ w, (Return (f w), w).
Definition modify {W} (f : W → W) : M W unit := λ w, (Return tt, f w).

(** A computation that does not touch the state. *)
Definition lift_outcome {W A} (o : outcome A) : M W A := λ w, (o, w).

(** [for i in range(n): body i], for [n] a length. *)
Fixpoint for_range_from {W} (i : nat) (n : nat) (body : nat → M W unit) : M W unit :=
  match n with
  | O => mret tt
  | S k => _ ← body i; for_range_from (S i) k body
  end.

Definition for_range {W} (n : nat) (body : nat → M W unit) : M W unit :=
  for_range_from 0 n body.

(** ** Invariance

    A property of the state that [m] keeps, whether it returns or raises.
    [m] is a function: the state after it always exists. *)
Definition preserves {W A} (I : W → Prop) (m : M W A) : Prop :=
  ∀ w, I w → I (m w).2.

(** ** Built-ins: slices and [long(s, 16)] *)

(** [s[0:n]] and [s[n:]] on the characters of a [str]. *)
Definition py_slice_to (n : nat) (s : list ascii) : list ascii := take n s.
Definition py_slice_from (n : nat) (s : list ascii) : list ascii := drop n s.

(** C's [isspace] in the C locale. *)
Definition is_space (c : ascii) : bool :=
  let n := Z.of_N (N_of_ascii c) in
  (n =? 32) || ((9 <=? n) && (n <=? 13)).

(** The value of a hexadecimal digit, in either case. *)
Definition hex_digit (c : ascii) : option Z :=
  let n := Z.of_N (N_of_ascii c) in
  if (48 <=? n) && (n <=? 57) then Some (n - 48)
  else if (97 <=? n) && (n <=? 102) then Some (n - 87)
  else if (65 <=? n) && (n <=? 70) then Some (n - 55)
  else None.

Fixpoint skip_space (s : list ascii) : list ascii :=
  match s with
  | c :: s' => if is_space c then skip_space s' else s
  | [] => []
  end.

(** Consume the longest prefix of hexadecimal digits: the value read with
    [acc] as the digits already seen, how many digits were read, and what
    is left. *)
Fixpoint hex_digits (acc : Z) (s : list ascii) : Z * nat * list ascii :=
  match s with
  | c :: s' =>
      match hex_digit c with
      | Some d => let '(v, n, r) := hex_digits (16 * acc + d) s' in (v, S n, r)
      | None => (acc, O, s)
      end
  | [] => (acc, O, [])
  end.

Definition skip_sign (s : list ascii) : Z * list ascii :=
  match s with
  | c :: r =>
      if bool_decide (c = "+"%char) then (1, r)
      else if bool_decide (c = "-"%char) then (-1, r)
      else (1, s)
  | [] => (1, [])
  end.

Definition skip_0x (s : list ascii) : list ascii :=
  match s with
  | c1 :: c2 :: r =>
      if bool_decide (c1 = "0"%char) && bool_decide (c2 ∈ ["x"; "X"]%char) then r else s
  | _ => s
  end.

Definition skip_L (s : list ascii) : list ascii :=
  match s with
  | c :: r => if bool_decide (c ∈ ["L"; "l"]%char) then r else s
  | [] => []
  end.

(** [long(s, 16)] of Python 2 (2.6 and later) on a [str]: optional white
    space, an optional sign, optional white space again, an optional
    [0x], at least one hexadecimal digit, an optional [L], optional white
    space, and nothing else; [ValueError] otherwise. *)
Definition py_long16 (s : list ascii) : outcome Z :=
  let '(sign, s1) := skip_sign (skip_space s) in
  let s2 := skip_space s1 in
  let '(v, n, s5) := hex_digits 0 (skip_0x s2) in
  match n, skip_space (skip_L s5) with
  | S _, [] => Return (sign * v)
  | _, _ => Raise ValueError
  end.

(** The characters [long(s, 16)] can accept at all. *)
Definition long16_char (c : ascii) : bool :=
  bool_decide (is_Some (hex_digit c)) || is_space c
  || bool_decide (c ∈ ["+"; "-"; "x"; "X"; "l"; "L"]%char).

(** The digits of a string of hexadecimal digits. *)
Definition hex_digits_of (s : list ascii) : list Z := omap hex_digit s.

(** The value of a string of hexadecimal digits, most significant first:
    the reference for [py_long16] on plain digit strings. *)
Definition hex_value (ds : list Z) : Z := foldl (λ acc d, 16 * acc + d) 0 ds.

(** ** Equations of the monad *)

Section monad.
Context {W : Type}.
Implicit Types (w : W).

Lemma bind_unfold {A B} (m : M W A) (f : A → M W B) w :
  (m ≫= f) w = match m w with
               | (Return a, w') => f a w'
               | (Raise e, w') => (Raise e, w')
               end.
Proof. reflexivity. Qed.

Lemma bind_ret_l {A B} (a : A) (f : A → M W B) w : (mret a ≫= f) w = f a w.
Proof. reflexivity. Qed.

Lemma bind_ret_r {A} (m : M W A) w : (m ≫= mret) w = m w.
Proof. rewrite bind_unfold. by destruct (m w) as [[]]. Qed.

Lemma bind_assoc {A B C} (m : M W A) (f : A → M W B) (g : B → M W C) w :
  ((m ≫= f) ≫= g) w = (m ≫= λ a, f a ≫= g) w.
Proof. rewrite !bind_unfold. by destruct (m w) as [[]]. Qed.

Lemma bind_Return {A B} (m : M W A) (f : A → M W B) w a w' :
  m w = (Return a, w') → (m ≫= f) w = f a w'.
Proof. intros E. by rewrite bind_unfold, E. Qed.

Lemma bind_Raise {A B} (m : M W A) (f : A → M W B) w e w' :
  m w = (Raise e, w') → (m ≫= f) w = (Raise e, w').
Proof. intros E. by rewrite bind_unfold, E. Qed.

(** Mapping over the result leaves the state alone. *)
Lemma fmap_outcome {A B} (g : A → B) (m : M W A) w : ((g <$> m) w).1 = g <$> (m w).1.
Proof. unfold fmap at 1, M_fmap. by destruct (m w) as [[a|e] w']. Qed.

Lemma fmap_state {A B} (g : A → B) (m : M W A) w : ((g <$> m) w).2 = (m w).2.
Proof. unfold fmap, M_fmap. by destruct (m w) as [[]]. Qed.

Lemma for_range_from_S i n (body : nat → M W unit) w :
  for_range_from i (S n) body w = (body i ≫= λ _, for_range_from (S i) n body) w.
Proof. reflexivity. Qed.
End monad.

(** ** Rules of invariance

    A property of the state kept by every step is kept by the method. *)

Section preserves.
Context {W : Type}.
Implicit Types (I : W → Prop).

Lemma preserves_ret {A} I (a : A) : preserves I (mret a).
Proof. by intros w. Qed.

Lemma preserves_raise {A} I e : preserves I (raise (A:=A) e).
Proof. by intros w. Qed.

Lemma preserves_gets {A} I (f : W → A) : preserves I (gets f).
Proof. by intros w. Qed.

Lemma preserves_lift {A} I (o : outcome A) : preserves I (lift_outcome o).
Proof. by intros w. Qed.

Lemma preserves_modify I (f : W → W) : (∀ w, I w → I (f w)) → preserves I (modify f).
Proof. intros H w Hw. by apply H. Qed.

Lemma preserves_bind {A B} I (m : M W A) (f : A → M W B) :
  preserves I m → (∀ a, preserves I (f a)) → preserves I (m ≫= f).
Proof.
  intros Hm Hf w Hw. specialize (Hm w Hw). rewrite bind_unfold.
  destruct (m w) as [[a|e] w']; [by apply Hf | done].
Qed.

Lemma preserves_fmap {A B} I (g : A → B) (m : M W A) : preserves I m → preserves I (g <$> m).
Proof. intros Hm w Hw. specialize (Hm w Hw). unfold fmap, M_fmap. by destruct (m w) as [[]]. Qed.

Lemma preserves_for_range_from I i n (body : nat → M W unit) :
  (∀ j, preserves I (body j)) → preserves I (for_range_from i n body).
Proof.
  intros Hb. revert i. induction n as [|n IH]; intros i; [apply preserves_ret|].
  apply preserves_bind; auto.
Qed.

Lemma preserves_match_option {A B} I (o : option A) (f : A → M W B) (d : M W B) :
  (∀ a, preserves I (f a)) → preserves I d →
  preserves I (match o with Some a => f a | None => d end).
Proof. by destruct o. Qed.

Lemma preserves_if {A} I (b : bool) (m1 m2 : M W A) :
  preserves I m1 → preserves I m2 → preserves I (if b then m1 else m2).
Proof. by destruct b. Qed.
End preserves.

#[export] Hint Resolve preserves_ret preserves_raise preserves_gets preserves_lift
  preserves_modify preserves_bind preserves_fmap preserves_for_range_from
  preserves_match_option preserves_if : swap.

(** ** The built-ins *)

Lemma hex_digit_bound c d : hex_digit c = Some d → 0 ≤ d < 16.
Proof.
  unfold hex_digit. intros H.
  repeat case_match; simplify_eq; lia.
Qed.

Lemma hex_digits_acc_bound s : ∀ acc v n r,
  0 ≤ acc → hex_digits acc s = (v, n, r) →
  16 ^ Z.of_nat n * acc ≤ v < 16 ^ Z.of_nat n * (acc + 1) ∧ (length s = n + length r)%nat.
Proof.
  induction s as [|c s IH]; intros acc v n r Hacc; simpl.
  - intros [= <- <- <-]. simpl. lia.
  - destruct (hex_digit c) as [d|] eqn:Hd.
    + destruct (hex_digits (16 * acc + d) s) as [[v' n'] r'] eqn:E.
      intros [= <- <- <-]. apply hex_digit_bound in Hd.
      apply IH in E as [E ?]; [|lia].
      rewrite Nat2Z.inj_succ, Z.pow_succ_r by lia. split; [nia | simpl; lia].
    + intros [= <- <- <-]. simpl. lia.
Qed.

(** A hexadecimal digit is neither white space nor one of the other
    characters the parser gives a meaning to. *)
Lemma hex_digit_tests c :
  is_Some (hex_digit c) →
  is_space c = false ∧ bool_decide (c = "+"%char) = false ∧
  bool_decide (c = "-"%char) = false ∧ bool_decide (c ∈ ["x"; "X"]%char) = false.
Proof.
  destruct c as [[] [] [] [] [] [] [] []]; vm_compute; try done; by intros [? [=]].
Qed.
