(* ===== verification/PyLong.v ===== *)
(** * PyLong: what [long(s, 16)] accepts and returns

    On a string of hexadecimal digits [py_long16] returns the value of the
    digits; whatever it accepts is made of the characters of
    [long16_char]. *)

From S2P Require Import Prelude PyBase.
From Stdlib Require Import Ascii.
From stdpp Require Import sets.

Local Open Scope Z_scope.

(** [s] is [r] behind a run of characters [long(s, 16)] may accept. *)
Definition consumes (s r : list ascii) : Prop :=
  ∃ p, s = p ++ r ∧ Forall (λ c, long16_char c = true) p.

(** Every character is a hexadecimal digit. *)
Definition all_hex (s : list ascii) : Prop := Forall (λ c, is_Some (hex_digit c)) s.

#[export] Instance all_hex_dec s : Decision (all_hex s).
Proof. unfold all_hex. apply _. Defined.

(** ** Strings of digits *)

Lemma hex_digits_all s : ∀ acc,
  all_hex s →
  hex_digits acc s = (foldl (λ a d, 16 * a + d) acc (hex_digits_of s), length s, []).
Proof.
  induction s as [|c s IH]; intros acc Hs; [done|].
  apply Forall_cons in Hs as [[d Hd] Hs]. unfold hex_digits_of. simpl.
  rewrite Hd. simpl. by rewrite (IH _ Hs).
Qed.


(** The value of [n] digits is below [16 ^ n]. *)
Lemma hex_value_bound s :
  all_hex s → 0 ≤ hex_value (hex_digits_of s) < 16 ^ Z.of_nat (length s).
Proof.
  intros Hs. pose proof (hex_digits_all s 0 Hs) as E.
  apply hex_digits_acc_bound in E as [E _]; [|done]. unfold hex_value. lia.
Qed.

(** On a non-empty string of hexadecimal digits, [long(s, 16)] is the
    value of the digits. *)
Lemma py_long16_hex s :
  s ≠ [] → all_hex s → py_long16 s = Return (hex_value (hex_digits_of s)).
Proof.
  destruct s as [|c s]; [done|]. intros _ Hs.
  pose proof Hs as [(Hsp & Hp & Hm & _)%hex_digit_tests Hs']%Forall_cons.
  unfold py_long16. cbn [skip_space]. rewrite Hsp. unfold skip_sign. rewrite Hp, Hm.
  cbn [skip_space]. rewrite Hsp.
  assert (skip_0x (c :: s) = c :: s) as ->.
  { destruct s as [|c2 s]; [done|]. apply Forall_cons in Hs' as [Hc2 _].
    apply hex_digit_tests in Hc2 as (_ & _ & _ & Hx).
    unfold skip_0x. by rewrite Hx, andb_false_r. }
  rewrite (hex_digits_all _ 0 Hs). simpl. by rewrite Z.mul_1_l.
Qed.

(** ** What is accepted *)

Lemma consumes_refl s : consumes s s.
Proof. by exists []. Qed.

Lemma consumes_trans s1 s2 s3 : consumes s1 s2 → consumes s2 s3 → consumes s1 s3.
Proof.
  intros (p & -> & Hp) (q & -> & Hq). exists (p ++ q).
  by rewrite <-app_assoc, Forall_app.
Qed.

Lemma consumes_cons c s r : long16_char c = true → consumes s r → consumes (c :: s) r.
Proof. intros Hc (p & -> & Hp). exists (c :: p). by split; [|constructor]. Qed.

Lemma consumes_nil s : consumes s [] → Forall (λ c, long16_char c = true) s.
Proof. intros (p & -> & Hp). by rewrite app_nil_r. Qed.

Lemma long16_char_space c : is_space c = true → long16_char c = true.
Proof. unfold long16_char. intros ->. by rewrite orb_true_r. Qed.

Lemma long16_char_hex c : is_Some (hex_digit c) → long16_char c = true.
Proof. unfold long16_char. intros Hc. by rewrite bool_decide_eq_true_2. Qed.

Lemma long16_char_mark c :
  c ∈ ["+"; "-"; "x"; "X"; "l"; "L"]%char → long16_char c = true.
Proof.
  unfold long16_char. intros Hc. by rewrite (bool_decide_eq_true_2 _ Hc), orb_true_r.
Qed.

#[export] Hint Resolve consumes_refl consumes_cons long16_char_space long16_char_hex
  long16_char_mark : swap.

Lemma skip_space_consumes s : consumes s (skip_space s).
Proof.
  induction s as [|c s IH]; simpl; [auto with swap|].
  destruct (is_space c) eqn:E; auto with swap.
Qed.

Lemma skip_sign_consumes s : consumes s (skip_sign s).2.
Proof.
  destruct s as [|c s]; simpl; [auto with swap|].
  repeat case_bool_decide; subst; simpl; auto with swap;
    apply consumes_cons; auto with swap; apply long16_char_mark; set_unfold; tauto.
Qed.

Lemma skip_0x_consumes s : consumes s (skip_0x s).
Proof.
  destruct s as [|c1 [|c2 s]]; simpl; auto with swap.
  case_bool_decide as E1; simpl; auto with swap.
  case_bool_decide as E2; auto with swap. subst c1.
  do 2 (apply consumes_cons; auto with swap).
  apply long16_char_mark. set_unfold. tauto.
Qed.

Lemma skip_L_consumes s : consumes s (skip_L s).
Proof.
  destruct s as [|c s]; simpl; auto with swap.
  case_bool_decide as E; auto with swap.
  apply consumes_cons; auto with swap. apply long16_char_mark. set_unfold. tauto.
Qed.

Lemma hex_digits_consumes s : ∀ acc, consumes s (hex_digits acc s).2.
Proof.
  induction s as [|c s IH]; intros acc; simpl; auto with swap.
  destruct (hex_digit c) as [d|] eqn:Hd; simpl; auto with swap.
  specialize (IH (16 * acc + d)). destruct (hex_digits _ s) as [[v n] r]. simpl in *.
  apply consumes_cons; [|done]. apply long16_char_hex. by rewrite Hd.
Qed.

(** Whatever [long(s, 16)] accepts consists of hexadecimal digits, white
    space, signs and the letters of the prefix and the suffix. *)
Lemma py_long16_chars s v :
  py_long16 s = Return v → Forall (λ c, long16_char c = true) s.
Proof.
  unfold py_long16. intros E. apply consumes_nil.
  eapply consumes_trans; [apply skip_space_consumes|].
  pose proof (skip_sign_consumes (skip_space s)) as H1.
  destruct (skip_sign (skip_space s)) as [sign s1]. simpl in H1.
  eapply consumes_trans; [exact H1|].
  eapply consumes_trans; [apply skip_space_consumes|].
  eapply consumes_trans; [apply skip_0x_consumes|].
  pose proof (hex_digits_consumes (skip_0x (skip_space s1)) 0) as H2.
  destruct (hex_digits 0 (skip_0x (skip_space s1))) as [[v' n] s5]. simpl in H2.
  eapply consumes_trans; [exact H2|].
  eapply consumes_trans; [apply skip_L_consumes|].
  pose proof (skip_space_consumes (skip_L s5)) as H3.
  destruct n; [done|]. by destruct (skip_space (skip_L s5)).
Qed.

(** A string with a character outside that set is rejected. *)
Lemma py_long16_rejects s c :
  c ∈ s → long16_char c = false → py_long16 s = Raise ValueError.
Proof.
  intros Hin Hc. destruct (py_long16 s) as [v|e] eqn:E.
  - apply py_long16_chars in E. rewrite Forall_forall in E.
    specialize (E c Hin). congruence.
  - revert E. unfold py_long16. repeat case_match; congruence.
Qed.

(** The empty string is rejected. *)
Lemma py_long16_empty : py_long16 [] = Raise ValueError.
Proof. reflexivity. Qed.
