(* ===== verification/SwapDefs.v ===== *)
(** * SwapDefs: the collaborators of [SwapMote] that live outside the file

    The protocol constants ([SwapState], [SwapRegId]), the value codec
    ([SwapValue]), the three packet kinds, registers and their parameters,
    and the device definition ([XmlDevice]).  [SwapMote.py] imports all of
    them; they are modelled at the interface the file uses. *)

From S2P Require Import Prelude.

Local Open Scope Z_scope.

(** ** Protocol constants *)

(** [SwapState]: the operating states a mote reports. *)
Definition RESTART : Z := 0.
Definition RXON : Z := 1.
Definition RXOFF : Z := 2.
Definition SYNC : Z := 3.

(** [SwapRegId]: the standard registers the file writes to, with their
    numbers in the SWAP register table (0 to 2 identify the product, 6
    and 7 are the security password and nonce). *)
Definition ID_SYSTEM_STATE : Z := 3.
Definition ID_FREQ_CHANNEL : Z := 4.
Definition ID_SECU_OPTION : Z := 5.
Definition ID_NETWORK_ID : Z := 8.
Definition ID_DEVICE_ADDR : Z := 9.
Definition ID_TX_INTERVAL : Z := 10.

(** ** The value codec *)

(** [n] bytes of [v], most significant first, each masked to 8 bits. *)
Fixpoint be_bytes (n : nat) (v : Z) : list Z :=
  match n with
  | O => []
  | S k => Z.land (Z.shiftr v (8 * Z.of_nat k)) 255 :: be_bytes k v
  end.

(** A register value: its bytes. *)
Record SwapValue : Type := mkSwapValue { sv_data : list Z }.

(** [SwapValue(value, length=n)] for an integer [value]. *)
Definition SwapValue_new (value : Z) (length : nat) : SwapValue :=
  mkSwapValue (be_bytes length value).

Arguments SwapValue_new : simpl never.

(** [SwapValue.toInteger()] *)
Definition toInteger (v : SwapValue) : Z :=
  foldl (λ acc b, 256 * acc + b) 0 (sv_data v).

(** ** Packets *)

(** The packets the file builds, with the arguments it passes; framing and
    check sums are the packet classes' business. *)
Inductive SwapPacket : Type :=
| SwapStatusPacket (rAddr rId : Z) (val : SwapValue) (extended_addr : bool)
| SwapCommandPacket (rAddr rId : Z) (val : SwapValue) (nonce : Z) (extended_addr : bool)
| SwapQueryPacket (rAddr rId : Z) (extended_addr : bool).

(** ** Registers and parameters *)

Record SwapParam : Type := mkSwapParam {
  param_name : string;
  param_value : SwapValue;
}.

Record SwapRegister : Type := mkSwapRegister {
  reg_id : Z;
  reg_value : SwapValue;
  reg_parameters : list SwapParam;
}.

(** ** The device definition *)

(** What [XmlDevice] supplies.  A register list may be absent
    ([getRegList] returns [None] when there is no definition file). *)
Record XmlDevice : Type := mkXmlDevice {
  def_manufacturer : string;
  def_product : string;
  def_pwrdownmode : bool;
  def_txinterval : Z;
  def_regular : option (list SwapRegister);
  def_config : option (list SwapRegister);
}.

(** [definition.getRegList(config)] *)
Definition getRegList (config : bool) (d : XmlDevice) : option (list SwapRegister) :=
  if config then def_config d else def_regular d.

(** ** Decidable equality *)

#[export] Instance SwapValue_eq_dec : EqDecision SwapValue.
Proof. solve_decision. Defined.

#[export] Instance SwapPacket_eq_dec : EqDecision SwapPacket.
Proof. solve_decision. Defined.

#[export] Instance SwapParam_eq_dec : EqDecision SwapParam.
Proof. solve_decision. Defined.

#[export] Instance SwapRegister_eq_dec : EqDecision SwapRegister.
Proof. solve_decision. Defined.

#[export] Instance XmlDevice_eq_dec : EqDecision XmlDevice.
Proof. solve_decision. Defined.

(** ** The codec's bytes *)

Lemma length_be_bytes n v : length (be_bytes n v) = n.
Proof. induction n; simpl; congruence. Qed.

Lemma be_bytes_range n v : Forall (λ b, 0 ≤ b < 256) (be_bytes n v).
Proof.
  induction n as [|n IH]; simpl; constructor; [|done].
  change 255 with (Z.ones 8). rewrite Z.land_ones by lia.
  apply Z.mod_pos_bound. lia.
Qed.

Lemma foldl_be_bytes n v acc :
  foldl (λ a b, 256 * a + b) acc (be_bytes n v)
  = acc * 256 ^ Z.of_nat n + v mod 256 ^ Z.of_nat n.
Proof.
  revert acc. induction n as [|n IH]; intros acc.
  - simpl. rewrite Z.mod_1_r. lia.
  - cbn [be_bytes foldl]. rewrite IH.
    change 255 with (Z.ones 8). rewrite Z.land_ones, Z.shiftr_div_pow2 by lia.
    rewrite Nat2Z.inj_succ, Z.pow_succ_r by lia.
    replace (2 ^ (8 * Z.of_nat n)) with (256 ^ Z.of_nat n)
      by (rewrite Z.pow_mul_r by lia; done).
    set (p := 256 ^ Z.of_nat n).
    assert (0 < p) by (apply Z.pow_pos_nonneg; lia).
    rewrite (Z.mul_comm 256 p), Z.rem_mul_r by lia.
    change (2 ^ 8) with 256. ring.
Qed.

(** Decoding what was encoded in [n] bytes gives the value modulo
    [256 ^ n]: the codec truncates. *)
Lemma toInteger_SwapValue_new v n :
  toInteger (SwapValue_new v n) = v mod 256 ^ Z.of_nat n.
Proof. unfold toInteger, SwapValue_new. simpl. rewrite foldl_be_bytes. lia. Qed.

Lemma length_SwapValue_new v n : length (sv_data (SwapValue_new v n)) = n.
Proof. apply length_be_bytes. Qed.
