(* ===== verification/MoteData.v ===== *)
(** * MoteData: the attributes of a [SwapMote] object and its read-only methods

    The record [SwapMote] holds the attributes [__init__] assigns, one
    [set_] function per attribute that a method assigns later, the queue
    primitives behind [collections.deque], and the methods that only read:
    [getRegister], [getParameter], [nbof_saved_commands]. *)

From S2P Require Import Prelude PyBase SwapDefs.

Local Open Scope Z_scope.

(** ** The object *)

(** The attributes of a mote, as [SwapMote.__init__] leaves them.  The
    attribute [server] is a reference to the delegate, which is a component
    of the world the methods run in and not of this record. *)
Record SwapMote : Type := mkSwapMote {
  queued_commands : list (Z * SwapValue);
  product_code : option string;
  product_id : Z;
  manufacturer_id : Z;
  config : option unit;
  definition : XmlDevice;
  address : Z;
  security : Z;
  nonce : Z;
  state : Z;
  regular_registers : option (list SwapRegister);
  config_registers : option (list SwapRegister);
  timestamp : Z;
  pwrdownmode : bool;
  txinterval : Z;
  extended_addr : bool;
}.

(** [self.address = a] *)
Definition set_address (a : Z) (m : SwapMote) : SwapMote :=
  {| queued_commands := queued_commands m; product_code := product_code m;
     product_id := product_id m; manufacturer_id := manufacturer_id m;
     config := config m; definition := definition m; address := a;
     security := security m; nonce := nonce m; state := state m;
     regular_registers := regular_registers m;
     config_registers := config_registers m; timestamp := timestamp m;
     pwrdownmode := pwrdownmode m; txinterval := txinterval m;
     extended_addr := extended_addr m |}.

(** [self.security = s] *)
Definition set_security (s : Z) (m : SwapMote) : SwapMote :=
  {| queued_commands := queued_commands m; product_code := product_code m;
     product_id := product_id m; manufacturer_id := manufacturer_id m;
     config := config m; definition := definition m; address := address m;
     security := s; nonce := nonce m; state := state m;
     regular_registers := regular_registers m;
     config_registers := config_registers m; timestamp := timestamp m;
     pwrdownmode := pwrdownmode m; txinterval := txinterval m;
     extended_addr := extended_addr m |}.

(** [self.txinterval = i] *)
Definition set_txinterval (i : Z) (m : SwapMote) : SwapMote :=
  {| queued_commands := queued_commands m; product_code := product_code m;
     product_id := product_id m; manufacturer_id := manufacturer_id m;
     config := config m; definition := definition m; address := address m;
     security := security m; nonce := nonce m; state := state m;
     regular_registers := regular_registers m;
     config_registers := config_registers m; timestamp := timestamp m;
     pwrdownmode := pwrdownmode m; txinterval := i;
     extended_addr := extended_addr m |}.

(** [self.state = st] *)
Definition set_state (st : Z) (m : SwapMote) : SwapMote :=
  {| queued_commands := queued_commands m; product_code := product_code m;
     product_id := product_id m; manufacturer_id := manufacturer_id m;
     config := config m; definition := definition m; address := address m;
     security := security m; nonce := nonce m; state := st;
     regular_registers := regular_registers m;
     config_registers := config_registers m; timestamp := timestamp m;
     pwrdownmode := pwrdownmode m; txinterval := txinterval m;
     extended_addr := extended_addr m |}.

(** [self.timestamp = t] *)
Definition set_timestamp (t : Z) (m : SwapMote) : SwapMote :=
  {| queued_commands := queued_commands m; product_code := product_code m;
     product_id := product_id m; manufacturer_id := manufacturer_id m;
     config := config m; definition := definition m; address := address m;
     security := security m; nonce := nonce m; state := state m;
     regular_registers := regular_registers m;
     config_registers := config_registers m; timestamp := t;
     pwrdownmode := pwrdownmode m; txinterval := txinterval m;
     extended_addr := extended_addr m |}.

(** The deque object is mutated in place; the attribute keeps naming it. *)
Definition set_queued_commands (q : list (Z * SwapValue)) (m : SwapMote) : SwapMote :=
  {| queued_commands := q; product_code := product_code m;
     product_id := product_id m; manufacturer_id := manufacturer_id m;
     config := config m; definition := definition m; address := address m;
     security := security m; nonce := nonce m; state := state m;
     regular_registers := regular_registers m;
     config_registers := config_registers m; timestamp := timestamp m;
     pwrdownmode := pwrdownmode m; txinterval := txinterval m;
     extended_addr := extended_addr m |}.

(** ** The queue: [collections.deque] *)

(** [self.queued_commands.append((regid, value))] *)
Definition queue_append (regid : Z) (value : SwapValue) (m : SwapMote) : SwapMote :=
  set_queued_commands (queued_commands m ++ [(regid, value)]) m.

(** [self.queued_commands.popleft()]: the oldest entry and the mote without
    it, or [IndexError] on an empty deque. *)
Definition queue_popleft (m : SwapMote) : outcome (Z * SwapValue) * SwapMote :=
  match queued_commands m with
  | [] => (Raise IndexError, m)
  | c :: q => (Return c, set_queued_commands q m)
  end.

(** [len(self.queued_commands)] *)
Definition nbof_saved_commands (m : SwapMote) : nat := length (queued_commands m).

(** ** Look-ups *)

(** [for reg in regs: if reg.id == regId: return reg] *)
Definition find_register (regId : Z) (regs : list SwapRegister) : option SwapRegister :=
  find (λ reg, reg_id reg =? regId) regs.

(** [for reg in regs: for param in reg.parameters: if param.name == name:
    return param] *)
Fixpoint find_parameter (name : string) (regs : list SwapRegister) : option SwapParam :=
  match regs with
  | [] => None
  | reg :: rest =>
      match find (λ param, String.eqb (param_name param) name) (reg_parameters reg) with
      | Some param => Some param
      | None => find_parameter name rest
      end
  end.

(** Iterating an attribute that holds [None] raises [TypeError]. *)
Definition iter_registers (regs : option (list SwapRegister)) : outcome (list SwapRegister) :=
  match regs with
  | Some l => Return l
  | None => Raise TypeError
  end.

(** [getRegister(regId)]: the regular registers first, then the
    configuration registers, [None] when neither has it. *)
Definition getRegister (regId : Z) (m : SwapMote) : outcome (option SwapRegister) :=
  match iter_registers (regular_registers m) with
  | Raise e => Raise e
  | Return regs =>
      match find_register regId regs with
      | Some reg => Return (Some reg)
      | None =>
          match iter_registers (config_registers m) with
          | Raise e => Raise e
          | Return cregs => Return (find_register regId cregs)
          end
      end
  end.

(** [getParameter(name)] *)
Definition getParameter (name : string) (m : SwapMote) : outcome (option SwapParam) :=
  match iter_registers (regular_registers m) with
  | Raise e => Raise e
  | Return regs =>
      match find_parameter name regs with
      | Some param => Return (Some param)
      | None =>
          match iter_registers (config_registers m) with
          | Raise e => Raise e
          | Return cregs => Return (find_parameter name cregs)
          end
      end
  end.

(** ** Reference definitions *)

(** Every register of the mote, in search order. *)
Definition all_registers (m : SwapMote) : list SwapRegister :=
  default [] (regular_registers m) ++ default [] (config_registers m).

(** Every parameter of a list of registers, in search order. *)
Definition all_parameters (regs : list SwapRegister) : list SwapParam :=
  flat_map reg_parameters regs.

(** A mote whose two register lists are lists. *)
Definition has_registers (m : SwapMote) : Prop :=
  is_Some (regular_registers m) ∧ is_Some (config_registers m).

#[export] Instance has_registers_dec m : Decision (has_registers m).
Proof. unfold has_registers. apply _. Defined.

(** The attributes no method assigns after construction. *)
Definition same_identity (m m' : SwapMote) : Prop :=
  product_code m' = product_code m ∧ product_id m' = product_id m ∧
  manufacturer_id m' = manufacturer_id m ∧ config m' = config m ∧
  definition m' = definition m ∧ nonce m' = nonce m ∧
  regular_registers m' = regular_registers m ∧
  config_registers m' = config_registers m ∧
  pwrdownmode m' = pwrdownmode m ∧ extended_addr m' = extended_addr m.

(** All attributes but the queue agree. *)
Definition same_but_queue (m m' : SwapMote) : Prop :=
  m' = set_queued_commands (queued_commands m') m.

#[export] Instance SwapMote_eq_dec : EqDecision SwapMote.
Proof. solve_decision. Defined.

(** ** The queue *)

Lemma set_queued_commands_id m : set_queued_commands (queued_commands m) m = m.
Proof. by destruct m. Qed.

Lemma same_but_queue_refl m : same_but_queue m m.
Proof. unfold same_but_queue. by rewrite set_queued_commands_id. Qed.

Lemma same_but_queue_trans m1 m2 m3 :
  same_but_queue m1 m2 → same_but_queue m2 m3 → same_but_queue m1 m3.
Proof. unfold same_but_queue. intros -> ->. reflexivity. Qed.

Lemma same_but_queue_set q m : same_but_queue m (set_queued_commands q m).
Proof. reflexivity. Qed.

#[export] Hint Resolve same_but_queue_refl same_but_queue_set : swap.

(** Motes that differ in their queues only are equivalent, and every
    attribute but the queue respects the equivalence. *)
#[export] Instance same_but_queue_equiv : Equivalence same_but_queue.
Proof.
  split; [exact same_but_queue_refl | | exact same_but_queue_trans].
  intros m m'. unfold same_but_queue. intros ->. by destruct m.
Qed.

#[export] Instance same_identity_proper m0 : Proper (same_but_queue ==> iff) (same_identity m0).
Proof. intros m m' Hs. unfold same_but_queue in Hs. by rewrite Hs. Qed.

#[export] Instance address_proper : Proper (same_but_queue ==> eq) address.
Proof. intros m m' Hs. unfold same_but_queue in Hs. by rewrite Hs. Qed.

#[export] Instance nonce_proper : Proper (same_but_queue ==> eq) nonce.
Proof. intros m m' Hs. unfold same_but_queue in Hs. by rewrite Hs. Qed.

#[export] Instance extended_addr_proper : Proper (same_but_queue ==> eq) extended_addr.
Proof. intros m m' Hs. unfold same_but_queue in Hs. by rewrite Hs. Qed.

Lemma queue_popleft_cons c q m :
  queued_commands m = c :: q →
  queue_popleft m = (Return c, set_queued_commands q m).
Proof. unfold queue_popleft. by intros ->. Qed.

Lemma queue_popleft_nil m :
  queued_commands m = [] → queue_popleft m = (Raise IndexError, m).
Proof. unfold queue_popleft. by intros ->. Qed.

(** ** The look-ups against their references *)

Lemma find_parameter_flat_map name regs :
  find_parameter name regs
  = find (λ param, String.eqb (param_name param) name) (all_parameters regs).
Proof.
  induction regs as [|reg regs IH]; simpl; [done|].
  rewrite find_app, IH. by destruct (find _ (reg_parameters reg)).
Qed.

Lemma find_register_app regId l k :
  find_register regId (l ++ k)
  = match find_register regId l with Some r => Some r | None => find_register regId k end.
Proof. apply find_app. Qed.

Lemma find_register_Some regId regs reg :
  find_register regId regs = Some reg → reg ∈ regs ∧ reg_id reg = regId.
Proof.
  intros (l1 & l2 & -> & ?%Z.eqb_eq & _)%find_Some_split. split; [|done].
  apply elem_of_app. right. by left.
Qed.

(** With both lists present [getRegister] is one search through their
    concatenation. *)
Lemma getRegister_find regId m regs cregs :
  regular_registers m = Some regs → config_registers m = Some cregs →
  getRegister regId m = Return (find_register regId (regs ++ cregs)).
Proof.
  intros E1 E2. unfold getRegister. rewrite E1, E2, find_register_app. simpl.
  by destruct (find_register regId regs).
Qed.

Lemma find_register_None regId regs :
  find_register regId regs = None ↔ ∀ reg, reg ∈ regs → reg_id reg ≠ regId.
Proof.
  unfold find_register. rewrite find_None_Forall, Forall_forall.
  by setoid_rewrite Z.eqb_neq.
Qed.
