(* ===== verification/Server.v ===== *)
(** * Server: the world a mote's methods run in, and the communication delegate

    A [World] is the heap the methods see: the mote object, the delegate
    the attribute [server] refers to, and the wall clock.  The delegate is
    outside [SwapMote.py]; the class [SwapServer] is the interface the file
    calls, the classes [ServerFramed], [ServerSends] and [SendEnqueues] are
    the assumptions under which theorems about the mote are proved, and
    [Recorder], [Resubmitter] and [Faulty] are delegates that satisfy or
    break them. *)

From S2P Require Import Prelude PyBase SwapDefs MoteData.

Local Open Scope Z_scope.

(** ** The world *)

Record World (D : Type) : Type := mkWorld {
  mote : SwapMote;
  srv : D;
  clock : Z;
}.
Arguments mkWorld {D} _ _ _.
Arguments mote {D} _.
Arguments srv {D} _.
Arguments clock {D} _.

Definition set_mote {D} (m : SwapMote) (w : World D) : World D :=
  mkWorld m (srv w) (clock w).

Definition set_srv {D} (s : D) (w : World D) : World D :=
  mkWorld (mote w) s (clock w).

(** Apply a change to the mote object. *)
Definition on_mote {D} (f : SwapMote → SwapMote) (w : World D) : World D :=
  set_mote (f (mote w)) w.

(** ** The delegate's interface

    [send p] is [p.send(self.server)]; [setMoteRegister] and
    [queryMoteRegister] are the confirmed exchanges, called with the mote
    itself as first argument.  Each may change the whole world: the
    delegate holds a reference to the mote.  [wire] observes the packets
    the delegate has transmitted so far. *)
Class SwapServer (D : Type) : Type := {
  send : SwapPacket → M (World D) unit;
  setMoteRegister : Z → SwapValue → M (World D) bool;
  queryMoteRegister : Z → M (World D) (option SwapValue);
  wire : D → list SwapPacket;
}.

(** A computation that leaves the mote and the clock alone. *)
Definition frames {D A} (m : M (World D) A) : Prop :=
  ∀ w, mote (m w).2 = mote w ∧ clock (m w).2 = clock w.

(** A computation that may only append to the mote's queue. *)
Definition enqueues {D A} (m : M (World D) A) : Prop :=
  ∀ w, same_but_queue (mote w) (mote (m w).2) ∧
       queued_commands (mote w) `prefix_of` queued_commands (mote (m w).2) ∧
       clock (m w).2 = clock w.

(** The delegate never writes to the mote. *)
Class ServerFramed (D : Type) `{SwapServer D} : Prop := {
  send_frames p : frames (send p);
  setMoteRegister_frames regId value : frames (setMoteRegister regId value);
  queryMoteRegister_frames regId : frames (queryMoteRegister regId);
}.

(** [send] transmits its packet, and nothing else, and does not raise. *)
Class ServerSends (D : Type) `{SwapServer D} : Prop := {
  send_Return p w : (send p w).1 = Return tt;
  send_wire p w : wire (srv (send p w).2) = wire (srv w) ++ [p];
}.

(** Whatever [send] triggers may enqueue commands on the mote, and does
    nothing else to it. *)
Class SendEnqueues (D : Type) `{SwapServer D} : Prop := {
  send_enqueues p : enqueues (send p);
}.

(** ** A recording delegate

    It transmits what it is given, and answers confirmed exchanges from a
    script: the next acknowledgement, the next reply. *)
Record Recorder : Type := mkRecorder {
  rec_wire : list SwapPacket;
  rec_acks : list bool;
  rec_replies : list (option SwapValue);
}.

Definition Recorder_send (p : SwapPacket) : M (World Recorder) unit :=
  modify (λ w, set_srv (mkRecorder (rec_wire (srv w) ++ [p]) (rec_acks (srv w))
                                   (rec_replies (srv w))) w).

Definition Recorder_set (regId : Z) (value : SwapValue) : M (World Recorder) bool := λ w,
  let m := mote w in
  let p := SwapCommandPacket (address m) regId value (nonce m) (extended_addr m) in
  (Return (default false (head (rec_acks (srv w)))),
   set_srv (mkRecorder (rec_wire (srv w) ++ [p]) (tail (rec_acks (srv w)))
                       (rec_replies (srv w))) w).

Definition Recorder_query (regId : Z) : M (World Recorder) (option SwapValue) := λ w,
  let m := mote w in
  let p := SwapQueryPacket (address m) regId (extended_addr m) in
  (Return (default None (head (rec_replies (srv w)))),
   set_srv (mkRecorder (rec_wire (srv w) ++ [p]) (rec_acks (srv w))
                       (tail (rec_replies (srv w)))) w).

#[export] Instance Recorder_server : SwapServer Recorder := {
  send := Recorder_send;
  setMoteRegister := Recorder_set;
  queryMoteRegister := Recorder_query;
  wire := rec_wire;
}.

(** ** A delegate with a delivery call-back

    After each transmission it hands the mote one more command from a list
    of follow-ups, the way a delivery-completion call-back would. *)
Record Resubmitter : Type := mkResubmitter {
  rs_wire : list SwapPacket;
  rs_followups : list (Z * SwapValue);
}.

Definition Resubmitter_send (p : SwapPacket) : M (World Resubmitter) unit :=
  modify (λ w,
    let s := srv w in
    mkWorld (set_queued_commands (queued_commands (mote w) ++ take 1 (rs_followups s)) (mote w))
            (mkResubmitter (rs_wire s ++ [p]) (drop 1 (rs_followups s)))
            (clock w)).

#[export] Instance Resubmitter_server : SwapServer Resubmitter := {
  send := Resubmitter_send;
  setMoteRegister := λ _ _, mret false;
  queryMoteRegister := λ _, mret None;
  wire := rs_wire;
}.

(** ** A delegate whose link fails

    It transmits while its budget lasts and raises afterwards. *)
Record Faulty : Type := mkFaulty {
  f_wire : list SwapPacket;
  f_budget : nat;
}.

Definition Faulty_send (p : SwapPacket) : M (World Faulty) unit := λ w,
  match f_budget (srv w) with
  | O => (Raise (ExternalError "link down"), w)
  | S k => (Return tt, set_srv (mkFaulty (f_wire (srv w) ++ [p]) k) w)
  end.

#[export] Instance Faulty_server : SwapServer Faulty := {
  send := Faulty_send;
  setMoteRegister := λ _ _, mret false;
  queryMoteRegister := λ _, mret None;
  wire := f_wire;
}.

(** ** The assumptions and their instances *)

Lemma frames_enqueues {D A} (m : M (World D) A) : frames m → enqueues m.
Proof.
  intros H w. destruct (H w) as [-> ->].
  split; [apply same_but_queue_refl | done].
Qed.

#[export] Instance ServerFramed_SendEnqueues `{ServerFramed D} : SendEnqueues D.
Proof. split. intros p. apply frames_enqueues, send_frames. Qed.

#[export] Instance Recorder_framed : ServerFramed Recorder.
Proof. by split. Qed.

#[export] Instance Recorder_sends : ServerSends Recorder.
Proof. by split. Qed.

#[export] Instance Resubmitter_sends : ServerSends Resubmitter.
Proof. by split. Qed.

#[export] Instance Resubmitter_enqueues : SendEnqueues Resubmitter.
Proof.
  split. intros p w. simpl. split_and!; [apply same_but_queue_set | | done].
  by apply prefix_app_r.
Qed.

(** The delegate with the call-back does write to the mote: it is not
    framed. *)
Lemma Resubmitter_not_framed : ¬ ServerFramed Resubmitter.
Proof.
  intros [Hs _ _].
  pose (m := mkSwapMote [] None 0 0 None (mkXmlDevice "" "" true 0 None None)
                        0 0 0 0 None None 0 true 0 false).
  pose (w := mkWorld m (mkResubmitter [] [(1, mkSwapValue [])]) 0).
  destruct (Hs (SwapQueryPacket 0 0 false) w) as [Hm _]. by vm_compute in Hm.
Qed.

(** The failing delegate is framed, and does not always send. *)
#[export] Instance Faulty_framed : ServerFramed Faulty.
Proof.
  split; [|done..]. intros p w. unfold send; simpl. unfold Faulty_send.
  by destruct (f_budget (srv w)).
Qed.

(** ** Computations that leave the mote alone *)

Section frames.
Context {D : Type}.

Lemma frames_ret {A} (a : A) : frames (mret a : M (World D) A).
Proof. by intros w. Qed.

Lemma frames_raise {A} e : frames (raise e : M (World D) A).
Proof. by intros w. Qed.

Lemma frames_gets {A} (f : World D → A) : frames (gets f).
Proof. by intros w. Qed.

Lemma frames_lift {A} (o : outcome A) : frames (lift_outcome o : M (World D) A).
Proof. by intros w. Qed.

Lemma frames_bind {A B} (m : M (World D) A) (f : A → M (World D) B) :
  frames m → (∀ a, frames (f a)) → frames (m ≫= f).
Proof.
  intros Hm Hf w. rewrite bind_unfold. specialize (Hm w).
  destruct (m w) as [[a|e] w']; simpl in *; [|done].
  destruct (Hf a w') as [-> ->]. done.
Qed.

Lemma frames_fmap {A B} (g : A → B) (m : M (World D) A) : frames m → frames (g <$> m).
Proof.
  intros Hm w. specialize (Hm w). unfold fmap, M_fmap.
  by destruct (m w) as [[a|e] w'].
Qed.

Lemma frames_match_option {A B} (o : option A) (f : A → M (World D) B) (d : M (World D) B) :
  (∀ a, frames (f a)) → frames d → frames (match o with Some a => f a | None => d end).
Proof. by destruct o. Qed.

Lemma frames_run {A} (m : M (World D) A) w :
  frames m → mote (m w).2 = mote w ∧ clock (m w).2 = clock w.
Proof. intros Hm. apply Hm. Qed.
End frames.

#[export] Hint Resolve frames_ret frames_raise frames_gets frames_lift frames_bind
  frames_fmap frames_match_option : swap.

(** ** Consequences of the assumptions *)

Section server.
Context `{SwapServer D}.

Lemma send_run `{!ServerSends D} p w :
  send p w = (Return tt, (send p w).2).
Proof. pose proof (send_Return p w). by destruct (send p w) as [[] ?]; simplify_eq/=. Qed.
End server.
