(* ===== verification/MoteOps.v ===== *)
(** * MoteOps: the methods of [SwapMote] that send, queue or assign

    Each method of src/pyswap/swap/protocol/SwapMote.py is one definition
    in the monad [M (World D)], for any delegate [D] with the interface
    [SwapServer]; the statements of a method are the binds of its
    definition, in the order of the source. *)

From S2P Require Import Prelude PyBase SwapDefs MoteData Server.

Local Open Scope Z_scope.

Section methods.
Context `{SwapServer D}.

(** [self.<attribute>] *)
Definition self {A} (f : SwapMote → A) : M (World D) A := gets (λ w, f (mote w)).

(** [self.<attribute> = ...] *)
Definition assign (f : SwapMote → SwapMote) : M (World D) unit := modify (on_mote f).

(** The command packet [cmdRegister] builds for a queued entry. *)
Definition command_packet (m : SwapMote) (c : Z * SwapValue) : SwapPacket :=
  SwapCommandPacket (address m) c.1 c.2 (nonce m) (extended_addr m).

(** [cmdRegister(regId, value)]: send the command, return the status
    packet the mote is expected to answer with. *)
Definition cmdRegister (regId : Z) (value : SwapValue) : M (World D) SwapPacket :=
  m ← self id;
  let infPacket := SwapStatusPacket (address m) regId value false in
  let cmdPacket := command_packet m (regId, value) in
  _ ← send cmdPacket;
  mret infPacket.

(** [qryRegister(regId)] *)
Definition qryRegister (regId : Z) : M (World D) unit :=
  m ← self id;
  let qryPacket := SwapQueryPacket (address m) regId (extended_addr m) in
  send qryPacket.

(** [staRegister(regId)]: [reg.value] on a register that was not found is
    an attribute access on [None]. *)
Definition staRegister (regId : Z) : M (World D) unit :=
  m ← self id;
  reg ← lift_outcome (getRegister regId m);
  match reg with
  | None => raise AttributeError
  | Some r =>
      let infPacket := SwapStatusPacket (address m) regId (reg_value r) (extended_addr m) in
      send infPacket
  end.

(** [cmdRegisterWack(regId, value)] *)
Definition cmdRegisterWack (regId : Z) (value : SwapValue) : M (World D) bool :=
  setMoteRegister regId value.

(** [qryRegisterWack(regId)] *)
Definition qryRegisterWack (regId : Z) : M (World D) (option SwapValue) :=
  queryMoteRegister regId.

(** [save_command(regid, value)]: [Some true] and [Some false] are the
    acknowledgement of an immediate command, [None] is a command saved
    for later. *)
Definition save_command (regid : Z) (value : SwapValue) : M (World D) (option bool) :=
  m ← self id;
  if bool_decide (state m = RXON) || negb (pwrdownmode m) then
    res ← cmdRegisterWack regid value;
    mret (Some res)
  else
    _ ← assign (queue_append regid value);
    mret None.

(** [save_address_command(address)] *)
Definition save_address_command (addr : Z) : M (World D) (option bool) :=
  let val := SwapValue_new addr 1 in
  save_command ID_DEVICE_ADDR val.

(** [save_txinterval_command(interval)] *)
Definition save_txinterval_command (interval : Z) : M (World D) (option bool) :=
  let val := SwapValue_new interval 2 in
  save_command ID_TX_INTERVAL val.

(** [get_saved_command()] *)
Definition get_saved_command : M (World D) (Z * SwapValue) := λ w,
  let '(res, m') := queue_popleft (mote w) in (res, set_mote m' w).

(** [setAddress(address)] *)
Definition setAddress (addr : Z) : M (World D) bool :=
  let val := SwapValue_new addr 1 in
  res ← cmdRegisterWack ID_DEVICE_ADDR val;
  _ ← (if res : bool then assign (set_address addr) else mret tt);
  mret res.

(** [setNetworkId(netId)] *)
Definition setNetworkId (netId : Z) : M (World D) bool :=
  let val := SwapValue_new netId 2 in
  cmdRegisterWack ID_NETWORK_ID val.

(** [setFreqChannel(channel)]: the result is bound and dropped, the method
    returns [None]. *)
Definition setFreqChannel (channel : Z) : M (World D) unit :=
  let val := SwapValue_new channel 1 in
  res ← cmdRegisterWack ID_FREQ_CHANNEL val;
  mret tt.

(** [setSecurity(secu)] *)
Definition setSecurity (secu : Z) : M (World D) bool :=
  let val := SwapValue_new secu 1 in
  res ← cmdRegisterWack ID_SECU_OPTION val;
  _ ← (if res : bool then assign (set_security secu) else mret tt);
  mret res.

(** [setTxInterval(interval)] *)
Definition setTxInterval (interval : Z) : M (World D) bool :=
  let val := SwapValue_new interval 2 in
  res ← cmdRegisterWack ID_TX_INTERVAL val;
  _ ← (if res : bool then assign (set_txinterval interval) else mret tt);
  mret res.

(** [restart()] *)
Definition restart : M (World D) bool :=
  let val := SwapValue_new RESTART 1 in
  cmdRegisterWack ID_SYSTEM_STATE val.

(** [leaveSync()] *)
Definition leaveSync : M (World D) bool :=
  let val := SwapValue_new RXOFF 1 in
  cmdRegisterWack ID_SYSTEM_STATE val.

(** [updateTimeStamp()] *)
Definition updateTimeStamp : M (World D) unit :=
  modify (λ w, on_mote (set_timestamp (clock w)) w).

(** The body of the loop of [update_state]: read a command from the
    queue, transmit it. *)
Definition flush_one (i : nat) : M (World D) unit :=
  '(regid, value) ← get_saved_command;
  _ ← cmdRegister regid value;
  mret tt.

(** [update_state(state)] *)
Definition update_state (st : Z) : M (World D) unit :=
  _ ← assign (set_state st);
  if bool_decide (st = RXON) || bool_decide (st = SYNC) then
    nb_cmds ← self nbof_saved_commands;
    if bool_decide (0 < nb_cmds)%nat then for_range nb_cmds flush_one
    else mret tt
  else mret tt.

End methods.
