(* ===== verification/MoteSpec.v ===== *)
(** * MoteSpec: what one call of each method does

    The equations the theorems of the later files rest on: each method of
    [MoteOps] run on a world, in terms of the delegate's operations.  None
    assumes anything of the delegate beyond what its statement says. *)

From S2P Require Import Prelude PyBase SwapDefs MoteData Server MoteOps.

Local Open Scope Z_scope.

(** The outcome of a confirmed setter, given the outcome of the exchange:
    the attribute is assigned exactly when the exchange returned [True]. *)
Definition mirror {D} (f : SwapMote → SwapMote) (r : outcome bool * World D)
    : outcome bool * World D :=
  match r with
  | (Return true, w) => (Return true, on_mote f w)
  | (Return false, w) => (Return false, w)
  | (Raise e, w) => (Raise e, w)
  end.

(** The packet of a command depends on the mote's address, nonce and
    addressing mode, not on its queue. *)
#[export] Instance command_packet_proper :
  Proper (same_but_queue ==> eq ==> eq) command_packet.
Proof. intros m m' Hs c c' <-. unfold command_packet. by rewrite Hs. Qed.

Section run.
Context `{SwapServer D}.
Implicit Types (w : World D) (m : SwapMote).

(** ** Fields of a changed world *)

Lemma on_mote_set_queue_id w :
  on_mote (set_queued_commands (queued_commands (mote w))) w = w.
Proof.
  destruct w as [m s c]. unfold on_mote, set_mote. simpl.
  by rewrite set_queued_commands_id.
Qed.

(** ** The queue *)

Lemma get_saved_command_cons w c q :
  queued_commands (mote w) = c :: q →
  get_saved_command w = (Return c, on_mote (set_queued_commands q) w).
Proof. intros E. unfold get_saved_command. by rewrite (queue_popleft_cons c q). Qed.

Lemma get_saved_command_nil w :
  queued_commands (mote w) = [] → get_saved_command w = (Raise IndexError, w).
Proof.
  intros E. unfold get_saved_command. rewrite queue_popleft_nil by done. by destruct w.
Qed.

(** ** Sending *)

Lemma cmdRegister_run regId value w :
  cmdRegister regId value w
  = ((λ _, SwapStatusPacket (address (mote w)) regId value false)
       <$> send (command_packet (mote w) (regId, value))) w.
Proof. reflexivity. Qed.

Lemma cmdRegister_sends `{!ServerSends D} regId value w :
  cmdRegister regId value w
  = (Return (SwapStatusPacket (address (mote w)) regId value false),
     (send (command_packet (mote w) (regId, value)) w).2).
Proof.
  rewrite cmdRegister_run. unfold fmap, M_fmap.
  by rewrite (send_run (command_packet _ _) w).
Qed.

(** One turn of the flush loop on a queue that is not empty. *)
Lemma flush_one_cons `{!ServerSends D} i w c q :
  queued_commands (mote w) = c :: q →
  flush_one i w
  = (Return tt, (send (command_packet (mote w) c) (on_mote (set_queued_commands q) w)).2).
Proof.
  intros E. unfold flush_one.
  rewrite (bind_Return _ _ _ _ _ (get_saved_command_cons w c q E)).
  destruct c as [regid value].
  by rewrite (bind_Return _ _ _ _ _ (cmdRegister_sends regid value _)).
Qed.

(** ** Saving *)

Lemma save_command_run regid value w :
  save_command regid value w
  = if bool_decide (state (mote w) = RXON) || negb (pwrdownmode (mote w))
    then (Some <$> setMoteRegister regid value) w
    else (Return None, on_mote (queue_append regid value) w).
Proof.
  unfold save_command. rewrite bind_unfold. simpl.
  destruct (_ || _); [|done].
  unfold cmdRegisterWack, fmap, M_fmap. rewrite bind_unfold.
  by destruct (setMoteRegister regid value w) as [[]].
Qed.

(** On a sleeping mote of a power-down device the command is queued. *)
Lemma save_command_asleep regid value w :
  state (mote w) ≠ RXON → pwrdownmode (mote w) = true →
  save_command regid value w = (Return None, on_mote (queue_append regid value) w).
Proof. intros Hst Hpd. by rewrite save_command_run, Hpd, bool_decide_eq_false_2. Qed.

(** ** Confirmed setters *)

Lemma setAddress_run addr w :
  setAddress addr w
  = mirror (set_address addr) (setMoteRegister ID_DEVICE_ADDR (SwapValue_new addr 1) w).
Proof.
  unfold setAddress, cmdRegisterWack. rewrite bind_unfold.
  by destruct (setMoteRegister _ _ w) as [[[]|]].
Qed.

Lemma setSecurity_run secu w :
  setSecurity secu w
  = mirror (set_security secu) (setMoteRegister ID_SECU_OPTION (SwapValue_new secu 1) w).
Proof.
  unfold setSecurity, cmdRegisterWack. rewrite bind_unfold.
  by destruct (setMoteRegister _ _ w) as [[[]|]].
Qed.

Lemma setTxInterval_run interval w :
  setTxInterval interval w
  = mirror (set_txinterval interval)
           (setMoteRegister ID_TX_INTERVAL (SwapValue_new interval 2) w).
Proof.
  unfold setTxInterval, cmdRegisterWack. rewrite bind_unfold.
  by destruct (setMoteRegister _ _ w) as [[[]|]].
Qed.

Lemma setFreqChannel_run channel w :
  setFreqChannel channel w
  = ((λ _, tt) <$> setMoteRegister ID_FREQ_CHANNEL (SwapValue_new channel 1)) w.
Proof. reflexivity. Qed.

(** ** The state update *)

Lemma receiving_guard st :
  st = RXON ∨ st = SYNC → bool_decide (st = RXON) || bool_decide (st = SYNC) = true.
Proof. by intros [-> | ->]. Qed.

Lemma update_state_run st w :
  update_state st w
  = if bool_decide (st = RXON) || bool_decide (st = SYNC)
    then for_range (length (queued_commands (mote w))) flush_one (on_mote (set_state st) w)
    else (Return tt, on_mote (set_state st) w).
Proof.
  unfold update_state. rewrite bind_unfold. simpl.
  destruct (_ || _); [|done].
  rewrite bind_unfold. simpl. unfold nbof_saved_commands. simpl.
  case_bool_decide as Hn; [done|].
  by destruct (queued_commands (mote w)); [|simpl in Hn; lia].
Qed.

(** ** Methods that leave the mote alone

    Under a delegate that never writes to the mote, the methods that only
    send do not change it. *)

Lemma cmdRegister_frames `{!ServerFramed D} regId value : frames (cmdRegister regId value).
Proof. unfold cmdRegister. eauto using send_frames with swap. Qed.

Lemma qryRegister_frames `{!ServerFramed D} regId : frames (qryRegister regId).
Proof. unfold qryRegister. eauto using send_frames with swap. Qed.

Lemma staRegister_frames `{!ServerFramed D} regId : frames (staRegister regId).
Proof. unfold staRegister. eauto 8 using send_frames with swap. Qed.

Lemma save_command_mote `{!ServerFramed D} regid value w :
  mote (save_command regid value w).2
  = (if bool_decide (state (mote w) = RXON) || negb (pwrdownmode (mote w))
     then mote w else queue_append regid value (mote w)) ∧
  clock (save_command regid value w).2 = clock w.
Proof.
  rewrite save_command_run. destruct (_ || _); [|done].
  apply (frames_fmap Some), setMoteRegister_frames.
Qed.

Lemma get_saved_command_mote w :
  mote (get_saved_command w).2
  = set_queued_commands (tail (queued_commands (mote w))) (mote w) ∧
  clock (get_saved_command w).2 = clock w.
Proof.
  unfold get_saved_command, queue_popleft.
  destruct (queued_commands (mote w)) eqn:E; simpl; [|done].
  by rewrite <-E, set_queued_commands_id.
Qed.

End run.
