(* ===== verification/Samples.v ===== *)
(** * Samples: concrete motes and worlds

    The data the witnesses of the development are evaluated on: a device
    definition with two regular and two configuration registers (one
    identifier present in both lists), a mote of that device as its
    constructor leaves it, and worlds with each of the three delegates of
    [Server]. *)

From S2P Require Import Prelude PyBase SwapDefs MoteData Server.

Local Open Scope Z_scope.

Definition sample_regular : list SwapRegister :=
  [ mkSwapRegister 11 (SwapValue_new 21 1) [mkSwapParam "temperature" (SwapValue_new 21 1)];
    mkSwapRegister 12 (SwapValue_new 300 2)
      [mkSwapParam "humidity" (SwapValue_new 1 1); mkSwapParam "voltage" (SwapValue_new 44 1)] ].

Definition sample_config : list SwapRegister :=
  [ mkSwapRegister 11 (SwapValue_new 99 1) [mkSwapParam "voltage" (SwapValue_new 99 1)];
    mkSwapRegister 20 (SwapValue_new 5 1) [mkSwapParam "period" (SwapValue_new 5 1)] ].

Definition sample_definition : XmlDevice :=
  mkXmlDevice "panStamp" "temphum" true 10 (Some sample_regular) (Some sample_config).

(** A mote of the sample device at address 5: asleep, nothing queued. *)
Definition sample_mote : SwapMote :=
  {| queued_commands := []; product_code := Some "0000000100000002";
     product_id := 2; manufacturer_id := 1; config := None;
     definition := sample_definition; address := 5; security := 0; nonce := 7;
     state := RXOFF; regular_registers := Some sample_regular;
     config_registers := Some sample_config; timestamp := 1000;
     pwrdownmode := true; txinterval := 10; extended_addr := false |}.

(** A mote whose device definition supplied no register list. *)
Definition bare_definition : XmlDevice := mkXmlDevice "panStamp" "unknown" true 10 None None.

Definition bare_mote : SwapMote :=
  {| queued_commands := []; product_code := Some "0000000100000003";
     product_id := 3; manufacturer_id := 1; config := None;
     definition := bare_definition; address := 5; security := 0; nonce := 7;
     state := RXOFF; regular_registers := None; config_registers := None;
     timestamp := 1000; pwrdownmode := true; txinterval := 10; extended_addr := false |}.

(** Three commands waiting for the mote to wake up. *)
Definition sample_queue : list (Z * SwapValue) :=
  [ (ID_DEVICE_ADDR, SwapValue_new 6 1);
    (ID_TX_INTERVAL, SwapValue_new 60 2);
    (ID_SECU_OPTION, SwapValue_new 1 1) ].

Definition sample_loaded : SwapMote := set_queued_commands sample_queue sample_mote.

(** A recording delegate that acknowledges the next exchange and refuses
    the one after. *)
Definition sample_recorder : Recorder := mkRecorder [] [true; false] [Some (SwapValue_new 21 1)].

Definition sample_world : World Recorder := mkWorld sample_mote sample_recorder 2000.
Definition loaded_world : World Recorder := mkWorld sample_loaded sample_recorder 2000.

(** The mote awake. *)
Definition awake_world : World Recorder :=
  mkWorld (set_state RXON sample_mote) sample_recorder 2000.

(** A delegate whose call-back resubmits two commands. *)
Definition resubmit_world : World Resubmitter :=
  mkWorld sample_loaded
          (mkResubmitter [] [ (ID_NETWORK_ID, SwapValue_new 1 2);
                              (ID_FREQ_CHANNEL, SwapValue_new 3 1) ])
          2000.

(** A link that carries one packet and then fails. *)
Definition faulty_world : World Faulty := mkWorld sample_loaded (mkFaulty [] 1) 2000.
