(* ===== verification/Sending.v ===== *)
(** * Sending: the fire-and-forget methods

    [cmdRegister] and [qryRegister]: one transmission each, the packet
    built from the mote's current address, nonce and addressing mode, no
    change to the mote; [cmdRegister] returns the status packet the mote
    is expected to answer with. *)

From S2P Require Import Prelude PyBase SwapDefs MoteData Server MoteOps MoteSpec Samples.

Local Open Scope Z_scope.

Section sending.
Context `{SwapServer D}.
Implicit Types (w : World D).

Lemma qryRegister_run regId w :
  qryRegister regId w
  = send (SwapQueryPacket (address (mote w)) regId (extended_addr (mote w))) w.
Proof. reflexivity. Qed.

(** C38: with a delegate that transmits reliably and never writes to the
    mote, [cmdRegister] performs exactly one transmission, of a command
    packet with the mote's address, the register, the value, the mote's
    nonce and its addressing mode; it returns the status packet with the
    same address, register and value; the mote is unchanged. *)
Theorem cmdRegister_transmits `{!ServerSends D} `{!ServerFramed D} regId value w :
  (cmdRegister regId value w).1
    = Return (SwapStatusPacket (address (mote w)) regId value false) ∧
  wire (srv (cmdRegister regId value w).2)
    = wire (srv w) ++ [SwapCommandPacket (address (mote w)) regId value (nonce (mote w))
                                         (extended_addr (mote w))] ∧
  mote (cmdRegister regId value w).2 = mote w.
Proof.
  rewrite cmdRegister_sends. simpl. split_and!; [done | apply send_wire | apply send_frames].
Qed.

(** With such a delegate, [qryRegister] performs exactly one
    transmission, of a query packet with the mote's address, the register
    and the addressing mode; it returns nothing and the mote is
    unchanged. *)
Theorem qryRegister_transmits `{!ServerSends D} `{!ServerFramed D} regId w :
  (qryRegister regId w).1 = Return tt ∧
  wire (srv (qryRegister regId w).2)
    = wire (srv w) ++ [SwapQueryPacket (address (mote w)) regId (extended_addr (mote w))] ∧
  mote (qryRegister regId w).2 = mote w.
Proof.
  rewrite qryRegister_run. split_and!; [apply send_Return | apply send_wire | apply send_frames].
Qed.

End sending.

(** ** Witnesses *)

Lemma cmdRegister_transmits_witness :
  (cmdRegister 12 (SwapValue_new 1 1) sample_world).1
    = Return (SwapStatusPacket 5 12 (SwapValue_new 1 1) false) ∧
  wire (srv (cmdRegister 12 (SwapValue_new 1 1) sample_world).2)
    = [SwapCommandPacket 5 12 (SwapValue_new 1 1) 7 false] ∧
  mote (cmdRegister 12 (SwapValue_new 1 1) sample_world).2 = sample_mote.
Proof. exact (cmdRegister_transmits 12 (SwapValue_new 1 1) sample_world). Defined.

Lemma qryRegister_transmits_witness :
  (qryRegister 12 sample_world).1 = Return tt ∧
  wire (srv (qryRegister 12 sample_world).2) = [SwapQueryPacket 5 12 false] ∧
  mote (qryRegister 12 sample_world).2 = sample_mote.
Proof. exact (qryRegister_transmits 12 sample_world). Defined.
