(* ===== verification/Queue.v ===== *)
(** * Queue: power-aware command queuing and the flush on wake-up

    The decision [save_command] takes for every register write, and what
    [update_state] does with the queue when the mote reports a state:
    first-in first-out replay through [cmdRegister] on entry to RXON or
    SYNC, nothing otherwise; the pass covers the commands queued when it
    starts and no others; a link failure in the middle of the pass loses
    the command in flight. *)

From S2P Require Import Prelude PyBase SwapDefs MoteData Server MoteOps MoteSpec Samples.

Local Open Scope Z_scope.

Section queue.
Context `{SwapServer D}.
Implicit Types (w : World D) (m : SwapMote) (q : list (Z * SwapValue)).

(** The world after saving the commands [cs] one after the other. *)
Definition save_all (cs : list (Z * SwapValue)) (w : World D) : World D :=
  foldl (λ w c, (save_command c.1 c.2 w).2) w cs.

(** ** The flush loop *)

(** [n] turns of the loop on a queue that starts with the [n] commands
    [q1], under a delegate whose [send] may enqueue: they are transmitted
    in order, what was behind them is still queued, in front of whatever
    the transmissions added. *)
Lemma flush_loop `{!ServerSends D} `{!SendEnqueues D} q1 : ∀ i w q2,
  queued_commands (mote w) = q1 ++ q2 →
  ∃ w', for_range_from i (length q1) flush_one w = (Return tt, w') ∧
        same_but_queue (mote w) (mote w') ∧
        q2 `prefix_of` queued_commands (mote w') ∧
        wire (srv w') = wire (srv w) ++ map (command_packet (mote w)) q1 ∧
        clock w' = clock w.
Proof.
  induction q1 as [|c q1 IH]; intros i w q2 E.
  { exists w. rewrite app_nil_r. simpl in E. rewrite E. auto with swap. }
  cbn [length]. rewrite for_range_from_S.
  rewrite (bind_Return _ _ _ _ _ (flush_one_cons i w c (q1 ++ q2) E)).
  set (w1 := on_mote (set_queued_commands (q1 ++ q2)) w).
  set (p := command_packet (mote w) c).
  destruct (send_enqueues p w1) as (Hs & [extra Hq] & Hc).
  destruct (IH (S i) (send p w1).2 (q2 ++ extra)) as (w' & Hrun & Hs' & Hp & Hw & Hc').
  { by rewrite Hq, app_assoc. }
  assert (same_but_queue (mote w) (mote (send p w1).2)) as Hs1
    by (eapply same_but_queue_trans; [apply same_but_queue_set | exact Hs]).
  exists w'. split_and!; [done | by eapply same_but_queue_trans | | | by rewrite Hc', Hc].
  - etrans; [by apply prefix_app_r | exact Hp].
  - rewrite Hw, send_wire, <-app_assoc. cbn [map]. do 2 f_equal.
    apply map_ext. intros c'. by rewrite Hs1.
Qed.

(** Under a delegate that never writes to the mote, the loop leaves
    exactly what was behind the commands it transmitted. *)
Lemma flush_loop_framed `{!ServerSends D} `{!ServerFramed D} q1 : ∀ i w q2,
  queued_commands (mote w) = q1 ++ q2 →
  mote (for_range_from i (length q1) flush_one w).2 = set_queued_commands q2 (mote w).
Proof.
  induction q1 as [|c q1 IH]; intros i w q2 E.
  { simpl in *. by rewrite <-E, set_queued_commands_id. }
  cbn [length]. rewrite for_range_from_S.
  rewrite (bind_Return _ _ _ _ _ (flush_one_cons i w c (q1 ++ q2) E)).
  set (w1 := on_mote (set_queued_commands (q1 ++ q2)) w).
  destruct (send_frames (command_packet (mote w) c) w1) as [Hm _].
  rewrite (IH _ _ q2); rewrite Hm; done.
Qed.

(** A pass of [update_state] on a receiving state, under a delegate whose
    [send] may enqueue. *)
Lemma update_state_receiving `{!ServerSends D} `{!SendEnqueues D} st w :
  st = RXON ∨ st = SYNC →
  ∃ w', update_state st w = (Return tt, w') ∧
        same_but_queue (set_state st (mote w)) (mote w') ∧
        wire (srv w') = wire (srv w) ++ map (command_packet (mote w)) (queued_commands (mote w)) ∧
        clock w' = clock w.
Proof.
  intros Hst. rewrite update_state_run, receiving_guard by done.
  destruct (flush_loop (queued_commands (mote w)) 0%nat (on_mote (set_state st) w) [])
    as (w' & Hrun & Hs & _ & Hw & Hc); [by rewrite app_nil_r|].
  by exists w'.
Qed.

(** The mote and the clock after [update_state], under a delegate that
    transmits reliably and never writes to the mote. *)
Lemma update_state_mote `{!ServerSends D} `{!ServerFramed D} st w :
  mote (update_state st w).2
  = (if bool_decide (st = RXON) || bool_decide (st = SYNC)
     then set_queued_commands [] (set_state st (mote w))
     else set_state st (mote w)) ∧
  clock (update_state st w).2 = clock w.
Proof.
  rewrite update_state_run. destruct (_ || _) eqn:Hst; [|done].
  unfold for_range. set (w0 := on_mote (set_state st) w).
  assert (queued_commands (mote w0) = queued_commands (mote w) ++ []) as E
    by by rewrite app_nil_r.
  split; [by rewrite (flush_loop_framed _ 0%nat w0 [] E)|].
  destruct (flush_loop _ 0%nat w0 [] E) as (w' & Hrun & _ & _ & _ & Hc).
  by rewrite Hrun.
Qed.

(** Saving on a sleeping mote only extends the queue. *)
Lemma save_all_asleep cs : ∀ w,
  state (mote w) ≠ RXON → pwrdownmode (mote w) = true →
  save_all cs w = on_mote (set_queued_commands (queued_commands (mote w) ++ cs)) w.
Proof.
  induction cs as [|c cs IH]; intros w Hst Hpd.
  { by rewrite app_nil_r, on_mote_set_queue_id. }
  change (save_all (c :: cs) w) with (save_all cs (save_command c.1 c.2 w).2).
  rewrite save_command_asleep by done. cbn [snd].
  rewrite IH by done. unfold on_mote, set_mote, queue_append. simpl.
  by rewrite <-app_assoc, <-surjective_pairing.
Qed.

(** ** [save_command] *)

(** C1: on a mote that is not in state RXON and whose device has the
    power-down mode, [save_command] appends the command to the tail of the
    queue and returns [None]; the queue grows by exactly one entry and the
    delegate is not called. *)
Theorem save_command_queues regid value w :
  state (mote w) ≠ RXON → pwrdownmode (mote w) = true →
  save_command regid value w = (Return None, on_mote (queue_append regid value) w) ∧
  queued_commands (mote (save_command regid value w).2)
    = queued_commands (mote w) ++ [(regid, value)] ∧
  nbof_saved_commands (mote (save_command regid value w).2)
    = S (nbof_saved_commands (mote w)) ∧
  srv (save_command regid value w).2 = srv w.
Proof.
  intros Hst Hpd. rewrite save_command_asleep by done. simpl. split_and!; try done.
  unfold nbof_saved_commands. simpl. rewrite length_app. simpl. lia.
Qed.

(** C2: on a mote in state RXON, or of a device without the power-down
    mode, [save_command] is the confirmed command: its outcome is the
    delegate's acknowledgement, and the world is the one the delegate
    leaves. *)
Theorem save_command_immediate regid value w :
  state (mote w) = RXON ∨ pwrdownmode (mote w) = false →
  save_command regid value w = (Some <$> setMoteRegister regid value) w.
Proof.
  intros Hc. rewrite save_command_run.
  destruct Hc as [-> | ->]; [by rewrite bool_decide_eq_true_2 | by rewrite orb_true_r].
Qed.

(** ** [update_state] *)

(** C3: when the reported state is RXON or SYNC and the delegate transmits
    reliably without writing to the mote, [update_state] records the
    state, transmits the queued commands as command packets in the order
    they were queued, and leaves the queue empty; it returns normally and
    changes nothing else. *)
Theorem update_state_flush `{!ServerSends D} `{!ServerFramed D} st w :
  st = RXON ∨ st = SYNC →
  (update_state st w).1 = Return tt ∧
  mote (update_state st w).2 = set_queued_commands [] (set_state st (mote w)) ∧
  wire (srv (update_state st w).2)
    = wire (srv w) ++ map (command_packet (mote w)) (queued_commands (mote w)) ∧
  clock (update_state st w).2 = clock w.
Proof.
  intros Hst. destruct (update_state_mote st w) as [Hm Hc].
  destruct (update_state_receiving st w Hst) as (w' & Hrun & _ & Hw & _).
  by rewrite Hm, Hc, Hrun, receiving_guard.
Qed.

(** C4: when the delegate's [send] triggers call-backs that enqueue
    further commands, the pass of [update_state] still transmits exactly
    the commands that were queued when it started, in order: commands
    enqueued during the flush are not transmitted in that pass, the pass
    returns normally, and no attribute of the mote but the queue and the
    state is touched.  (What was enqueued is still queued afterwards:
    example [resubmitted_stay_queued].) *)
Theorem update_state_reentrant `{!ServerSends D} `{!SendEnqueues D} st w :
  st = RXON ∨ st = SYNC →
  (update_state st w).1 = Return tt ∧
  same_but_queue (set_state st (mote w)) (mote (update_state st w).2) ∧
  wire (srv (update_state st w).2)
    = wire (srv w) ++ map (command_packet (mote w)) (queued_commands (mote w)).
Proof.
  intros Hst. destruct (update_state_receiving st w Hst) as (w' & -> & Hs & Hw & _). done.
Qed.

(** C5: when the reported state is neither RXON nor SYNC, and also when
    the queue is empty, [update_state] records the state and nothing else
    happens: it returns, the queue and the other attributes are as they
    were, and the delegate is not called, whatever the delegate is. *)
Theorem update_state_idle st w :
  (st ≠ RXON ∧ st ≠ SYNC) ∨ queued_commands (mote w) = [] →
  update_state st w = (Return tt, on_mote (set_state st) w).
Proof.
  intros [[H1 H2] | E]; rewrite update_state_run.
  - by rewrite !bool_decide_eq_false_2.
  - rewrite E. by destruct (_ || _).
Qed.

(** C37: the typed wrappers queue fixed-width values: on a sleeping mote
    [save_address_command] queues, at the tail, a one-byte value for the
    device-address register and [save_txinterval_command] a two-byte value
    for the tx-interval register; every byte is in [0, 256) and the value
    decodes to the argument modulo 256, respectively 65536: arguments that
    do not fit are truncated, not rejected. *)
Theorem saved_values_fixed_width addr interval w :
  state (mote w) ≠ RXON → pwrdownmode (mote w) = true →
  ∃ va vi,
    last (queued_commands (mote (save_address_command addr w).2))
      = Some (ID_DEVICE_ADDR, va) ∧
    length (sv_data va) = 1%nat ∧ Forall (λ b, 0 ≤ b < 256) (sv_data va) ∧
    toInteger va = addr mod 256 ∧
    last (queued_commands (mote (save_txinterval_command interval w).2))
      = Some (ID_TX_INTERVAL, vi) ∧
    length (sv_data vi) = 2%nat ∧ Forall (λ b, 0 ≤ b < 256) (sv_data vi) ∧
    toInteger vi = interval mod 65536.
Proof.
  intros Hst Hpd. exists (SwapValue_new addr 1), (SwapValue_new interval 2).
  unfold save_address_command, save_txinterval_command.
  rewrite !save_command_asleep by done. simpl.
  rewrite !last_snoc, !toInteger_SwapValue_new.
  split_and!; try done;
    first [exact (be_bytes_range 1 addr) | exact (be_bytes_range 2 interval)].
Qed.

(** Deferred delivery.  Commands saved one after the other on a
    sleeping mote of a power-down device are not transmitted while it
    sleeps; when the mote then reports RXON or SYNC, the wire carries the
    commands that were already queued followed by the saved ones, each
    once and in the order of saving, and the queue is empty: nothing is
    lost, duplicated or reordered between the save and the wake-up. *)
Lemma deferred_delivery `{!ServerSends D} `{!ServerFramed D} cs st w :
  state (mote w) ≠ RXON → pwrdownmode (mote w) = true → st = RXON ∨ st = SYNC →
  srv (save_all cs w) = srv w ∧
  wire (srv (update_state st (save_all cs w)).2)
    = wire (srv w) ++ map (command_packet (mote w)) (queued_commands (mote w) ++ cs) ∧
  mote (update_state st (save_all cs w)).2 = set_queued_commands [] (set_state st (mote w)).
Proof.
  intros Hs Hpd Hst. rewrite (save_all_asleep cs w Hs Hpd).
  set (w1 := on_mote _ w).
  destruct (update_state_mote st w1) as [Hm _].
  destruct (update_state_receiving st w1 Hst) as (w' & Hrun & _ & Hw & _).
  by rewrite Hm, Hrun, receiving_guard.
Qed.

(** ** The queue's own operations *)

(** C7: [get_saved_command] on an empty queue raises [IndexError] and
    leaves the world as it was. *)
Theorem get_saved_command_empty w :
  queued_commands (mote w) = [] →
  get_saved_command w = (Raise IndexError, w).
Proof. apply get_saved_command_nil. Qed.

(** C8: a command saved on a sleeping mote comes back from
    [get_saved_command] after all the commands saved before it: the call
    returns the oldest entry of the queue extended by the new command and
    removes it from the queue. *)
Theorem save_then_get regid value w c q :
  state (mote w) ≠ RXON → pwrdownmode (mote w) = true →
  queued_commands (mote w) ++ [(regid, value)] = c :: q →
  (save_command regid value ≫= λ _, get_saved_command) w
  = (Return c, on_mote (set_queued_commands q) w).
Proof.
  intros Hst Hpd E.
  rewrite (bind_Return _ _ _ _ _ (save_command_asleep regid value w Hst Hpd)).
  rewrite (get_saved_command_cons _ c q) by done.
  reflexivity.
Qed.

End queue.

(** ** A failing link *)

(** A pass over a link that fails after [k] more packets: the first [k]
    commands are transmitted, the next one is taken from the queue and
    lost, the rest stay queued. *)
Lemma flush_loop_faulty q : ∀ i (w : World Faulty) k,
  queued_commands (mote w) = q → f_budget (srv w) = k → (k < length q)%nat →
  for_range_from i (length q) flush_one w
  = (Raise (ExternalError "link down"),
     mkWorld (set_queued_commands (drop (S k) q) (mote w))
             (mkFaulty (f_wire (srv w) ++ map (command_packet (mote w)) (take k q)) 0)
             (clock w)).
Proof.
  induction q as [|[regid value] q IH]; intros i w k E Hk Hlt; [simpl in Hlt; lia|].
  cbn [length]. rewrite for_range_from_S, bind_unfold. unfold flush_one.
  rewrite (bind_Return _ _ _ _ _ (get_saved_command_cons w _ q E)).
  rewrite bind_unfold, cmdRegister_run. unfold fmap, M_fmap, send; simpl.
  unfold Faulty_send; simpl. rewrite Hk. destruct k as [|k]; simpl.
  - destruct w as [m [fw b]]; simpl in *. subst b. by rewrite app_nil_r.
  - rewrite (IH _ _ k); [|done..|simpl in Hlt; lia].
    simpl. by rewrite <-app_assoc.
Qed.

(** C9: when the link fails in the middle of a flush, [update_state] ends
    with the delegate's exception; the commands before the failure were
    transmitted, the command in flight is neither transmitted nor queued
    any more, and the commands behind it are still queued, while the mote
    already shows the new state. *)
Theorem update_state_link_failure st (w : World Faulty) :
  st = RXON ∨ st = SYNC →
  (f_budget (srv w) < length (queued_commands (mote w)))%nat →
  update_state st w
  = (Raise (ExternalError "link down"),
     mkWorld (set_queued_commands (drop (S (f_budget (srv w))) (queued_commands (mote w)))
                                  (set_state st (mote w)))
             (mkFaulty (f_wire (srv w)
                          ++ map (command_packet (mote w))
                                 (take (f_budget (srv w)) (queued_commands (mote w)))) 0)
             (clock w)).
Proof.
  intros Hst Hlt. rewrite update_state_run, receiving_guard by done. unfold for_range.
  by rewrite (flush_loop_faulty (queued_commands (mote w)) _ _ (f_budget (srv w))).
Qed.

(** ** Witnesses *)

Lemma save_command_queues_witness :
  save_command ID_DEVICE_ADDR (SwapValue_new 6 1) sample_world
  = (Return None, on_mote (queue_append ID_DEVICE_ADDR (SwapValue_new 6 1)) sample_world).
Proof.
  apply (save_command_queues ID_DEVICE_ADDR (SwapValue_new 6 1) sample_world);
    [by vm_compute | reflexivity].
Defined.

Lemma save_command_immediate_witness :
  save_command ID_DEVICE_ADDR (SwapValue_new 6 1) awake_world
  = (Some <$> setMoteRegister ID_DEVICE_ADDR (SwapValue_new 6 1)) awake_world.
Proof.
  apply (save_command_immediate ID_DEVICE_ADDR (SwapValue_new 6 1) awake_world).
  left. reflexivity.
Defined.

Lemma update_state_flush_witness :
  wire (srv (update_state RXON loaded_world).2)
  = [ SwapCommandPacket 5 ID_DEVICE_ADDR (SwapValue_new 6 1) 7 false;
      SwapCommandPacket 5 ID_TX_INTERVAL (SwapValue_new 60 2) 7 false;
      SwapCommandPacket 5 ID_SECU_OPTION (SwapValue_new 1 1) 7 false ].
Proof.
  exact (proj1 (proj2 (proj2 (update_state_flush RXON loaded_world (or_introl eq_refl))))).
Defined.

Lemma update_state_reentrant_witness :
  wire (srv (update_state SYNC resubmit_world).2)
  = map (command_packet sample_loaded) sample_queue.
Proof.
  exact (proj2 (proj2 (update_state_reentrant SYNC resubmit_world (or_intror eq_refl)))).
Defined.

Lemma update_state_idle_witness :
  update_state RXOFF loaded_world = (Return tt, on_mote (set_state RXOFF) loaded_world) ∧
  update_state RXON sample_world = (Return tt, on_mote (set_state RXON) sample_world).
Proof. split; apply update_state_idle; [left; by vm_compute | by right]. Defined.

Lemma saved_values_fixed_width_witness :
  ∃ va vi,
    last (queued_commands (mote (save_address_command 300 sample_world).2))
      = Some (ID_DEVICE_ADDR, va) ∧
    length (sv_data va) = 1%nat ∧ Forall (λ b, 0 ≤ b < 256) (sv_data va) ∧
    toInteger va = 300 mod 256 ∧
    last (queued_commands (mote (save_txinterval_command 70000 sample_world).2))
      = Some (ID_TX_INTERVAL, vi) ∧
    length (sv_data vi) = 2%nat ∧ Forall (λ b, 0 ≤ b < 256) (sv_data vi) ∧
    toInteger vi = 70000 mod 65536.
Proof.
  apply (saved_values_fixed_width 300 70000 sample_world); [by vm_compute | reflexivity].
Defined.

Lemma get_saved_command_empty_witness :
  get_saved_command sample_world = (Raise IndexError, sample_world).
Proof. apply get_saved_command_empty. reflexivity. Defined.

Lemma save_then_get_witness :
  (save_command ID_NETWORK_ID (SwapValue_new 9 2) ≫= λ _, get_saved_command) loaded_world
  = (Return (ID_DEVICE_ADDR, SwapValue_new 6 1),
     on_mote (set_queued_commands
                [ (ID_TX_INTERVAL, SwapValue_new 60 2); (ID_SECU_OPTION, SwapValue_new 1 1);
                  (ID_NETWORK_ID, SwapValue_new 9 2) ]) loaded_world).
Proof. apply save_then_get; [by vm_compute | reflexivity | reflexivity]. Defined.

Lemma update_state_link_failure_witness :
  update_state RXON faulty_world
  = (Raise (ExternalError "link down"),
     mkWorld (set_queued_commands [(ID_SECU_OPTION, SwapValue_new 1 1)]
                                  (set_state RXON sample_loaded))
             (mkFaulty [SwapCommandPacket 5 ID_DEVICE_ADDR (SwapValue_new 6 1) 7 false] 0)
             2000).
Proof.
  apply (update_state_link_failure RXON faulty_world); [by left | vm_compute; lia].
Defined.

(** The follow-ups a call-back enqueues during the flush are what the
    queue holds afterwards. *)
Example resubmitted_stay_queued :
  queued_commands (mote (update_state SYNC resubmit_world).2)
  = [(ID_NETWORK_ID, SwapValue_new 1 2); (ID_FREQ_CHANNEL, SwapValue_new 3 1)].
Proof. reflexivity. Qed.

Example deferred_delivery_sample :
  srv (save_all sample_queue sample_world) = sample_recorder ∧
  wire (srv (update_state SYNC (save_all sample_queue sample_world)).2)
    = [SwapCommandPacket 5 ID_DEVICE_ADDR (SwapValue_new 6 1) 7 false;
       SwapCommandPacket 5 ID_TX_INTERVAL (SwapValue_new 60 2) 7 false;
       SwapCommandPacket 5 ID_SECU_OPTION (SwapValue_new 1 1) 7 false] ∧
  mote (update_state SYNC (save_all sample_queue sample_world)).2
    = set_state SYNC sample_mote.
Proof.
  assert (state (mote sample_world) ≠ RXON) as Hs by done.
  exact (deferred_delivery sample_queue SYNC sample_world Hs eq_refl (or_intror eq_refl)).
Qed.
