(* ===== verification/Bound.v ===== *)
(** * Bound: the flush pass ends, whatever the delegate does

    [update_state] reads the length of the queue once and loops that many
    times.  Nothing is assumed here of what the delegate does to the mote
    while it transmits, only that [send] returns: the pass makes at most
    as many transmissions as commands were queued when it started, and it
    ends, normally or with the [IndexError] of a queue that the delegate
    emptied under it.  [Thief] is such a delegate. *)

From S2P Require Import Prelude PyBase SwapDefs MoteData Server MoteOps MoteSpec Samples.

Local Open Scope Z_scope.

(** ** A delegate that consumes the queue

    Its delivery call-back takes the next queued command for itself, the
    way a call to [get_saved_command] from the call-back would. *)
Record Thief : Type := mkThief { th_wire : list SwapPacket }.

Definition Thief_send (p : SwapPacket) : M (World Thief) unit :=
  modify (λ w, mkWorld (set_queued_commands (tail (queued_commands (mote w))) (mote w))
                       (mkThief (th_wire (srv w) ++ [p]))
                       (clock w)).

#[export] Instance Thief_server : SwapServer Thief := {
  send := Thief_send;
  setMoteRegister := λ _ _, mret false;
  queryMoteRegister := λ _, mret None;
  wire := th_wire;
}.

Definition thief_world : World Thief := mkWorld sample_loaded (mkThief []) 2000.

#[export] Instance Thief_sends : ServerSends Thief.
Proof. by split. Qed.

Section bound.
Context `{SwapServer D} `{!ServerSends D}.
Implicit Types (w : World D).

(** One turn of the loop: [IndexError] and no transmission on an empty
    queue, one transmission otherwise. *)
Lemma flush_one_turn i w :
  flush_one i w = (Raise IndexError, w) ∨
  ∃ p, (flush_one i w).1 = Return tt ∧
       wire (srv (flush_one i w).2) = wire (srv w) ++ [p].
Proof.
  destruct (queued_commands (mote w)) as [|c q] eqn:E.
  - left. unfold flush_one.
    by rewrite (bind_Raise _ _ _ _ _ (get_saved_command_nil w E)).
  - right. exists (command_packet (mote w) c).
    rewrite (flush_one_cons i w c q E). simpl. by rewrite send_wire.
Qed.

(** [n] turns: at most [n] transmissions; all [n] of them exactly when the
    loop returns. *)
Lemma flush_turns n : ∀ i w,
  ∃ sent, wire (srv (for_range_from i n flush_one w).2) = wire (srv w) ++ sent ∧
    ((for_range_from i n flush_one w).1 = Return tt ∧ length sent = n ∨
     (for_range_from i n flush_one w).1 = Raise IndexError ∧ (length sent < n)%nat).
Proof.
  induction n as [|n IH]; intros i w.
  { exists []. rewrite app_nil_r. auto. }
  rewrite for_range_from_S, bind_unfold.
  destruct (flush_one_turn i w) as [-> | (p & Hr & Hw)].
  { exists []. rewrite app_nil_r. simpl. split; [done|]. right. split; [done | lia]. }
  destruct (flush_one i w) as [[[]|e] w1]; simpl in Hr, Hw; [|done].
  destruct (IH (S i) w1) as (sent & Hw' & Hend).
  exists (p :: sent). rewrite Hw', Hw, <-app_assoc. split; [done|].
  simpl. destruct Hend as [[? ?] | [? ?]]; [left | right]; split; auto; lia.
Qed.

(** C30: for every delegate whose [send] returns, whatever it does to the
    mote and to the queue meanwhile, [update_state] ends after at most as
    many transmissions as commands were queued when it was called: either
    it returns, or it raises the [IndexError] of a queue that was emptied
    under it, having made fewer transmissions. *)
Theorem update_state_ends st w :
  ∃ sent, (length sent ≤ nbof_saved_commands (mote w))%nat ∧
    wire (srv (update_state st w).2) = wire (srv w) ++ sent ∧
    ((update_state st w).1 = Return tt ∨
     (update_state st w).1 = Raise IndexError ∧
     (length sent < nbof_saved_commands (mote w))%nat).
Proof.
  rewrite update_state_run. unfold nbof_saved_commands, for_range.
  destruct (_ || _).
  - destruct (flush_turns (length (queued_commands (mote w))) 0%nat
                (on_mote (set_state st) w)) as (sent & Hw & Hend).
    exists sent. split_and!; [|done|]; destruct Hend as [[? ?] | [? ?]]; auto; lia.
  - exists []. rewrite app_nil_r. split_and!; [simpl; lia | done | by left].
Qed.

End bound.

(** ** Witness *)

Lemma update_state_ends_witness :
  ∃ sent, (length sent ≤ 3)%nat ∧
    th_wire (srv (update_state RXON thief_world).2) = [] ++ sent ∧
    ((update_state RXON thief_world).1 = Return tt ∨
     (update_state RXON thief_world).1 = Raise IndexError ∧ (length sent < 3)%nat).
Proof. exact (update_state_ends RXON thief_world). Defined.

(** Against the delegate that consumes the queue the pass over three
    commands transmits the first and the third, loses the second, and ends
    with [IndexError]. *)
Example thief_steals :
  update_state RXON thief_world
  = (Raise IndexError,
     mkWorld (set_state RXON sample_mote)
             (mkThief [SwapCommandPacket 5 ID_DEVICE_ADDR (SwapValue_new 6 1) 7 false;
                       SwapCommandPacket 5 ID_SECU_OPTION (SwapValue_new 1 1) 7 false])
             2000).
Proof. reflexivity. Qed.
