(* ===== verification/Setters.v ===== *)
(** * Setters: the confirmed setters and the attributes they mirror

    [setAddress], [setSecurity] and [setTxInterval] assign the mirrored
    attribute exactly when the confirmed exchange returns [True];
    [setNetworkId], [setFreqChannel], [restart] and [leaveSync] mirror
    nothing; [setFreqChannel] drops the acknowledgement. *)

From S2P Require Import Prelude PyBase SwapDefs MoteData Server MoteOps MoteSpec Samples.

Local Open Scope Z_scope.

(** The acknowledged outcome. *)
Definition acked (o : outcome bool) : bool := bool_decide (o = Return true).

Section setters.
Context `{SwapServer D}.
Implicit Types (w : World D) (m : SwapMote).

(** ** What [mirror] does to the mote *)

Lemma mirror_outcome f (r : outcome bool * World D) : (mirror f r).1 = r.1.
Proof. by destruct r as [[[]|] ?]. Qed.

Lemma mirror_mote f (r : outcome bool * World D) :
  mote (mirror f r).2 = if acked r.1 then f (mote r.2) else mote r.2.
Proof. by destruct r as [[[]|] ?]. Qed.

Lemma mirror_rest f (r : outcome bool * World D) :
  srv (mirror f r).2 = srv r.2 ∧ clock (mirror f r).2 = clock r.2.
Proof. by destruct r as [[[]|] ?]. Qed.

(** A mirrored setter under a delegate that never writes to the mote. *)
Lemma mirror_framed `{!ServerFramed D} f regId value w :
  let r := mirror f (setMoteRegister regId value w) in
  r.1 = (setMoteRegister regId value w).1 ∧
  mote r.2 = if acked r.1 then f (mote w) else mote w.
Proof.
  simpl. rewrite mirror_outcome, mirror_mote.
  by destruct (setMoteRegister_frames regId value w) as [-> _].
Qed.

Lemma mirror_framed_abs `{!ServerFramed D} f regId value w :
  let r := mirror f (setMoteRegister regId value w) in
  mote r.2 = (if acked r.1 then f (mote w) else mote w) ∧ clock r.2 = clock w.
Proof.
  simpl. destruct (mirror_rest f (setMoteRegister regId value w)) as [_ ->].
  split; [apply mirror_framed | apply setMoteRegister_frames].
Qed.

(** ** The mirrored attributes *)

(** C10: [setAddress] returns the acknowledgement of the confirmed command
    on the device-address register, and the mote afterwards is the mote
    before with [address] assigned if the command was acknowledged, and
    the mote before, unchanged, if it was refused or raised. *)
Theorem setAddress_mirrors `{!ServerFramed D} addr w :
  (setAddress addr w).1 = (setMoteRegister ID_DEVICE_ADDR (SwapValue_new addr 1) w).1 ∧
  mote (setAddress addr w).2
    = if acked (setAddress addr w).1 then set_address addr (mote w) else mote w.
Proof. rewrite setAddress_run. apply mirror_framed. Qed.

(** C11: [setSecurity] returns the acknowledgement of the confirmed
    command on the security-option register, sent as a one-byte value,
    and assigns [security] if and only if it was acknowledged;
    [setTxInterval] returns the acknowledgement of the confirmed command
    on the tx-interval register, sent as a two-byte value, and assigns
    [txinterval] if and only if it was acknowledged. *)
Theorem setSecurity_setTxInterval_mirror `{!ServerFramed D} secu interval w :
  ((setSecurity secu w).1 = (setMoteRegister ID_SECU_OPTION (SwapValue_new secu 1) w).1 ∧
   mote (setSecurity secu w).2
     = if acked (setSecurity secu w).1 then set_security secu (mote w) else mote w) ∧
  ((setTxInterval interval w).1
     = (setMoteRegister ID_TX_INTERVAL (SwapValue_new interval 2) w).1 ∧
   mote (setTxInterval interval w).2
     = if acked (setTxInterval interval w).1 then set_txinterval interval (mote w)
       else mote w).
Proof. rewrite setSecurity_run, setTxInterval_run. split; apply mirror_framed. Qed.

(** ** The setters that mirror nothing *)

(** [setFreqChannel] does not propagate the result of its confirmed
    command: whatever the acknowledgement, it returns [None], in the world
    the delegate leaves. *)
Lemma setFreqChannel_drops_ack channel w b w' :
  setMoteRegister ID_FREQ_CHANNEL (SwapValue_new channel 1) w = (Return b, w') →
  setFreqChannel channel w = (Return tt, w').
Proof. intros E. rewrite setFreqChannel_run. unfold fmap, M_fmap. by rewrite E. Qed.

(** C14: [setNetworkId], [setFreqChannel], [restart] and [leaveSync] leave
    every attribute of the mote as it was under a delegate that does not
    write to the mote, whatever the acknowledgement: the network
    identifier and the channel are not tracked, and [restart] and
    [leaveSync] do not change the recorded state.  [setFreqChannel],
    unlike its siblings, does not return the acknowledgement: whether the
    command was confirmed or refused, it returns [None]. *)
Theorem transient_setters_keep_mote `{!ServerFramed D} z w :
  mote (setNetworkId z w).2 = mote w ∧
  mote (setFreqChannel z w).2 = mote w ∧
  mote (restart w).2 = mote w ∧
  mote (leaveSync w).2 = mote w ∧
  (setNetworkId z w).1 = (setMoteRegister ID_NETWORK_ID (SwapValue_new z 2) w).1 ∧
  (∀ b, (setMoteRegister ID_FREQ_CHANNEL (SwapValue_new z 1) w).1 = Return b →
        (setFreqChannel z w).1 = Return tt).
Proof.
  split_and!; try apply setMoteRegister_frames; [|done|].
  - rewrite setFreqChannel_run. apply (frames_fmap (λ _, tt)), setMoteRegister_frames.
  - intros b E. destruct (setMoteRegister _ _ w) as [o w'] eqn:Hw. simpl in E. subst o.
    by rewrite (setFreqChannel_drops_ack z w b w').
Qed.

End setters.

(** ** Witnesses *)

Lemma setAddress_mirrors_witness :
  (setAddress 9 sample_world).1 = Return true ∧
  mote (setAddress 9 sample_world).2 = set_address 9 sample_mote.
Proof. exact (setAddress_mirrors 9 sample_world). Defined.

Lemma setSecurity_setTxInterval_mirror_witness :
  ((setSecurity 2 sample_world).1 = Return true ∧
   mote (setSecurity 2 sample_world).2 = set_security 2 sample_mote) ∧
  ((setTxInterval 300 sample_world).1 = Return true ∧
   mote (setTxInterval 300 sample_world).2 = set_txinterval 300 sample_mote).
Proof. exact (setSecurity_setTxInterval_mirror 2 300 sample_world). Defined.

Lemma transient_setters_keep_mote_witness :
  mote (setNetworkId 4660 sample_world).2 = sample_mote ∧
  mote (setFreqChannel 4660 sample_world).2 = sample_mote ∧
  mote (restart sample_world).2 = sample_mote ∧
  mote (leaveSync sample_world).2 = sample_mote ∧
  (setNetworkId 4660 sample_world).1 = Return true ∧
  (setFreqChannel 4660 sample_world).1 = Return tt.
Proof.
  destruct (transient_setters_keep_mote 4660 sample_world) as (? & ? & ? & ? & ? & Hf).
  split_and!; [done.. | exact (Hf true eq_refl)].
Defined.

(** A refused command leaves the address alone: the second exchange of
    the sample delegate is refused. *)
Example setAddress_refused :
  ((setAddress 9 ≫= λ _, setAddress 10) sample_world).1 = Return false ∧
  address (mote ((setAddress 9 ≫= λ _, setAddress 10) sample_world).2) = 9.
Proof. by vm_compute. Qed.

(** The address is sent in one byte and mirrored in full: an address that
    does not fit a byte leaves the mirror and the wire in disagreement. *)
Example setAddress_wide :
  rec_wire (srv (setAddress 300 sample_world).2)
    = [SwapCommandPacket 5 ID_DEVICE_ADDR (mkSwapValue [44]) 7 false] ∧
  address (mote (setAddress 300 sample_world).2) = 300.
Proof. by vm_compute. Qed.
