(* ===== verification/Lookup.v ===== *)
(** * Lookup: registers and parameters by identifier and by name

    [getRegister] and [getParameter] against their reference definitions
    (a search through the regular registers followed by the configuration
    registers), their behaviour on absent lists, and [staRegister], which
    reports the value of a register it looks up. *)

From S2P Require Import Prelude PyBase SwapDefs MoteData Server MoteOps MoteSpec Samples.

Local Open Scope Z_scope.

(** The test of [getParameter]'s inner loop. *)
Definition named (name : string) (param : SwapParam) : bool :=
  String.eqb (param_name param) name.

Section lookup.
Implicit Types (m : SwapMote) (reg : SwapRegister).

(** ** Lists that are present *)

Lemma has_registers_inv m :
  has_registers m →
  ∃ regs cregs, regular_registers m = Some regs ∧ config_registers m = Some cregs ∧
                all_registers m = regs ++ cregs.
Proof.
  intros [[regs E1] [cregs E2]]. exists regs, cregs. unfold all_registers.
  by rewrite E1, E2.
Qed.

(** C15: on a mote with both register lists the lookups never raise.
    [getRegister] is a linear search for the first register with the
    identifier through the regular registers followed by the
    configuration registers; [getParameter] returns the first parameter
    with the name in the parameters of the regular registers followed by
    those of the configuration registers, taken in register order. *)
Theorem lookups_reference regId name m :
  has_registers m →
  getRegister regId m = Return (find_register regId (all_registers m)) ∧
  getParameter name m = Return (find (named name) (all_parameters (all_registers m))).
Proof.
  intros (regs & cregs & E1 & E2 & ->)%has_registers_inv.
  split; [by apply getRegister_find|].
  unfold getParameter, named. rewrite E1, E2. simpl.
  rewrite !find_parameter_flat_map. unfold all_parameters.
  rewrite flat_map_app, find_app.
  by destruct (find _ (flat_map _ regs)).
Qed.

(** A register found among the regular registers is the answer of
    [getRegister], whatever the configuration registers hold: a duplicate
    identifier in the configuration list is shadowed, and an absent
    configuration list is not even looked at. *)
Lemma getRegister_prefers_regular regId m regs reg :
  regular_registers m = Some regs →
  find_register regId regs = Some reg →
  getRegister regId m = Return (Some reg).
Proof. intros E1 E2. unfold getRegister. by rewrite E1; simpl; rewrite E2. Qed.

(** C17: a register returned by [getRegister] has the identifier asked for
    and is one of the mote's registers; [None] is returned exactly when no
    register of either list has the identifier. *)
Theorem getRegister_sound_complete regId m :
  has_registers m →
  (∀ reg, getRegister regId m = Return (Some reg) →
          reg ∈ all_registers m ∧ reg_id reg = regId) ∧
  (getRegister regId m = Return None ↔
   ∀ reg, reg ∈ all_registers m → reg_id reg ≠ regId).
Proof.
  intros (regs & cregs & E1 & E2 & ->)%has_registers_inv.
  rewrite (getRegister_find regId m regs cregs E1 E2). split.
  - intros reg [= E]. by apply find_register_Some.
  - rewrite <-find_register_None. split; [by intros [= ->] | by intros ->].
Qed.

(** C19: when the device definition supplied no list of regular registers
    the look-ups raise [TypeError] instead of returning [None]; so does a
    look-up that misses in the regular registers when the list of
    configuration registers is absent. *)
Theorem lookup_without_lists regId name m :
  (regular_registers m = None →
   getRegister regId m = Raise TypeError ∧ getParameter name m = Raise TypeError) ∧
  (∀ regs, regular_registers m = Some regs → config_registers m = None →
           find_register regId regs = None →
           getRegister regId m = Raise TypeError).
Proof.
  split.
  - intros E. unfold getRegister, getParameter. by rewrite E.
  - intros regs E1 E2 E3. unfold getRegister. by rewrite E1, E2; simpl; rewrite E3.
Qed.

End lookup.

Section status.
Context `{SwapServer D}.
Implicit Types (w : World D).

(** C21: [staRegister] for a register the mote has sends one status packet
    with the mote's address, the identifier, the register's current value
    and the mote's addressing mode, and nothing else happens; for an
    identifier that no register of the mote has it raises
    [AttributeError] and transmits nothing; when the lookup itself raises,
    for want of a register list, so does [staRegister], and the world is
    unchanged. *)
Theorem staRegister_cases regId w :
  staRegister regId w
  = match getRegister regId (mote w) with
    | Return (Some reg) =>
        send (SwapStatusPacket (address (mote w)) regId (reg_value reg)
                               (extended_addr (mote w))) w
    | Return None => (Raise AttributeError, w)
    | Raise e => (Raise e, w)
    end.
Proof.
  unfold staRegister. rewrite bind_unfold. simpl.
  by destruct (getRegister regId (mote w)) as [[reg|]|e].
Qed.

End status.

(** ** Witnesses *)

Lemma lookups_reference_witness :
  getRegister 20 sample_mote
  = Return (Some (mkSwapRegister 20 (SwapValue_new 5 1)
                                 [mkSwapParam "period" (SwapValue_new 5 1)])) ∧
  getParameter "voltage" sample_mote = Return (Some (mkSwapParam "voltage" (SwapValue_new 44 1))).
Proof. apply (lookups_reference 20 "voltage" sample_mote). by vm_compute; eauto. Defined.

Example getRegister_prefers_regular_sample :
  getRegister 11 sample_mote
  = Return (Some (mkSwapRegister 11 (SwapValue_new 21 1)
                                 [mkSwapParam "temperature" (SwapValue_new 21 1)])).
Proof. by apply (getRegister_prefers_regular 11 sample_mote sample_regular). Qed.

Lemma getRegister_sound_complete_witness :
  getRegister 99 sample_mote = Return None ↔
  ∀ reg, reg ∈ all_registers sample_mote → reg_id reg ≠ 99.
Proof.
  apply (getRegister_sound_complete 99 sample_mote). by vm_compute; eauto.
Defined.

Lemma lookup_without_lists_witness :
  getRegister 11 bare_mote = Raise TypeError ∧ getParameter "voltage" bare_mote = Raise TypeError.
Proof. exact (proj1 (lookup_without_lists 11 "voltage" bare_mote) eq_refl). Defined.

(** The status of a register the sample mote has, of one it does not have,
    and of any register of a mote without register lists. *)
Lemma staRegister_cases_witness :
  staRegister 12 sample_world
    = send (SwapStatusPacket 5 12 (SwapValue_new 300 2) false) sample_world ∧
  staRegister 99 sample_world = (Raise AttributeError, sample_world) ∧
  staRegister 12 (mkWorld bare_mote sample_recorder 0)
    = (Raise TypeError, mkWorld bare_mote sample_recorder 0).
Proof.
  split_and!;
    [exact (staRegister_cases 12 sample_world) | exact (staRegister_cases 99 sample_world)
    | exact (staRegister_cases 12 (mkWorld bare_mote sample_recorder 0))].
Defined.

(** An unknown name is answered with [None]. *)
Example getParameter_unknown : getParameter "pressure" sample_mote = Return None.
Proof. reflexivity. Qed.
