(* ===== verification/Construct.v ===== *)
(** * Construct: [SwapMote.__init__]

    The constructor: its checks in the order of the source (the delegate,
    the product code, the device definition), the two identifiers it
    parses from the product code, and the attributes of the object it
    returns.  The loader of the device definition, [XmlDevice(self)], is a
    parameter; it is called with the mote as far as it is built at that
    line ([Unloaded]). *)

From S2P Require Import Prelude PyBase PyLong SwapDefs MoteData Server Samples.
From Stdlib Require Import Ascii.

Local Open Scope Z_scope.

(** The two messages of the constructor. *)
Definition no_server : PyExn :=
  SwapException "SwapMote constructor needs a valid SwapServer object".

Definition bad_product_code : PyExn :=
  SwapException "Incorrect product code received".

(** The characters of a [str]. *)
Definition chars (s : string) : list ascii := String.list_ascii_of_string s.

(** The [try] block of the constructor: [long(product_code[0:8], 16)] and
    [long(product_code[8:], 16)], every exception replaced by
    [SwapException].  A product code of [None] cannot be sliced, which is
    one of the exceptions caught. *)
Definition parse_product_code (product_code : option string) : outcome (Z * Z) :=
  match product_code with
  | None => Raise bad_product_code
  | Some code =>
      match py_long16 (py_slice_to 8 (chars code)) with
      | Raise _ => Raise bad_product_code
      | Return manufacturer_id =>
          match py_long16 (py_slice_from 8 (chars code)) with
          | Raise _ => Raise bad_product_code
          | Return product_id => Return (manufacturer_id, product_id)
          end
      end
  end.

(** The default arguments of the constructor. *)
Definition default_address : Z := 255.
Definition default_security : Z := 0.
Definition default_nonce : Z := 0.
Definition default_extended_addr : bool := false.

(** The mote as [XmlDevice(self)] receives it at line 409: the attributes
    assigned so far are the delegate, the product code and the two
    identifiers parsed from it, with an empty queue and [config] set to
    [None]. *)
Record Unloaded (D : Type) : Type := mkUnloaded {
  un_server : D;
  un_product_code : option string;
  un_manufacturer_id : Z;
  un_product_id : Z;
}.
Arguments mkUnloaded {D} _ _ _ _.
Arguments un_server {D} _.
Arguments un_product_code {D} _.
Arguments un_manufacturer_id {D} _.
Arguments un_product_id {D} _.

(** A loader that knows the sample device. *)
Definition sample_loader {D} (u : Unloaded D) : outcome XmlDevice :=
  if bool_decide (un_manufacturer_id u = 1 ∧ un_product_id u = 2) then Return sample_definition
  else Raise (ExternalError "no definition file").

Section construct.
Context {D : Type}.

(** [XmlDevice(self)], called with the mote under construction; it may
    raise. *)
Variable load_definition : Unloaded D → outcome XmlDevice.

(** The object the constructor returns for a product code [code] parsed to
    the two identifiers and a definition [d], at time [now]. *)
Definition new_mote (code : option string) (manufacturer product : Z) (d : XmlDevice)
    (addr secu nonce_ : Z) (ext : bool) (now : Z) : SwapMote :=
  {| queued_commands := []; product_code := code; product_id := product;
     manufacturer_id := manufacturer; config := None; definition := d;
     address := addr; security := secu; nonce := nonce_; state := RXOFF;
     regular_registers := getRegList false d;
     config_registers := getRegList true d; timestamp := now;
     pwrdownmode := def_pwrdownmode d; txinterval := def_txinterval d;
     extended_addr := ext |}.

(** [SwapMote(server, product_code, address, security, nonce,
    extended_addr)] at time [now]: the world with the new mote and its
    delegate, or the exception that aborts the construction. *)
Definition SwapMote_init (server : option D) (product_code : option string)
    (addr secu nonce_ : Z) (ext : bool) (now : Z) : outcome (World D) :=
  match server with
  | None => Raise no_server
  | Some s =>
      match parse_product_code product_code with
      | Raise e => Raise e
      | Return (manufacturer, product) =>
          match load_definition (mkUnloaded s product_code manufacturer product) with
          | Raise e => Raise e
          | Return d =>
              Return (mkWorld (new_mote product_code manufacturer product d
                                        addr secu nonce_ ext now) s now)
          end
      end
  end.

(** ** The product code *)

Lemma parse_product_code_error pc e : parse_product_code pc = Raise e → e = bad_product_code.
Proof. unfold parse_product_code. repeat case_match; congruence. Qed.

Lemma parse_product_code_hex code :
  all_hex (chars code) → (8 < length (chars code))%nat →
  parse_product_code (Some code)
  = Return (hex_value (hex_digits_of (take 8 (chars code))),
            hex_value (hex_digits_of (drop 8 (chars code)))).
Proof.
  intros Hh Hl. unfold parse_product_code, py_slice_to, py_slice_from.
  rewrite !py_long16_hex; [done|..].
  - intros E%(f_equal length). rewrite length_drop in E. cbn [length] in E. lia.
  - by apply Forall_drop.
  - intros E%(f_equal length). rewrite length_take in E. cbn [length] in E. lia.
  - by apply Forall_take.
Qed.

Lemma parse_product_code_short code :
  (length (chars code) ≤ 8)%nat → parse_product_code (Some code) = Raise bad_product_code.
Proof.
  intros Hl. unfold parse_product_code, py_slice_from.
  rewrite drop_ge by done. rewrite py_long16_empty. by case_match.
Qed.

Lemma parse_product_code_bad_char code c :
  c ∈ chars code → long16_char c = false →
  parse_product_code (Some code) = Raise bad_product_code.
Proof.
  intros Hin Hc. unfold parse_product_code, py_slice_to, py_slice_from.
  rewrite <-(take_drop 8 (chars code)), elem_of_app in Hin.
  destruct Hin as [Hin | Hin].
  - by rewrite (py_long16_rejects _ c Hin Hc).
  - rewrite (py_long16_rejects (drop 8 _) c Hin Hc). by case_match.
Qed.

(** ** The constructor *)

(** Without a delegate the constructor raises [SwapException] with the
    message of the missing server, whatever the other arguments are. *)
Lemma init_requires_server product_code addr secu nonce_ ext now :
  SwapMote_init None product_code addr secu nonce_ ext now = Raise no_server.
Proof. reflexivity. Qed.

(** Every exception of the constructor that is not the loader's is a
    [SwapException] with one of its two messages. *)
Lemma init_error_kinds server product_code addr secu nonce_ ext now e :
  SwapMote_init server product_code addr secu nonce_ ext now = Raise e →
  e = no_server ∨ e = bad_product_code ∨
  ∃ s manufacturer product,
    server = Some s ∧ parse_product_code product_code = Return (manufacturer, product) ∧
    load_definition (mkUnloaded s product_code manufacturer product) = Raise e.
Proof.
  unfold SwapMote_init. destruct server as [s|]; [|intros [= <-]; auto].
  destruct (parse_product_code product_code) as [[mf pr]|e'] eqn:Hp.
  - destruct (load_definition _) eqn:Hd; [done|]. intros [= <-]. eauto 10.
  - intros [= <-]. apply parse_product_code_error in Hp. auto.
Qed.

(** C23: the constructor rejects its arguments in the order of its
    checks.  A product code that is [None], that has at most eight
    characters, or that contains a character [long(s, 16)] cannot accept,
    makes it raise [SwapException]: with the message of the missing
    server when there is no delegate, with the message of the incorrect
    product code when there is one; the device definition is not
    loaded.  These two are the only exceptions of its own: any other
    exception of the constructor is one the definition loader raised. *)
Theorem init_rejects_malformed server product_code addr secu nonce_ ext now :
  (product_code = None ∨
   (∃ code, product_code = Some code ∧
            ((length (chars code) ≤ 8)%nat ∨
             ∃ c, c ∈ chars code ∧ long16_char c = false)) →
   SwapMote_init server product_code addr secu nonce_ ext now
   = Raise (match server with Some _ => bad_product_code | None => no_server end)) ∧
  (∀ e, SwapMote_init server product_code addr secu nonce_ ext now = Raise e →
        e = no_server ∨ e = bad_product_code ∨
        ∃ s manufacturer product,
          server = Some s ∧
          parse_product_code product_code = Return (manufacturer, product) ∧
          load_definition (mkUnloaded s product_code manufacturer product) = Raise e).
Proof.
  split; [|apply init_error_kinds].
  destruct server as [s|]; [|intros _; apply init_requires_server].
  intros [-> | (code & -> & [Hl | (c & Hin & Hc)])]; unfold SwapMote_init.
  - done.
  - by rewrite parse_product_code_short.
  - by rewrite (parse_product_code_bad_char code c).
Qed.

(** C24: with a delegate and a product code of more than eight hexadecimal
    digits, the constructor loads the definition of the manufacturer
    identifier that is the value of the first eight digits and of the
    product identifier that is the value of all the remaining ones.  When
    the definition loads, the constructor returns a mote with these
    identifiers, in state RXOFF with an empty queue, stamped with the
    current time, holding the arguments given, with the register lists,
    power-down flag and tx interval of the definition.  When the loader
    raises, the construction is aborted and the exception reaches the
    caller as it is, not as a [SwapException] of the mote. *)
Theorem init_hex s code addr secu nonce_ ext now :
  all_hex (chars code) → (8 < length (chars code))%nat →
  let manufacturer := hex_value (hex_digits_of (take 8 (chars code))) in
  let product := hex_value (hex_digits_of (drop 8 (chars code))) in
  SwapMote_init (Some s) (Some code) addr secu nonce_ ext now
  = match load_definition (mkUnloaded s (Some code) manufacturer product) with
    | Return d => Return (mkWorld (new_mote (Some code) manufacturer product
                                            d addr secu nonce_ ext now) s now)
    | Raise e => Raise e
    end.
Proof.
  intros Hh Hl. unfold SwapMote_init.
  rewrite parse_product_code_hex by done. simpl. by destruct (load_definition _).
Qed.

End construct.

(** C27: for a product code of exactly sixteen hexadecimal digits, both
    identifiers the constructor derives are 32-bit: they lie in
    [0, 2^32). *)
Theorem product_code_ids_bounds code manufacturer product :
  all_hex (chars code) → length (chars code) = 16%nat →
  parse_product_code (Some code) = Return (manufacturer, product) →
  0 ≤ manufacturer < 2 ^ 32 ∧ 0 ≤ product < 2 ^ 32.
Proof.
  intros Hh Hl. rewrite parse_product_code_hex by (done || lia). intros [= <- <-].
  pose proof (hex_value_bound (take 8 (chars code)) (Forall_take _ _ _ Hh)) as H1.
  pose proof (hex_value_bound (drop 8 (chars code)) (Forall_drop _ _ _ Hh)) as H2.
  rewrite length_take, Hl in H1. rewrite length_drop, Hl in H2.
  change (16 ^ Z.of_nat (8 `min` 16)) with (2 ^ 32) in H1.
  change (16 ^ Z.of_nat (16 - 8)) with (2 ^ 32) in H2. done.
Qed.

(** ** Witnesses *)

Lemma init_rejects_malformed_witness :
  SwapMote_init sample_loader (Some sample_recorder) (Some "0000000100000z02") 5 0 7 false 1000
  = Raise bad_product_code.
Proof.
  apply (proj1 (init_rejects_malformed sample_loader (Some sample_recorder)
                                       (Some "0000000100000z02") 5 0 7 false 1000)).
  right. eexists. split; [reflexivity|].
  right. exists "z"%char. split; [|reflexivity]. by apply (bool_decide_unpack _).
Defined.

Lemma init_hex_witness :
  SwapMote_init sample_loader (Some sample_recorder) (Some "0000000100000002") 5 0 7 false 1000
  = Return (mkWorld sample_mote sample_recorder 1000).
Proof.
  apply (init_hex sample_loader sample_recorder "0000000100000002" 5 0 7 false 1000);
    [by apply (bool_decide_unpack _) | simpl; lia].
Defined.

(** A product whose definition file is missing: the loader's exception is
    the constructor's. *)
Example init_definition_error :
  SwapMote_init sample_loader (Some sample_recorder) (Some "0000000100000009") 5 0 7 false 1000
  = Raise (ExternalError "no definition file").
Proof. reflexivity. Qed.

Lemma product_code_ids_bounds_witness : 0 ≤ 1 < 2 ^ 32 ∧ 0 ≤ 2 < 2 ^ 32.
Proof.
  apply (product_code_ids_bounds "0000000100000002" 1 2);
    [by apply (bool_decide_unpack _) | reflexivity | reflexivity].
Defined.

(** [SwapMote(server, product_code)]: the default arguments give a mote at
    the broadcast address 255, without security, with nonce 0 and short
    addresses. *)
Example default_arguments :
  SwapMote_init sample_loader (Some sample_recorder) (Some "0000000100000002")
                default_address default_security default_nonce default_extended_addr 1000
  = Return (mkWorld (new_mote (Some "0000000100000002") 1 2 sample_definition
                              255 0 0 false 1000)
                    sample_recorder 1000).
Proof. reflexivity. Qed.

(** A product code with more than sixteen digits is accepted, and its
    product identifier is not a 32-bit number. *)
Example overlong_product_code :
  parse_product_code (Some "0000000100000002ffffffff") = Return (1, 12884901887).
Proof. reflexivity. Qed.

(** A sign and a prefix are accepted in either field, and so is white
    space around the sign. *)
Example signed_product_code :
  parse_product_code (Some "-00000010x000002") = Return (-1, 2) ∧
  parse_product_code (Some " - 00001+ 0x2L ") = Return (-1, 2).
Proof. split; reflexivity. Qed.
