(* ===== verification/Dumps.v ===== *)
(** * Dumps: the snapshot of a mote

    [dumps(include_units)] builds a dictionary from the mote's attributes
    and from the serialization of each regular register, which
    [SwapRegister.dumps] produces and which is a parameter here.  The
    dictionary is a [gmap] from keys to values. *)

From stdpp Require Import gmap.
From S2P Require Import Prelude PyBase SwapDefs MoteData Samples.

Local Open Scope Z_scope.

(** The values of the dictionary: [R] is what a register serializes to. *)
Inductive PyVal (R : Type) : Type :=
| PyNone
| PyStr (s : string)
| PyInt (z : Z)
| PyList (l : list R).
Arguments PyNone {R}.
Arguments PyStr {R} s.
Arguments PyInt {R} z.
Arguments PyList {R} l.

(** A [str] attribute that may hold [None]. *)
Definition PyStr_opt {R} (s : option string) : PyVal R :=
  match s with
  | Some s => PyStr s
  | None => PyNone
  end.

(** A serialization of registers for the witnesses: identifier, value and,
    when units are asked for, the names of the parameters. *)
Definition sample_reg_dumps (include_units : bool) (reg : SwapRegister)
    : outcome (Z * Z * list string) :=
  Return (reg_id reg, toInteger (reg_value reg),
          if include_units then param_name <$> reg_parameters reg else []).

(** A serialization that fails on one register. *)
Definition failing_reg_dumps (include_units : bool) (reg : SwapRegister)
    : outcome (Z * Z * list string) :=
  if bool_decide (reg_id reg = 12) then Raise (SwapException "no endpoint")
  else sample_reg_dumps include_units reg.

Section dumps.
Context {R : Type}.

(** [reg.dumps(include_units)] *)
Variable reg_dumps : bool → SwapRegister → outcome R.

(** [for reg in regs: out.append(reg.dumps(include_units))]: an exception
    of a register ends the loop. *)
Fixpoint dump_registers (include_units : bool) (regs : list SwapRegister)
    : outcome (list R) :=
  match regs with
  | [] => Return []
  | reg :: rest =>
      match reg_dumps include_units reg with
      | Raise e => Raise e
      | Return r =>
          match dump_registers include_units rest with
          | Raise e => Raise e
          | Return rs => Return (r :: rs)
          end
      end
  end.

(** The dictionary [dumps] fills, key by key. *)
Definition dumps_data (m : SwapMote) (regs : list R) : gmap string (PyVal R) :=
  <["registers" := PyList regs]>
  (<["txinterval" := PyInt (txinterval m)]>
  (<["address" := PyInt (address m)]>
  (<["name" := PyStr (def_product (definition m))]>
  (<["manufacturer" := PyStr (def_manufacturer (definition m))]>
  (<["pcode" := PyStr_opt (product_code m)]> ∅))))).

(** [dumps(include_units)] *)
Definition dumps (include_units : bool) (m : SwapMote) : outcome (gmap string (PyVal R)) :=
  let regs :=
    match regular_registers m with
    | Some rl => dump_registers include_units rl
    | None => Return []
    end in
  match regs with
  | Raise e => Raise e
  | Return rs => Return (dumps_data m rs)
  end.

(** ** The registers *)

Lemma dump_registers_Return include_units regs rs :
  dump_registers include_units regs = Return rs ↔
  Forall2 (λ reg r, reg_dumps include_units reg = Return r) regs rs.
Proof.
  revert rs. induction regs as [|reg regs IH]; intros rs; simpl.
  - split; [intros [= <-]; constructor | by intros ->%Forall2_nil_inv_l].
  - destruct (reg_dumps include_units reg) as [r|e] eqn:E.
    + destruct (dump_registers include_units regs) as [rs'|e'].
      * split; [intros [= <-]; constructor; [done | by apply IH]|].
        intros (r' & rs'' & Hr & Hrs & ->)%Forall2_cons_inv_l.
        apply IH in Hrs. congruence.
      * split; [done|]. intros (r' & rs'' & _ & Hrs & ->)%Forall2_cons_inv_l.
        by apply IH in Hrs.
    + split; [done|]. intros (r' & rs'' & Hr & _)%Forall2_cons_inv_l. congruence.
Qed.

Lemma dump_registers_Raise include_units regs1 reg regs2 rs e :
  dump_registers include_units regs1 = Return rs →
  reg_dumps include_units reg = Raise e →
  dump_registers include_units (regs1 ++ reg :: regs2) = Raise e.
Proof.
  revert rs. induction regs1 as [|r0 regs1 IH]; intros rs; simpl.
  - intros _ ->. done.
  - destruct (reg_dumps include_units r0); [|done].
    destruct (dump_registers include_units regs1) eqn:E; [|done].
    intros _ Hr. by rewrite (IH _ eq_refl Hr).
Qed.

(** ** The dictionary *)

Lemma dumps_data_lookup m rs :
  dumps_data m rs !! "pcode" = Some (PyStr_opt (product_code m)) ∧
  dumps_data m rs !! "manufacturer" = Some (PyStr (def_manufacturer (definition m))) ∧
  dumps_data m rs !! "name" = Some (PyStr (def_product (definition m))) ∧
  dumps_data m rs !! "address" = Some (PyInt (address m)) ∧
  dumps_data m rs !! "txinterval" = Some (PyInt (txinterval m)) ∧
  dumps_data m rs !! "registers" = Some (PyList rs).
Proof. unfold dumps_data. split_and!; by simplify_map_eq. Qed.

Lemma dumps_data_dom m rs :
  dom (dumps_data m rs)
  = list_to_set ["pcode"; "manufacturer"; "name"; "address"; "txinterval"; "registers"].
Proof. unfold dumps_data. rewrite !dom_insert_L, dom_empty_L. set_solver. Qed.

(** C28: when every regular register serializes, [dumps] returns a
    dictionary with exactly the keys pcode, manufacturer, name, address,
    txinterval and registers; address and txinterval are the mote's, and
    registers is the list of the serializations of the regular registers,
    in their order; the configuration registers are not part of it.  A
    mote without a list of regular registers is serialized with an empty
    list: [dumps] is the one method that checks for the absent list.
    When a regular register fails to serialize and the registers before
    it do not, [dumps] raises the exception of that register and returns
    no dictionary. *)
Theorem dumps_schema include_units m :
  (∀ rs, Forall2 (λ reg r, reg_dumps include_units reg = Return r)
                 (default [] (regular_registers m)) rs →
         ∃ data, dumps include_units m = Return data ∧
           dom data = list_to_set ["pcode"; "manufacturer"; "name"; "address"; "txinterval";
                                   "registers"] ∧
           data !! "address" = Some (PyInt (address m)) ∧
           data !! "txinterval" = Some (PyInt (txinterval m)) ∧
           data !! "registers" = Some (PyList rs) ∧
           length rs = length (default [] (regular_registers m))) ∧
  (∀ regs1 reg regs2 rs e,
     regular_registers m = Some (regs1 ++ reg :: regs2) →
     Forall2 (λ reg r, reg_dumps include_units reg = Return r) regs1 rs →
     reg_dumps include_units reg = Raise e →
     dumps include_units m = Raise e).
Proof.
  split.
  - intros rs Hrs. exists (dumps_data m rs).
    pose proof (dumps_data_lookup m rs) as (_ & _ & _ & ? & ? & ?).
    split_and!; [|apply dumps_data_dom | done.. | symmetry; by eapply Forall2_length].
    unfold dumps. destruct (regular_registers m) as [regs|]; simpl in Hrs.
    + by rewrite (proj2 (dump_registers_Return _ _ _) Hrs).
    + by inv Hrs.
  - intros regs1 reg regs2 rs e Hm Hrs He. unfold dumps. rewrite Hm.
    by rewrite (dump_registers_Raise _ _ _ _ rs e (proj2 (dump_registers_Return _ _ _) Hrs) He).
Qed.

End dumps.

(** ** Witnesses *)

Lemma dumps_schema_witness :
  ∃ data, dumps sample_reg_dumps true sample_mote = Return data ∧
    dom data = list_to_set ["pcode"; "manufacturer"; "name"; "address"; "txinterval";
                            "registers"] ∧
    data !! "address" = Some (PyInt 5) ∧
    data !! "txinterval" = Some (PyInt 10) ∧
    data !! "registers"
      = Some (PyList [(11, 21, ["temperature"]); (12, 300, ["humidity"; "voltage"])]) ∧
    length [(11, 21, ["temperature"]); (12, 300, ["humidity"; "voltage"])]
      = length sample_regular.
Proof.
  apply (proj1 (dumps_schema sample_reg_dumps true sample_mote)). repeat constructor.
Defined.

(** The second register of the sample mote fails to serialize. *)
Example dumps_error_sample :
  dumps failing_reg_dumps false sample_mote = Raise (SwapException "no endpoint").
Proof. reflexivity. Qed.

(** A mote without a list of regular registers is serialized with an
    empty list of registers. *)
Example dumps_without_registers :
  dumps sample_reg_dumps true bare_mote = Return (dumps_data bare_mote []).
Proof. reflexivity. Qed.
