(* ===== verification/Objects.v ===== *)
(** * Objects: the registers as objects with identity

    In Python the two register lists of a mote hold references to
    register objects, [getRegister] returns the object it finds, not a
    copy, and [getParameter] returns a parameter object of a register.
    Whoever holds such a reference -- the caller, or the delegate that
    receives the status packets of the mote -- may assign to the object,
    and the mote sees the assignment at its next read.

    Here the register objects live in a store ([Store], a finite map from
    locations), the lists of the mote are lists of locations ([RegRefs]),
    and the lookups return locations.  The record [SwapMote] of
    [MoteData], with its lists of register values, is the snapshot of the
    store at one instant ([snapshot]); the lookups of [MoteData] on the
    snapshot return the contents of the objects the lookups by reference
    return.  The lookups depend on the identifiers and the parameter
    names of the objects only, which an assignment to a value does not
    change: the stores with the same [shape] form an equivalence that the
    lookups respect. *)

From stdpp Require Import gmap.
From S2P Require Import Prelude PyBase SwapDefs MoteData Server MoteOps MoteSpec Samples.
From S2P Require Import Lookup.

Local Open Scope Z_scope.

(** ** Locations and the store *)

Record loc : Type := Loc { loc_car : positive }.

#[export] Instance loc_eq_dec : EqDecision loc.
Proof. solve_decision. Defined.

#[export] Instance loc_countable : Countable loc.
Proof. by apply (inj_countable' loc_car Loc); intros []. Defined.

(** The register objects. *)
Abbreviation Store := (gmap loc SwapRegister).

(** The attributes [regular_registers] and [config_registers]: [None], or
    a list of references. *)
Record RegRefs : Type := mkRegRefs {
  regular_refs : option (list loc);
  config_refs : option (list loc);
}.

(** A reference to a parameter object: its register and its position in
    the parameters of the register. *)
Definition ParamRef : Type := (loc * nat)%type.

(** ** Lookups by reference *)

(** [reg.id == regId], for the object at [l].  A reference of Python
    never dangles; a location outside the store has no identifier, and
    the loop passes over it. *)
Definition has_id (h : Store) (regId : Z) (l : loc) : bool :=
  match h !! l with
  | Some reg => reg_id reg =? regId
  | None => false
  end.

(** [for reg in regs: if reg.id == regId: return reg] *)
Definition find_register_ref (h : Store) (regId : Z) (ls : list loc) : option loc :=
  find (has_id h regId) ls.

(** Iterating an attribute that holds [None] raises [TypeError]. *)
Definition iter_refs (ls : option (list loc)) : outcome (list loc) :=
  match ls with
  | Some l => Return l
  | None => Raise TypeError
  end.

(** [getRegister(regId)], returning the object. *)
Definition getRegister_ref (regId : Z) (h : Store) (r : RegRefs) : outcome (option loc) :=
  match iter_refs (regular_refs r) with
  | Raise e => Raise e
  | Return ls =>
      match find_register_ref h regId ls with
      | Some l => Return (Some l)
      | None =>
          match iter_refs (config_refs r) with
          | Raise e => Raise e
          | Return cls => Return (find_register_ref h regId cls)
          end
      end
  end.

(** [for param in reg.parameters: if param.name == name: return param],
    for the object at [l]. *)
Definition find_param_in (h : Store) (name : string) (l : loc) : option nat :=
  reg ← h !! l; fst <$> list_find (λ param, named name param = true) (reg_parameters reg).

Fixpoint find_parameter_ref (h : Store) (name : string) (ls : list loc) : option ParamRef :=
  match ls with
  | [] => None
  | l :: rest =>
      match find_param_in h name l with
      | Some i => Some (l, i)
      | None => find_parameter_ref h name rest
      end
  end.

(** [getParameter(name)], returning the object. *)
Definition getParameter_ref (name : string) (h : Store) (r : RegRefs)
    : outcome (option ParamRef) :=
  match iter_refs (regular_refs r) with
  | Raise e => Raise e
  | Return ls =>
      match find_parameter_ref h name ls with
      | Some p => Return (Some p)
      | None =>
          match iter_refs (config_refs r) with
          | Raise e => Raise e
          | Return cls => Return (find_parameter_ref h name cls)
          end
      end
  end.

(** [SwapStatusPacket(self.address, regId, reg.value, extended_addr=...)]
    in [staRegister]: the value is read from the object when the packet
    is built; [reg] may be [None]. *)
Definition sta_packet (h : Store) (m : SwapMote) (regId : Z) (ref : option loc)
    : outcome SwapPacket :=
  match ref ≫= (h !!.) with
  | Some reg => Return (SwapStatusPacket (address m) regId (reg_value reg) (extended_addr m))
  | None => Raise AttributeError
  end.

(** ** The store at one instant *)

(** The contents of the objects of a list. *)
Definition deref (h : Store) (ls : list loc) : list SwapRegister := omap (h !!.) ls.

Definition deref_param (h : Store) (p : ParamRef) : option SwapParam :=
  reg ← h !! p.1; reg_parameters reg !! p.2.

(** The mote with the contents of its register objects. *)
Definition snapshot (h : Store) (r : RegRefs) (m : SwapMote) : SwapMote :=
  {| queued_commands := queued_commands m; product_code := product_code m;
     product_id := product_id m; manufacturer_id := manufacturer_id m;
     config := config m; definition := definition m; address := address m;
     security := security m; nonce := nonce m; state := state m;
     regular_registers := deref h <$> regular_refs r;
     config_registers := deref h <$> config_refs r; timestamp := timestamp m;
     pwrdownmode := pwrdownmode m; txinterval := txinterval m;
     extended_addr := extended_addr m |}.

(** ** Assignments through a reference *)

(** [reg.value = v] *)
Definition set_reg_value (v : SwapValue) (reg : SwapRegister) : SwapRegister :=
  mkSwapRegister (reg_id reg) v (reg_parameters reg).

(** [param.value = v] *)
Definition set_param_value (v : SwapValue) (param : SwapParam) : SwapParam :=
  mkSwapParam (param_name param) v.

Definition assign_value (l : loc) (v : SwapValue) (h : Store) : Store :=
  alter (set_reg_value v) l h.

Definition assign_param_value (p : ParamRef) (v : SwapValue) (h : Store) : Store :=
  alter (λ reg, mkSwapRegister (reg_id reg) (reg_value reg)
                  (alter (set_param_value v) p.2 (reg_parameters reg))) p.1 h.

(** ** What the lookups depend on *)

(** The identifier of a register and the names of its parameters. *)
Definition shape (reg : SwapRegister) : Z * list string :=
  (reg_id reg, param_name <$> reg_parameters reg).

(** Stores with the same objects, up to the values they hold. *)
Definition same_shape (h h' : Store) : Prop := shape <$> h = shape <$> h'.

Infix "≡ₛ" := same_shape (at level 70).

(** ** The sample device as objects

    The register 12 is in both lists: one object, two references. *)
Definition sample_store : Store :=
  <[Loc 1 := mkSwapRegister 11 (SwapValue_new 21 1) [mkSwapParam "temperature" (SwapValue_new 21 1)]]>
  (<[Loc 2 := mkSwapRegister 12 (SwapValue_new 300 2)
                [mkSwapParam "humidity" (SwapValue_new 1 1);
                 mkSwapParam "voltage" (SwapValue_new 44 1)]]>
  (<[Loc 3 := mkSwapRegister 20 (SwapValue_new 5 1) [mkSwapParam "period" (SwapValue_new 5 1)]]> ∅)).

Definition sample_refs : RegRefs := mkRegRefs (Some [Loc 1; Loc 2]) (Some [Loc 2; Loc 3]).

Section objects.
Implicit Types (h : Store) (r : RegRefs) (l : loc) (ls : list loc) (m : SwapMote).
Implicit Types (reg : SwapRegister) (v : SwapValue).

(** ** The snapshot *)

Lemma find_register_deref h regId ls :
  find_register regId (deref h ls) = find_register_ref h regId ls ≫= (h !!.).
Proof.
  unfold find_register, find_register_ref, deref, has_id.
  induction ls as [|l ls IH]; simpl; [done|].
  destruct (h !! l) as [reg|] eqn:E; simpl; [|done].
  destruct (reg_id reg =? regId); simpl; [by rewrite E | done].
Qed.

Lemma find_parameter_deref h name ls :
  find_parameter name (deref h ls) = find_parameter_ref h name ls ≫= deref_param h.
Proof.
  unfold deref. induction ls as [|l ls IH]; simpl; [done|]. unfold find_param_in.
  destruct (h !! l) as [reg|] eqn:E; simpl; [|exact IH].
  change (λ param, (param_name param =? name)%string) with (named name).
  rewrite find_list_find.
  destruct (list_find _ (reg_parameters reg)) as [[i param]|] eqn:Ef; simpl; [|exact IH].
  unfold deref_param. simpl. rewrite E. simpl.
  apply list_find_Some in Ef as (Hi & _). by rewrite Hi.
Qed.

(** What is found is an object of the list with the identifier, or a
    parameter with the name of such an object. *)
Lemma find_register_ref_Some h regId ls l :
  find_register_ref h regId ls = Some l →
  l ∈ ls ∧ ∃ reg, h !! l = Some reg ∧ reg_id reg = regId.
Proof.
  intros (l1 & l2 & -> & Hl & _)%find_Some_split. split; [set_solver|].
  unfold has_id in Hl. destruct (h !! l) as [reg|]; [|done]. exists reg. split; [done | lia].
Qed.

Lemma find_parameter_ref_Some h name ls p :
  find_parameter_ref h name ls = Some p →
  ∃ param, deref_param h p = Some param ∧ named name param = true ∧ p.1 ∈ ls.
Proof.
  induction ls as [|l ls IH]; simpl; [done|]. unfold find_param_in, deref_param.
  destruct (h !! l) as [reg|] eqn:E; simpl.
  - destruct (list_find _ (reg_parameters reg)) as [[i param]|] eqn:Ef; simpl.
    + intros [= <-]. apply list_find_Some in Ef as (Hi & Hn & _). simpl. rewrite E. simpl.
      exists param. split_and!; [done.. | left].
    + intros (param & ? & ? & ?)%IH. exists param. split_and!; [done.. | by right].
  - intros (param & ? & ? & ?)%IH. exists param. split_and!; [done.. | by right].
Qed.

Lemma getRegister_snapshot h r m regId :
  getRegister regId (snapshot h r m) = (λ ol, ol ≫= (h !!.)) <$> getRegister_ref regId h r.
Proof.
  unfold getRegister, getRegister_ref. simpl.
  destruct (regular_refs r) as [ls|]; simpl; [|done]. rewrite find_register_deref.
  destruct (find_register_ref h regId ls) as [l|] eqn:E; simpl.
  - apply find_some in E as [_ Hl]. unfold has_id in Hl. by destruct (h !! l).
  - destruct (config_refs r) as [cls|]; simpl; [|done]. by rewrite find_register_deref.
Qed.

Lemma getParameter_snapshot h r m name :
  getParameter name (snapshot h r m)
  = (λ op, op ≫= deref_param h) <$> getParameter_ref name h r.
Proof.
  unfold getParameter, getParameter_ref. simpl.
  destruct (regular_refs r) as [ls|]; simpl; [|done]. rewrite find_parameter_deref.
  destruct (find_parameter_ref h name ls) as [p|] eqn:E; simpl.
  - by apply find_parameter_ref_Some in E as (param & -> & _).
  - destruct (config_refs r) as [cls|]; simpl; [|done]. by rewrite find_parameter_deref.
Qed.

(** ** Stores of the same shape *)

#[export] Instance same_shape_equiv : Equivalence same_shape.
Proof.
  unfold same_shape. split; [by intros h | by intros h h' | by intros h1 h2 h3 -> ->].
Qed.

Lemma has_id_shape h regId l :
  has_id h regId l
  = match (shape <$> h) !! l with Some s => s.1 =? regId | None => false end.
Proof. unfold has_id. rewrite lookup_fmap. by destruct (h !! l). Qed.

Lemma find_param_in_shape h name l :
  find_param_in h name l
  = s ← (shape <$> h) !! l; fst <$> list_find (λ n, String.eqb n name = true) s.2.
Proof.
  unfold find_param_in. rewrite lookup_fmap. destruct (h !! l) as [reg|]; simpl; [|done].
  rewrite list_find_fmap. unfold compose, named.
  by destruct (list_find _ (reg_parameters reg)) as [[]|].
Qed.

#[export] Instance has_id_proper : Proper (same_shape ==> eq ==> eq ==> eq) has_id.
Proof. intros h h' Hh regId ? <- l ? <-. rewrite !has_id_shape. by rewrite Hh. Qed.

#[export] Instance find_param_in_proper :
  Proper (same_shape ==> eq ==> eq ==> eq) find_param_in.
Proof. intros h h' Hh name ? <- l ? <-. rewrite !find_param_in_shape. by rewrite Hh. Qed.

#[export] Instance find_register_ref_proper :
  Proper (same_shape ==> eq ==> eq ==> eq) find_register_ref.
Proof.
  intros h h' Hh regId ? <- ls ? <-. unfold find_register_ref.
  induction ls as [|l ls IH]; simpl; [done|]. by rewrite IH, Hh.
Qed.

#[export] Instance find_parameter_ref_proper :
  Proper (same_shape ==> eq ==> eq ==> eq) find_parameter_ref.
Proof.
  intros h h' Hh name ? <- ls ? <-.
  induction ls as [|l ls IH]; simpl; [done|]. by rewrite IH, Hh.
Qed.

(** The lookups by reference do not depend on the values the objects
    hold. *)
#[export] Instance getRegister_ref_proper :
  Proper (eq ==> same_shape ==> eq ==> eq) getRegister_ref.
Proof.
  intros regId ? <- h h' Hh r ? <-. unfold getRegister_ref.
  destruct (iter_refs (regular_refs r)) as [ls|]; [|done]. rewrite Hh.
  destruct (find_register_ref h' regId ls); [done|].
  destruct (iter_refs (config_refs r)) as [cls|]; [|done]. by rewrite Hh.
Qed.

#[export] Instance getParameter_ref_proper :
  Proper (eq ==> same_shape ==> eq ==> eq) getParameter_ref.
Proof.
  intros name ? <- h h' Hh r ? <-. unfold getParameter_ref.
  destruct (iter_refs (regular_refs r)) as [ls|]; [|done]. rewrite Hh.
  destruct (find_parameter_ref h' name ls); [done|].
  destruct (iter_refs (config_refs r)) as [cls|]; [|done]. by rewrite Hh.
Qed.

(** An assignment to a value keeps the shape. *)
Lemma assign_value_shape l v h : assign_value l v h ≡ₛ h.
Proof.
  unfold same_shape, assign_value. apply map_eq. intros l'.
  rewrite !lookup_fmap, lookup_alter. case_decide; [subst|done]. by destruct (h !! l').
Qed.

Lemma assign_param_value_shape p v h : assign_param_value p v h ≡ₛ h.
Proof.
  unfold same_shape, assign_param_value. apply map_eq. intros l'.
  rewrite !lookup_fmap, lookup_alter. case_decide; [subst|done].
  destruct (h !! p.1) as [reg|]; simpl; [|done]. unfold shape. simpl. do 2 f_equal.
  apply list_eq. intros j. rewrite !list_lookup_fmap, list_lookup_alter.
  case_decide; [subst|done]. by destruct (reg_parameters reg !! p.2).
Qed.

(** The lists are not resized. *)
Lemma length_deref_shape h h' ls : h ≡ₛ h' → length (deref h ls) = length (deref h' ls).
Proof.
  intros Hh. unfold deref. induction ls as [|l ls IH]; simpl; [done|].
  assert (h !! l = None ↔ h' !! l = None) as Hl.
  { rewrite <-(fmap_None shape (h !! l)), <-(fmap_None shape (h' !! l)).
    by rewrite <-!lookup_fmap, Hh. }
  destruct (h !! l), (h' !! l); simpl;
    [f_equal; exact IH | by pose proof (proj2 Hl eq_refl)
    | by pose proof (proj1 Hl eq_refl) | exact IH].
Qed.

(** ** What an assignment changes *)

Lemma lookup_assign_value l v h l' :
  assign_value l v h !! l' = (if decide (l = l') then set_reg_value v else id) <$> h !! l'.
Proof.
  unfold assign_value. rewrite lookup_alter. case_decide; [by subst|].
  by destruct (h !! l').
Qed.

(** Every reference to the object sees the assignment, in whichever list
    it is; the other objects are as they were. *)
Lemma deref_assign_value l v h ls :
  deref (assign_value l v h) ls
  = omap (λ l', (if decide (l = l') then set_reg_value v else id) <$> h !! l') ls.
Proof.
  unfold deref. apply list_omap_ext, Forall2_same_length_lookup. split; [done|].
  intros i l1 l2 E1 E2. simplify_eq. apply lookup_assign_value.
Qed.

Lemma deref_param_assign p v h param :
  deref_param h p = Some param →
  deref_param (assign_param_value p v h) p = Some (set_param_value v param).
Proof.
  unfold deref_param, assign_param_value. rewrite lookup_alter_eq.
  destruct (h !! p.1) as [reg|]; simpl; [|done]. intros E.
  by rewrite list_lookup_alter, decide_True, E.
Qed.

Lemma getRegister_ref_Some h r regId l :
  getRegister_ref regId h r = Return (Some l) →
  l ∈ default [] (regular_refs r) ++ default [] (config_refs r) ∧
  ∃ reg, h !! l = Some reg ∧ reg_id reg = regId.
Proof.
  unfold getRegister_ref. destruct (regular_refs r) as [ls|]; simpl; [|done].
  destruct (find_register_ref h regId ls) as [l1|] eqn:E1.
  - intros [= ->]. apply find_register_ref_Some in E1 as [Hin ?].
    split; [apply elem_of_app; by left | done].
  - destruct (config_refs r) as [cls|]; simpl; [|done].
    intros [= E2]. apply find_register_ref_Some in E2 as [Hin ?].
    split; [apply elem_of_app; by right | done].
Qed.

Lemma getParameter_ref_Some h r name p :
  getParameter_ref name h r = Return (Some p) →
  ∃ param, deref_param h p = Some param ∧ named name param = true.
Proof.
  unfold getParameter_ref. destruct (regular_refs r) as [ls|]; simpl; [|done].
  destruct (find_parameter_ref h name ls) as [p1|] eqn:E1.
  - intros [= ->]. apply find_parameter_ref_Some in E1 as (param & ? & ? & _). eauto.
  - destruct (config_refs r) as [cls|]; simpl; [|done].
    intros [= E2]. apply find_parameter_ref_Some in E2 as (param & ? & ? & _). eauto.
Qed.

End objects.

Section assignment.
Context `{SwapServer D}.
Implicit Types (h : Store) (r : RegRefs) (l : loc) (w : World D).
Implicit Types (reg : SwapRegister) (v : SwapValue).

(** [staRegister] on the contents of the objects: the lookup by
    reference, the packet built from the object, and its transmission. *)
Lemma staRegister_snapshot h r w regId :
  let w' := set_mote (snapshot h r (mote w)) w in
  staRegister regId w'
  = match getRegister_ref regId h r with
    | Return ref => match sta_packet h (mote w) regId ref with
                    | Return infPacket => send infPacket w'
                    | Raise e => (Raise e, w')
                    end
    | Raise e => (Raise e, w')
    end.
Proof.
  intros w'. unfold staRegister. rewrite bind_unfold. simpl.
  rewrite getRegister_snapshot. unfold sta_packet.
  destruct (getRegister_ref regId h r) as [[l|]|e]; simpl; [|done..].
  by destruct (h !! l).
Qed.

(** C18: the methods of the mote on the contents of its register objects
    do what they do by reference.  [getRegister] and [getParameter]
    return the contents of the objects the lookups by reference return,
    and raise when those raise; [staRegister] sends the packet built
    from the object found, or raises.  The object [getRegister] returns
    is one of the two lists and has the identifier asked for; the
    parameter [getParameter] returns is a parameter of an object of the
    store and has the name asked for. *)
Theorem lookup_by_reference h r w regId name :
  let m := snapshot h r (mote w) in
  getRegister regId m = (λ ol, ol ≫= (h !!.)) <$> getRegister_ref regId h r ∧
  getParameter name m = (λ op, op ≫= deref_param h) <$> getParameter_ref name h r ∧
  staRegister regId (set_mote m w)
  = match getRegister_ref regId h r with
    | Return ref => match sta_packet h (mote w) regId ref with
                    | Return infPacket => send infPacket (set_mote m w)
                    | Raise e => (Raise e, set_mote m w)
                    end
    | Raise e => (Raise e, set_mote m w)
    end ∧
  (∀ l, getRegister_ref regId h r = Return (Some l) →
        l ∈ default [] (regular_refs r) ++ default [] (config_refs r) ∧
        ∃ reg, h !! l = Some reg ∧ reg_id reg = regId) ∧
  (∀ p, getParameter_ref name h r = Return (Some p) →
        ∃ param, deref_param h p = Some param ∧ param_name param = name).
Proof.
  split_and!;
    [apply getRegister_snapshot | apply getParameter_snapshot | apply staRegister_snapshot | |].
  - intros l. apply getRegister_ref_Some.
  - intros p (param & ? & Hn)%getParameter_ref_Some. exists param. split; [done|].
    by apply String.eqb_eq.
Qed.

(** C26: a value assigned to the register object that [getRegister]
    returned is the value the mote reads back.  After the assignment the
    lookups by reference return the same objects for every identifier
    and every name, [getRegister] with the identifier returns the
    register with the new value, every list of references reads the new
    value wherever it refers to the object and the old contents
    elsewhere, no list is resized, and [staRegister] reports the new
    value in one status packet.  The same holds for a value assigned to the parameter object
    that [getParameter] returned. *)
Theorem assign_through_reference h r w regId l reg v :
  getRegister_ref regId h r = Return (Some l) →
  h !! l = Some reg →
  let h' := assign_value l v h in
  let w' := set_mote (snapshot h' r (mote w)) w in
  (∀ regId' name, getRegister_ref regId' h' r = getRegister_ref regId' h r ∧
                  getParameter_ref name h' r = getParameter_ref name h r) ∧
  getRegister regId (mote w') = Return (Some (set_reg_value v reg)) ∧
  (∀ ls, deref h' ls
         = omap (λ l', (if decide (l = l') then set_reg_value v else id) <$> h !! l') ls) ∧
  (∀ ls, length (deref h' ls) = length (deref h ls)) ∧
  staRegister regId w'
  = send (SwapStatusPacket (address (mote w)) regId v (extended_addr (mote w))) w' ∧
  (∀ name p param u,
     getParameter_ref name h r = Return (Some p) → deref_param h p = Some param →
     getParameter name (snapshot (assign_param_value p u h) r (mote w))
     = Return (Some (set_param_value u param))).
Proof.
  intros Hl Hh h' w'.
  assert (getRegister_ref regId h' r = Return (Some l)) as Hl'.
  { unfold h'. by rewrite assign_value_shape. }
  assert (h' !! l = Some (set_reg_value v reg)) as Hh'.
  { unfold h'. by rewrite lookup_assign_value, decide_True, Hh. }
  split_and!; [| | apply deref_assign_value
              | intros ls; apply length_deref_shape, assign_value_shape | |].
  - intros regId' name. unfold h'. by rewrite assign_value_shape.
  - simpl. by rewrite getRegister_snapshot, Hl'; simpl; rewrite Hh'.
  - unfold w'. rewrite staRegister_snapshot, Hl'. unfold sta_packet. simpl. by rewrite Hh'.
  - intros name p param u Hp Hd. rewrite getParameter_snapshot, assign_param_value_shape, Hp.
    simpl. by rewrite (deref_param_assign _ _ _ _ Hd).
Qed.

End assignment.

(** ** Witnesses *)

Lemma lookup_by_reference_witness :
  Loc 2 ∈ [Loc 1; Loc 2] ++ [Loc 2; Loc 3] ∧
  ∃ reg, sample_store !! Loc 2 = Some reg ∧ reg_id reg = 12.
Proof.
  destruct (lookup_by_reference sample_store sample_refs sample_world 12 "voltage")
    as (_ & _ & _ & Hl & _).
  by apply (Hl (Loc 2)).
Defined.

Lemma assign_through_reference_witness :
  getRegister 12 (snapshot (assign_value (Loc 2) (SwapValue_new 7 1) sample_store)
                           sample_refs sample_mote)
  = Return (Some (mkSwapRegister 12 (SwapValue_new 7 1)
                    [mkSwapParam "humidity" (SwapValue_new 1 1);
                     mkSwapParam "voltage" (SwapValue_new 44 1)])).
Proof.
  destruct (assign_through_reference sample_store sample_refs sample_world 12 (Loc 2)
              (mkSwapRegister 12 (SwapValue_new 300 2)
                 [mkSwapParam "humidity" (SwapValue_new 1 1);
                  mkSwapParam "voltage" (SwapValue_new 44 1)])
              (SwapValue_new 7 1) eq_refl eq_refl) as (_ & Hget & _).
  (* the second component: what [getRegister] reads after the assignment *)
  exact Hget.
Defined.

(** One object, two references: the register 12 is in both lists, and an
    assignment through the reference [getRegister] returned shows in the
    configuration registers as well. *)
Example assignment_is_shared :
  let h' := assign_value (Loc 2) (SwapValue_new 7 1) sample_store in
  reg_value <$> deref h' [Loc 1; Loc 2] = [SwapValue_new 21 1; SwapValue_new 7 1] ∧
  reg_value <$> deref h' [Loc 2; Loc 3] = [SwapValue_new 7 1; SwapValue_new 5 1].
Proof. by vm_compute. Qed.

(** A reference to an object that is not in the store: the lookup by
    reference passes over it, and a status for it raises. *)
Example dangling_reference :
  getRegister_ref 12 sample_store (mkRegRefs (Some [Loc 9; Loc 2]) (Some [])) = Return (Some (Loc 2)) ∧
  sta_packet sample_store sample_mote 12 (Some (Loc 9)) = Raise AttributeError.
Proof. by vm_compute. Qed.
