(* ===== verification/Machine.v ===== *)
(** * Machine: the mote as a state machine

    The calls a controller and the receive path make on a mote are the
    steps of a transition system on worlds ([step]); between calls the
    clock is read anew ([tick]), later or, when the wall clock was set
    back, earlier.  A labelled step ([lstep]) carries what is observed of
    it ([Obs]): the call and its outcome ([call_result]), or the tick.
    [mote_step] is the abstract machine: what a call does to the mote
    given the acknowledgement of its confirmed exchange, with the
    delegate forgotten; [mote_result] is the outcome it fixes, and
    [mote_ltrans] its labelled steps.  Under a delegate that transmits
    reliably and never writes to the mote every step of the
    implementation is a step of the abstract machine with the same
    label, the invariants of the abstract machine hold in every
    reachable world, and the time stamp is the reading of the clock at
    the last call of [updateTimeStamp]. *)

From stdpp Require Import relations.
From S2P Require Import Prelude PyBase SwapDefs MoteData Server MoteOps MoteSpec Samples.
From S2P Require Import Sending Queue Setters.

Local Open Scope Z_scope.

(** ** Calls *)

(** The methods that can change the world, with their arguments. *)
Inductive Call : Type :=
| CCmdRegister (regId : Z) (value : SwapValue)
| CQryRegister (regId : Z)
| CStaRegister (regId : Z)
| CCmdRegisterWack (regId : Z) (value : SwapValue)
| CQryRegisterWack (regId : Z)
| CSaveCommand (regid : Z) (value : SwapValue)
| CSaveAddressCommand (addr : Z)
| CSaveTxIntervalCommand (interval : Z)
| CGetSavedCommand
| CSetAddress (addr : Z)
| CSetNetworkId (netId : Z)
| CSetFreqChannel (channel : Z)
| CSetSecurity (secu : Z)
| CSetTxInterval (interval : Z)
| CRestart
| CLeaveSync
| CUpdateTimeStamp
| CUpdateState (st : Z).

#[export] Instance Call_eq_dec : EqDecision Call.
Proof. solve_decision. Defined.

(** ** Results *)

(** What a method returns: [None], a boolean, a packet, a value, a queued
    command. *)
Inductive Result : Type :=
| RNone
| RBool (b : bool)
| RPacket (p : SwapPacket)
| RValue (v : SwapValue)
| RCommand (c : Z * SwapValue).

#[export] Instance Result_eq_dec : EqDecision Result.
Proof. solve_decision. Defined.

(** The result of [save_command]: the acknowledgement, or [None]. *)
Definition of_ack (o : option bool) : Result :=
  match o with
  | Some b => RBool b
  | None => RNone
  end.

(** The result of a confirmed query: the value, or [None]. *)
Definition of_reply (o : option SwapValue) : Result :=
  match o with
  | Some v => RValue v
  | None => RNone
  end.

(** What is observed of a transition: the method called, with its
    arguments and with what it returned or raised, or the time by which
    the reading of the clock changed. *)
Inductive Obs : Type :=
| OCall (c : Call) (res : outcome Result)
| OTick (dt : Z).

#[export] Instance Obs_eq_dec : EqDecision Obs.
Proof. solve_decision. Defined.

(** What a client does: it calls a method, or lets time pass. *)
Inductive Input : Type :=
| ICall (c : Call)
| IWait (dt : Z).

(** The call returned [True]. *)
Definition returned_true (res : outcome Result) : bool :=
  bool_decide (res = Return (RBool true)).

(** ** The abstract machine *)

(** A reported state in which [update_state] flushes the queue. *)
Definition receiving (st : Z) : bool := bool_decide (st = RXON) || bool_decide (st = SYNC).

(** A mote for which [save_command] transmits at once. *)
Definition reachable_now (m : SwapMote) : bool :=
  bool_decide (state m = RXON) || negb (pwrdownmode m).

(** What a call returns, where the mote decides it; [None] where it is
    the answer of the delegate. *)
Definition mote_result (c : Call) (m : SwapMote) : option (outcome Result) :=
  match c with
  | CCmdRegister regId value =>
      Some (Return (RPacket (SwapStatusPacket (address m) regId value false)))
  | CQryRegister _ | CUpdateTimeStamp | CUpdateState _ => Some (Return RNone)
  | CStaRegister regId =>
      Some (match getRegister regId m with
            | Return (Some _) => Return RNone
            | Return None => Raise AttributeError
            | Raise e => Raise e
            end)
  | CSaveCommand _ _ | CSaveAddressCommand _ | CSaveTxIntervalCommand _ =>
      if reachable_now m then None else Some (Return RNone)
  | CGetSavedCommand =>
      Some (match queued_commands m with
            | c :: _ => Return (RCommand c)
            | [] => Raise IndexError
            end)
  | _ => None
  end.

(** The mote after a call, given the acknowledgement [ack] of the
    confirmed exchange the call makes, if any, and the time [now]. *)
Definition mote_step (c : Call) (ack : bool) (now : Z) (m : SwapMote) : SwapMote :=
  match c with
  | CSaveCommand regid value =>
      if reachable_now m then m else queue_append regid value m
  | CSaveAddressCommand addr =>
      if reachable_now m then m else queue_append ID_DEVICE_ADDR (SwapValue_new addr 1) m
  | CSaveTxIntervalCommand interval =>
      if reachable_now m then m else queue_append ID_TX_INTERVAL (SwapValue_new interval 2) m
  | CGetSavedCommand => set_queued_commands (tail (queued_commands m)) m
  | CSetAddress addr => if ack then set_address addr m else m
  | CSetSecurity secu => if ack then set_security secu m else m
  | CSetTxInterval interval => if ack then set_txinterval interval m else m
  | CUpdateTimeStamp => set_timestamp now m
  | CUpdateState st =>
      if receiving st then set_queued_commands [] (set_state st m) else set_state st m
  | _ => m
  end.

(** The abstract transitions, on a mote and a clock.  The clock is what
    [time.time()] reads: it may be set back. *)
Inductive mote_trans : SwapMote * Z → SwapMote * Z → Prop :=
| mote_trans_call c ack m now : mote_trans (m, now) (mote_step c ack now m, now)
| mote_trans_tick dt m now : mote_trans (m, now) (m, now + dt).

(** The abstract transitions with what is observed of them: a call
    returns what the mote decides, where it decides, and the mote changes
    according to whether the call returned [True]. *)
Inductive mote_ltrans : Obs → relation (SwapMote * Z) :=
| mote_ltrans_call c res m now :
    (∀ r, mote_result c m = Some r → res = r) →
    mote_ltrans (OCall c res) (m, now) (mote_step c (returned_true res) now m, now)
| mote_ltrans_tick dt m now : mote_ltrans (OTick dt) (m, now) (m, now + dt).

(** The reading of the clock after a run, from the reading [now] before
    it. *)
Definition clock_after (ls : list Obs) (now : Z) : Z :=
  foldl (λ t l, match l with OTick dt => t + dt | OCall _ _ => t end) now ls.

(** The time of the last [updateTimeStamp] of a run, from the reading
    [now] and the time stamp [ts] before it. *)
Fixpoint last_stamp (ls : list Obs) (now ts : Z) : Z :=
  match ls with
  | [] => ts
  | OTick dt :: ls => last_stamp ls (now + dt) ts
  | OCall CUpdateTimeStamp _ :: ls => last_stamp ls now now
  | OCall _ _ :: ls => last_stamp ls now ts
  end.

(** A property of motes that every abstract transition keeps. *)
Definition keeps (Inv : SwapMote → Prop) : Prop :=
  ∀ c ack now m, Inv m → Inv (mote_step c ack now m).

(** The invariants. *)
Definition queue_needs_pwrdown (m : SwapMote) : Prop :=
  queued_commands m ≠ [] → pwrdownmode m = true.

Definition awake_means_flushed (m : SwapMote) : Prop :=
  state m = RXON → queued_commands m = [].

(** What a freshly constructed mote satisfies. *)
Definition fresh (m : SwapMote) : Prop := queued_commands m = [] ∧ state m = RXOFF.

(** A run of the sample mote: two commands saved while it sleeps, time
    passing, the mote waking up. *)
Definition sample_run : list Call :=
  [CSaveAddressCommand 6; CSaveTxIntervalCommand 60; CUpdateTimeStamp; CUpdateState RXON].

(** The inputs of a client: a command saved, a stamp, the clock set back,
    the mote waking up, a setter. *)
Definition sample_inputs : list Input :=
  [IWait 5; ICall (CSaveAddressCommand 6); ICall CUpdateTimeStamp; IWait (-15);
   ICall (CUpdateState RXON); ICall (CSetAddress 6)].

Section machine.
Context `{SwapServer D}.

(** Run a method for its effect. *)
Definition void {A} (m : M (World D) A) : M (World D) unit := (λ _, tt) <$> m.

(** The method a call names. *)
Definition run_call (c : Call) : M (World D) unit :=
  match c with
  | CCmdRegister regId value => void (cmdRegister regId value)
  | CQryRegister regId => qryRegister regId
  | CStaRegister regId => staRegister regId
  | CCmdRegisterWack regId value => void (cmdRegisterWack regId value)
  | CQryRegisterWack regId => void (qryRegisterWack regId)
  | CSaveCommand regid value => void (save_command regid value)
  | CSaveAddressCommand addr => void (save_address_command addr)
  | CSaveTxIntervalCommand interval => void (save_txinterval_command interval)
  | CGetSavedCommand => void get_saved_command
  | CSetAddress addr => void (setAddress addr)
  | CSetNetworkId netId => void (setNetworkId netId)
  | CSetFreqChannel channel => setFreqChannel channel
  | CSetSecurity secu => void (setSecurity secu)
  | CSetTxInterval interval => void (setTxInterval interval)
  | CRestart => void restart
  | CLeaveSync => void leaveSync
  | CUpdateTimeStamp => updateTimeStamp
  | CUpdateState st => update_state st
  end.

(** The method a call names, with what it returns. *)
Definition call_result (c : Call) : M (World D) Result :=
  match c with
  | CCmdRegister regId value => RPacket <$> cmdRegister regId value
  | CQryRegister regId => (λ _, RNone) <$> qryRegister regId
  | CStaRegister regId => (λ _, RNone) <$> staRegister regId
  | CCmdRegisterWack regId value => RBool <$> cmdRegisterWack regId value
  | CQryRegisterWack regId => of_reply <$> qryRegisterWack regId
  | CSaveCommand regid value => of_ack <$> save_command regid value
  | CSaveAddressCommand addr => of_ack <$> save_address_command addr
  | CSaveTxIntervalCommand interval => of_ack <$> save_txinterval_command interval
  | CGetSavedCommand => RCommand <$> get_saved_command
  | CSetAddress addr => RBool <$> setAddress addr
  | CSetNetworkId netId => RBool <$> setNetworkId netId
  | CSetFreqChannel channel => (λ _, RNone) <$> setFreqChannel channel
  | CSetSecurity secu => RBool <$> setSecurity secu
  | CSetTxInterval interval => RBool <$> setTxInterval interval
  | CRestart => RBool <$> restart
  | CLeaveSync => RBool <$> leaveSync
  | CUpdateTimeStamp => (λ _, RNone) <$> updateTimeStamp
  | CUpdateState st => (λ _, RNone) <$> update_state st
  end.

(** The reading of the clock changes by [dt]. *)
Definition tick (dt : Z) (w : World D) : World D := mkWorld (mote w) (srv w) (clock w + dt).

(** The transitions of the implementation. *)
Inductive step : World D → World D → Prop :=
| step_call c w : step w (run_call c w).2
| step_tick dt w : step w (tick dt w).

Definition reachable : World D → World D → Prop := rtc step.

(** The transitions of the implementation with what is observed of
    them. *)
Inductive lstep : Obs → relation (World D) :=
| lstep_call c w : lstep (OCall c (call_result c w).1) w (call_result c w).2
| lstep_tick dt w : lstep (OTick dt) w (tick dt w).

(** What a client observes of its inputs, and the world they leave. *)
Definition observe (i : Input) (w : World D) : Obs * World D :=
  match i with
  | ICall c => (OCall c (call_result c w).1, (call_result c w).2)
  | IWait dt => (OTick dt, tick dt w)
  end.

Fixpoint run_inputs (ins : list Input) (w : World D) : list Obs * World D :=
  match ins with
  | [] => ([], w)
  | i :: ins =>
      let r := observe i w in
      let rs := run_inputs ins r.2 in
      (r.1 :: rs.1, rs.2)
  end.

(** The abstraction: forget the delegate. *)
Definition abs (w : World D) : SwapMote * Z := (mote w, clock w).

(** ** Every call is an abstract step *)

Lemma void_run {A} (m : M (World D) A) w : (void m w).2 = (m w).2.
Proof. apply fmap_state. Qed.

(** The world a method leaves does not depend on what is done with its
    result. *)
Lemma call_result_world c w : (call_result c w).2 = (run_call c w).2.
Proof. destruct c; unfold call_result, run_call, void; by rewrite ?fmap_state. Qed.

Lemma step_lstep w w' : step w w' ↔ ∃ l, lstep l w w'.
Proof.
  split.
  - intros [c w1 | dt w1]; [|exists (OTick dt); constructor].
    exists (OCall c (call_result c w1).1). rewrite <-call_result_world. constructor.
  - intros [l [c w1 | dt w1]]; [rewrite call_result_world|]; constructor.
Qed.

(** The inputs of a client make a run. *)
Lemma run_inputs_lrtc ins : ∀ w, lrtc lstep (run_inputs ins w).1 w (run_inputs ins w).2.
Proof.
  induction ins as [|i ins IH]; intros w; simpl; [constructor|].
  eapply lrtc_cons; [|apply IH]. destruct i; constructor.
Qed.

Lemma reachable_now_false m :
  reachable_now m = false ↔ state m ≠ RXON ∧ pwrdownmode m = true.
Proof.
  unfold reachable_now. by rewrite orb_false_iff, bool_decide_eq_false, negb_false_iff.
Qed.

Lemma receiving_true st : receiving st = true ↔ st = RXON ∨ st = SYNC.
Proof. unfold receiving. by rewrite orb_true_iff, !bool_decide_eq_true. Qed.

Lemma receiving_false st : receiving st = false ↔ st ≠ RXON ∧ st ≠ SYNC.
Proof. unfold receiving. by rewrite orb_false_iff, !bool_decide_eq_false. Qed.

(** A setter returned [True] when its confirmed exchange was
    acknowledged. *)
Lemma returned_true_ack (o : outcome bool) : returned_true (RBool <$> o) = acked o.
Proof. unfold returned_true, acked. by destruct o as [[]|e]. Qed.

(** The mote and the clock after a call, under a delegate that transmits
    reliably and never writes to the mote. *)
Lemma call_result_abs `{!ServerSends D} `{!ServerFramed D} c w :
  abs (call_result c w).2
  = (mote_step c (returned_true (call_result c w).1) (clock w) (mote w), clock w).
Proof.
  rewrite call_result_world. unfold abs.
  destruct c; cbn [run_call mote_step call_result]; rewrite ?void_run;
    try (apply pair_eq, frames_run;
         eauto using cmdRegister_frames, qryRegister_frames, staRegister_frames,
           setMoteRegister_frames, queryMoteRegister_frames with swap; fail);
    rewrite ?fmap_outcome, ?returned_true_ack.
  - apply pair_eq, save_command_mote.
  - apply pair_eq, save_command_mote.
  - apply pair_eq, save_command_mote.
  - apply pair_eq, get_saved_command_mote.
  - rewrite setAddress_run. apply pair_eq, mirror_framed_abs.
  - rewrite setSecurity_run. apply pair_eq, mirror_framed_abs.
  - rewrite setTxInterval_run. apply pair_eq, mirror_framed_abs.
  - done.
  - apply pair_eq, update_state_mote.
Qed.

Lemma run_call_abs `{!ServerSends D} `{!ServerFramed D} c w :
  ∃ ack, abs (run_call c w).2 = (mote_step c ack (clock w) (mote w), clock w).
Proof. eexists. rewrite <-call_result_world. apply call_result_abs. Qed.

(** What a call returns where the mote decides it, under such a
    delegate. *)
Lemma call_result_decided `{!ServerSends D} `{!ServerFramed D} c w r :
  mote_result c (mote w) = Some r → (call_result c w).1 = r.
Proof.
  destruct c; cbn [call_result mote_result]; try done; rewrite fmap_outcome.
  - intros [= <-]. by rewrite cmdRegister_sends.
  - intros [= <-]. by rewrite qryRegister_run, send_Return.
  - intros [= <-]. unfold staRegister. rewrite bind_unfold. simpl.
    destruct (getRegister regId (mote w)) as [[reg|]|e]; rewrite bind_unfold; simpl; [|done..].
    by rewrite send_Return.
  - destruct (reachable_now (mote w)) eqn:E; [done|]. intros [= <-].
    apply reachable_now_false in E as [? ?]. by rewrite save_command_asleep.
  - destruct (reachable_now (mote w)) eqn:E; [done|]. intros [= <-].
    apply reachable_now_false in E as [? ?]. unfold save_address_command.
    by rewrite save_command_asleep.
  - destruct (reachable_now (mote w)) eqn:E; [done|]. intros [= <-].
    apply reachable_now_false in E as [? ?]. unfold save_txinterval_command.
    by rewrite save_command_asleep.
  - intros [= <-]. destruct (queued_commands (mote w)) as [|c q] eqn:E.
    + by rewrite get_saved_command_nil.
    + by rewrite (get_saved_command_cons w c q E).
  - by intros [= <-].
  - intros [= <-]. destruct (receiving st) eqn:E.
    + apply receiving_true in E. by destruct (update_state_receiving st w E) as (w' & -> & _).
    + rewrite update_state_run. unfold receiving in E. by rewrite E.
Qed.

(** Every transition of the implementation is an abstract transition,
    with what is observed of it. *)
Lemma lstep_abs `{!ServerSends D} `{!ServerFramed D} l w w' :
  lstep l w w' → mote_ltrans l (abs w) (abs w').
Proof.
  intros [c w1 | dt w1]; [|constructor].
  rewrite call_result_abs. constructor. apply call_result_decided.
Qed.

(** Without the observations. *)
Lemma mote_ltrans_trans l a b : mote_ltrans l a b → mote_trans a b.
Proof. destruct 1; constructor. Qed.

Lemma step_abs `{!ServerSends D} `{!ServerFramed D} w w' :
  step w w' → mote_trans (abs w) (abs w').
Proof. intros [l Hl%lstep_abs]%step_lstep. by eapply mote_ltrans_trans. Qed.

(** A sequence of calls reaches the world it ends in. *)
Lemma reachable_run cs : ∀ w, reachable w (foldl (λ w c, (run_call c w).2) w cs).
Proof.
  induction cs as [|c cs IH]; intros w; simpl; [apply rtc_refl|].
  eapply rtc_l; [apply (step_call c) | apply IH].
Qed.

(** ** Invariants of the abstract machine *)

Lemma keeps_same_identity m0 : keeps (same_identity m0).
Proof.
  intros c ack now m Hm. unfold same_identity in *.
  destruct c; simpl; repeat case_match; simpl; done.
Qed.

(** Use the guard that failed. *)
Ltac guard_false :=
  match goal with
  | G : reachable_now _ = false |- _ => apply reachable_now_false in G as [? ?]
  | G : receiving _ = false |- _ => apply receiving_false in G as [? ?]
  end.

Lemma keeps_queue_needs_pwrdown : keeps queue_needs_pwrdown.
Proof.
  intros c ack now m Hm. unfold queue_needs_pwrdown in *.
  destruct c; simpl; repeat case_match; simpl; try done; try (by guard_false).
  destruct (queued_commands m); simpl; [done|]. intros _. by apply Hm.
Qed.

Lemma keeps_awake_means_flushed : keeps awake_means_flushed.
Proof.
  intros c ack now m Hm. unfold awake_means_flushed in *.
  destruct c; simpl; repeat case_match; simpl; try done; intros Hs;
    try (by guard_false). by rewrite Hm.
Qed.

(** What holds of the abstract machine holds of the implementation. *)
Lemma reachable_abs `{!ServerSends D} `{!ServerFramed D} w0 w :
  reachable w0 w → rtc mote_trans (abs w0) (abs w).
Proof.
  induction 1 as [|w1 w2 w3 Hs _ IH]; [done|].
  eapply rtc_l; [by apply step_abs | exact IH].
Qed.

Lemma mote_trans_keeps Inv a b :
  keeps Inv → rtc mote_trans a b → Inv a.1 → Inv b.1.
Proof.
  intros Hk. induction 1 as [|a b c Hs _ IH]; [done|].
  intros Ha. apply IH. destruct Hs; simpl in *; [by apply Hk | done].
Qed.

(** The clock and the time stamp of the abstract machine after a run. *)
Lemma mote_ltrans_stamp ls a b :
  lrtc mote_ltrans ls a b →
  b.2 = clock_after ls a.2 ∧ timestamp b.1 = last_stamp ls a.2 (timestamp a.1).
Proof.
  induction 1 as [a|l ls a b c Hl _ [IHc IHs]]; [done|].
  rewrite IHc, IHs. destruct Hl as [c' res m now _ | dt m now]; [|done].
  by destruct c'; simpl; repeat case_match.
Qed.

Lemma reachable_keeps `{!ServerSends D} `{!ServerFramed D} Inv w0 w :
  keeps Inv → reachable w0 w → Inv (mote w0) → Inv (mote w).
Proof.
  intros Hk Hr%reachable_abs. apply (mote_trans_keeps Inv _ _ Hk Hr).
Qed.

(** ** The theorems *)

(** C31: under a delegate that transmits reliably and never writes to the
    mote, every transition of the implementation -- any method called with
    any arguments, or time passing -- is a transition of the abstract
    machine [mote_step] on the mote and the clock; hence every run of the
    implementation is, with the delegate forgotten, a run of the abstract
    machine.  The refinement is labelled: the abstract transition is the
    one of the same call with the same result, the result is the one the
    abstract machine prescribes wherever the mote decides it, and the
    mote changes according to whether the call returned [True]; a run of
    the implementation is a run of the abstract machine with the same
    calls and results in the same order. *)
Theorem step_refines `{!ServerSends D} `{!ServerFramed D} w w' :
  (step w w' → mote_trans (abs w) (abs w')) ∧
  (reachable w w' → rtc mote_trans (abs w) (abs w')) ∧
  (∀ l, lstep l w w' → mote_ltrans l (abs w) (abs w')) ∧
  (∀ ls, lrtc lstep ls w w' → lrtc mote_ltrans ls (abs w) (abs w')).
Proof.
  split_and!; [apply step_abs | apply reachable_abs | intros l; apply lstep_abs |].
  intros ls. apply (lrtc_simulation lstep mote_ltrans abs). intros l. apply lstep_abs.
Qed.

(** C32: in every world reachable from a world [w0], the attributes that
    identify and configure the mote -- product code, the two identifiers,
    definition, nonce, both register lists, power-down flag, addressing
    mode -- are those of [w0]: no method re-derives or reassigns them. *)
Theorem identity_is_invariant `{!ServerSends D} `{!ServerFramed D} w0 w :
  reachable w0 w → same_identity (mote w0) (mote w).
Proof.
  intros Hr. apply (reachable_keeps _ w0 w (keeps_same_identity (mote w0)) Hr).
  by unfold same_identity.
Qed.

(** C33: in every world the sequential machine reaches from a fresh
    mote, a non-empty queue implies that the device has the power-down
    mode -- commands are only ever deferred for motes that sleep -- and a
    mote recorded in state RXON has an empty queue: the queue is flushed
    on entry to RXON and nothing is queued while the mote is awake. *)
Theorem fresh_queue_invariants `{!ServerSends D} `{!ServerFramed D} w0 w :
  fresh (mote w0) → reachable w0 w →
  (queued_commands (mote w) ≠ [] → pwrdownmode (mote w) = true) ∧
  (state (mote w) = RXON → queued_commands (mote w) = []).
Proof.
  intros [Hq _] Hr. split.
  - apply (reachable_keeps _ w0 w keeps_queue_needs_pwrdown Hr). by intros ?.
  - apply (reachable_keeps _ w0 w keeps_awake_means_flushed Hr). by intros ?.
Qed.

(** C35: the time stamp of the mote is the reading of the clock at the
    last call of [updateTimeStamp].  Under a delegate that transmits
    reliably and never writes to the mote, after any run of calls and
    changes of the clock, forwards or backwards, the time stamp is the
    reading the clock had when [updateTimeStamp] was called last in the
    run, and the time stamp from before the run when it was not called:
    no other method stamps, and no call changes the clock. *)
Theorem timestamp_is_last_update `{!ServerSends D} `{!ServerFramed D} ls w w' :
  lrtc lstep ls w w' →
  clock w' = clock_after ls (clock w) ∧
  timestamp (mote w') = last_stamp ls (clock w) (timestamp (mote w)).
Proof.
  intros Hr. apply (mote_ltrans_stamp ls (abs w) (abs w')).
  apply (lrtc_simulation lstep mote_ltrans abs); [|done]. intros l. apply lstep_abs.
Qed.

End machine.

(** ** Witnesses *)

Lemma sample_reachable :
  reachable sample_world
    (foldl (λ w c, (run_call c w).2) (tick 5 sample_world) sample_run).
Proof. eapply rtc_l; [by apply (step_tick 5) | apply reachable_run]. Defined.

Lemma step_refines_witness :
  mote_trans (abs sample_world) (abs (run_call (CSaveAddressCommand 6) sample_world).2) ∧
  rtc mote_trans (abs sample_world)
      (abs (foldl (λ w c, (run_call c w).2) (tick 5 sample_world) sample_run)) ∧
  lrtc mote_ltrans (run_inputs sample_inputs sample_world).1
       (abs sample_world) (abs (run_inputs sample_inputs sample_world).2).
Proof.
  split_and!; [apply step_refines, step_call | apply step_refines, sample_reachable |].
  apply step_refines, run_inputs_lrtc.
Defined.

Lemma identity_is_invariant_witness :
  same_identity sample_mote
    (mote (foldl (λ w c, (run_call c w).2) (tick 5 sample_world) sample_run)).
Proof. exact (identity_is_invariant _ _ sample_reachable). Defined.

Lemma fresh_queue_invariants_witness :
  pwrdownmode (mote (run_call (CSaveAddressCommand 6) sample_world).2) = true ∧
  queued_commands (mote (foldl (λ w c, (run_call c w).2) (tick 5 sample_world) sample_run))
  = [].
Proof.
  split.
  - apply (fresh_queue_invariants sample_world); [done | | by vm_compute].
    eapply rtc_l; [apply step_call | apply rtc_refl].
  - apply (fresh_queue_invariants sample_world);
      [done | exact sample_reachable | by vm_compute].
Defined.

Lemma timestamp_is_last_update_witness :
  clock (run_inputs sample_inputs sample_world).2 = 1990 ∧
  timestamp (mote (run_inputs sample_inputs sample_world).2) = 2005.
Proof.
  exact (timestamp_is_last_update _ _ _ (run_inputs_lrtc sample_inputs sample_world)).
Defined.

(** What is observed of the sample inputs: the commands are queued, the
    stamp and the report of state return nothing, and the setter returns
    the acknowledgement of the delegate. *)
Example sample_observations :
  (run_inputs sample_inputs sample_world).1
  = [OTick 5; OCall (CSaveAddressCommand 6) (Return RNone); OCall CUpdateTimeStamp (Return RNone);
     OTick (-15); OCall (CUpdateState RXON) (Return RNone);
     OCall (CSetAddress 6) (Return (RBool true))].
Proof. by vm_compute. Qed.

(** The sample run ends awake, flushed, stamped at the time of the
    stamp, with both saved commands on the wire in order. *)
Example sample_run_result :
  let w := foldl (λ w c, (run_call c w).2) (tick 5 sample_world) sample_run in
  state (mote w) = RXON ∧ queued_commands (mote w) = [] ∧ timestamp (mote w) = 2005 ∧
  rec_wire (srv w)
  = [ SwapCommandPacket 5 ID_DEVICE_ADDR (SwapValue_new 6 1) 7 false;
      SwapCommandPacket 5 ID_TX_INTERVAL (SwapValue_new 60 2) 7 false ].
Proof. by vm_compute. Qed.
