(* ===== verification/Trace.v ===== *)
(** * Trace: the calls a mote makes on its delegate

    What a controller observes of a mote is the sequence of calls the
    mote's methods make on the delegate: [p.send(server)],
    [server.setMoteRegister(mote, regId, value)] and
    [server.queryMoteRegister(mote, regId)].  [Logged D] wraps any
    delegate [D] and records these calls, in order, before forwarding
    them.  [mote_events] gives the calls of every method as a function of
    the mote, the labelled runs [mote_run] of the abstract machine carry
    them, and every run of the implementation is a run of the abstract
    machine with the same calls.  On the path through [save_command] and
    [update_state] the commands requested are handed to the delegate once
    each and in the order of the requests. *)

From stdpp Require Import relations.
From S2P Require Import Prelude PyBase SwapDefs MoteData Server MoteOps MoteSpec Samples.
From S2P Require Import Sending Queue Setters Machine.

Local Open Scope Z_scope.

(** ** Events and the logging delegate *)

(** A call on the delegate. *)
Inductive Event : Type :=
| ESend (p : SwapPacket)
| ESet (regId : Z) (value : SwapValue)
| EQuery (regId : Z).

#[export] Instance Event_eq_dec : EqDecision Event.
Proof. solve_decision. Defined.

(** A delegate with the log of the calls made on it. *)
Record Logged (D : Type) : Type := mkLogged {
  inner : D;
  log : list Event;
}.
Arguments mkLogged {D} _ _.
Arguments inner {D} _.
Arguments log {D} _.

(** The world the wrapped delegate sees, and the world with its log. *)
Definition unlog {D} (w : World (Logged D)) : World D :=
  mkWorld (mote w) (inner (srv w)) (clock w).

Definition relog {D} (l : list Event) (w : World D) : World (Logged D) :=
  mkWorld (mote w) (mkLogged (srv w) l) (clock w).

(** Record the call, then make it. *)
Definition logged {D A} (ev : Event) (m : M (World D) A) : M (World (Logged D)) A := λ w,
  let r := m (unlog w) in (r.1, relog (log (srv w) ++ [ev]) r.2).

#[export] Instance Logged_server `{SwapServer D} : SwapServer (Logged D) := {
  send p := logged (ESend p) (send p);
  setMoteRegister regId value := logged (ESet regId value) (setMoteRegister regId value);
  queryMoteRegister regId := logged (EQuery regId) (queryMoteRegister regId);
  wire s := wire (inner s);
}.

(** ** The calls of each method *)

(** The calls a method makes on the delegate, from the mote it is called
    on. *)
Definition mote_events (c : Call) (m : SwapMote) : list Event :=
  match c with
  | CCmdRegister regId value => [ESend (command_packet m (regId, value))]
  | CQryRegister regId => [ESend (SwapQueryPacket (address m) regId (extended_addr m))]
  | CStaRegister regId =>
      match getRegister regId m with
      | Return (Some reg) =>
          [ESend (SwapStatusPacket (address m) regId (reg_value reg) (extended_addr m))]
      | _ => []
      end
  | CCmdRegisterWack regId value => [ESet regId value]
  | CQryRegisterWack regId => [EQuery regId]
  | CSaveCommand regid value => if reachable_now m then [ESet regid value] else []
  | CSaveAddressCommand addr =>
      if reachable_now m then [ESet ID_DEVICE_ADDR (SwapValue_new addr 1)] else []
  | CSaveTxIntervalCommand interval =>
      if reachable_now m then [ESet ID_TX_INTERVAL (SwapValue_new interval 2)] else []
  | CGetSavedCommand | CUpdateTimeStamp => []
  | CSetAddress addr => [ESet ID_DEVICE_ADDR (SwapValue_new addr 1)]
  | CSetNetworkId netId => [ESet ID_NETWORK_ID (SwapValue_new netId 2)]
  | CSetFreqChannel channel => [ESet ID_FREQ_CHANNEL (SwapValue_new channel 1)]
  | CSetSecurity secu => [ESet ID_SECU_OPTION (SwapValue_new secu 1)]
  | CSetTxInterval interval => [ESet ID_TX_INTERVAL (SwapValue_new interval 2)]
  | CRestart => [ESet ID_SYSTEM_STATE (SwapValue_new RESTART 1)]
  | CLeaveSync => [ESet ID_SYSTEM_STATE (SwapValue_new RXOFF 1)]
  | CUpdateState st =>
      if receiving st then map (λ c, ESend (command_packet m c)) (queued_commands m) else []
  end.

(** The runs of the abstract machine, with the calls they make. *)
Inductive mote_run : SwapMote * Z → list Event → SwapMote * Z → Prop :=
| mote_run_nil a : mote_run a [] a
| mote_run_call c ack m now es b :
    mote_run (mote_step c ack now m, now) es b →
    mote_run (m, now) (mote_events c m ++ es) b
| mote_run_tick dt m now es b :
    mote_run (m, now + dt) es b → mote_run (m, now) es b.

(** ** Commands *)

(** The register write an event hands to the delegate, if it is one. *)
Definition command_of (e : Event) : option (Z * SwapValue) :=
  match e with
  | ESend (SwapCommandPacket _ regId value _ _) => Some (regId, value)
  | ESet regId value => Some (regId, value)
  | _ => None
  end.

Definition commands (es : list Event) : list (Z * SwapValue) := omap command_of es.

(** The register write a call of the queuing path asks for. *)
Definition requested (c : Call) : list (Z * SwapValue) :=
  match c with
  | CSaveCommand regid value => [(regid, value)]
  | CSaveAddressCommand addr => [(ID_DEVICE_ADDR, SwapValue_new addr 1)]
  | CSaveTxIntervalCommand interval => [(ID_TX_INTERVAL, SwapValue_new interval 2)]
  | _ => []
  end.

(** The calls of a client that writes registers through [save_command]
    only: the three saving methods, the reports of state, and the methods
    that write no register. *)
Definition queue_client (c : Call) : bool :=
  match c with
  | CSaveCommand _ _ | CSaveAddressCommand _ | CSaveTxIntervalCommand _
  | CUpdateState _ | CUpdateTimeStamp
  | CQryRegister _ | CStaRegister _ | CQryRegisterWack _ => true
  | _ => false
  end.

(** ** A logged run of the sample mote *)

Definition logged_world : World (Logged Recorder) := relog [] sample_world.

(** Two commands saved asleep, a query, the mote waking up, a command
    saved awake. *)
Definition client_run : list Call :=
  [CSaveAddressCommand 6; CSaveTxIntervalCommand 60; CQryRegister 11; CUpdateState RXON;
   CSaveCommand ID_NETWORK_ID (SwapValue_new 9 2)].

Section trace.
Context `{SwapServer D}.
Implicit Types (w : World (Logged D)) (m : SwapMote) (es : list Event).

(** ** The logging delegate is as good as the delegate it wraps *)

Lemma logged_frames {A} ev (k : M (World D) A) : frames k → frames (logged ev k).
Proof. intros Hk w. by destruct (Hk (unlog w)). Qed.

#[export] Instance Logged_framed `{!ServerFramed D} : ServerFramed (Logged D).
Proof.
  split; intros; apply logged_frames;
    [apply send_frames | apply setMoteRegister_frames | apply queryMoteRegister_frames].
Qed.

#[export] Instance Logged_sends `{!ServerSends D} : ServerSends (Logged D).
Proof.
  split; intros p w; simpl; [apply send_Return | apply (send_wire p (unlog w))].
Qed.

(** ** The log after a call *)

Lemma commands_app es es' : commands (es ++ es') = commands es ++ commands es'.
Proof. apply omap_app. Qed.

Lemma commands_map_send m q : commands (map (λ c, ESend (command_packet m c)) q) = q.
Proof. induction q as [|[regid value] q IH]; simpl; [done|]. by rewrite IH. Qed.

(** The turns of the flush loop send their commands, in order. *)
Lemma flush_loop_log `{!ServerSends D} `{!ServerFramed D} q1 : ∀ i w q2,
  queued_commands (mote w) = q1 ++ q2 →
  log (srv (for_range_from i (length q1) flush_one w).2)
  = log (srv w) ++ map (λ c, ESend (command_packet (mote w) c)) q1.
Proof.
  induction q1 as [|c q1 IH]; intros i w q2 E.
  { simpl. by rewrite app_nil_r. }
  cbn [length]. rewrite for_range_from_S.
  rewrite (bind_Return _ _ _ _ _ (flush_one_cons i w c (q1 ++ q2) E)).
  set (w1 := on_mote (set_queued_commands (q1 ++ q2)) w).
  destruct (send_frames (command_packet (mote w) c) w1) as [Hm _].
  rewrite (IH _ _ q2), Hm by (by rewrite Hm). simpl. by rewrite <-app_assoc.
Qed.

Lemma update_state_log `{!ServerSends D} `{!ServerFramed D} st w :
  log (srv (update_state st w).2) = log (srv w) ++ mote_events (CUpdateState st) (mote w).
Proof.
  rewrite update_state_run. unfold mote_events, receiving.
  destruct (_ || _); [|simpl; by rewrite app_nil_r]. unfold for_range.
  by rewrite (flush_loop_log (queued_commands (mote w)) 0%nat (on_mote (set_state st) w) [])
    by (by rewrite app_nil_r).
Qed.

Lemma save_command_log regid value w :
  log (srv (save_command regid value w).2)
  = log (srv w) ++ mote_events (CSaveCommand regid value) (mote w).
Proof.
  rewrite save_command_run. unfold mote_events, reachable_now.
  destruct (_ || _); [by rewrite fmap_state | simpl; by rewrite app_nil_r].
Qed.

Lemma mirror_log f regId value w :
  log (srv (mirror f (setMoteRegister regId value w)).2) = log (srv w) ++ [ESet regId value].
Proof. by destruct (mirror_rest f (setMoteRegister regId value w)) as [-> _]. Qed.

(** The calls a method makes are those of [mote_events]. *)
Lemma run_call_log `{!ServerSends D} `{!ServerFramed D} c w :
  log (srv (run_call c w).2) = log (srv w) ++ mote_events c (mote w).
Proof.
  destruct c; cbn [run_call]; rewrite ?void_run;
    try apply save_command_log; try apply update_state_log;
    rewrite ?setAddress_run, ?setSecurity_run, ?setTxInterval_run; try apply mirror_log;
    rewrite ?cmdRegister_run, ?setFreqChannel_run, ?fmap_state; try done.
  - unfold staRegister. rewrite bind_unfold. simpl.
    destruct (getRegister regId (mote w)) as [[reg|]|e]; simpl; by rewrite ?app_nil_r.
  - unfold get_saved_command, queue_popleft.
    destruct (queued_commands (mote w)); simpl; by rewrite app_nil_r.
  - simpl. by rewrite app_nil_r.
Qed.

(** ** Runs *)

Lemma mote_run_app a es b es' c :
  mote_run a es b → mote_run b es' c → mote_run a (es ++ es') c.
Proof.
  induction 1 as [| c0 ack m now es b Hr IH | dt m now es b Hr IH]; intros Hc; [done| |].
  - rewrite <-app_assoc. apply (mote_run_call c0 ack), IH, Hc.
  - apply (mote_run_tick dt), IH, Hc.
Qed.

Lemma step_run `{!ServerSends D} `{!ServerFramed D} w w' :
  step w w' → ∃ es, mote_run (abs w) es (abs w') ∧ log (srv w') = log (srv w) ++ es.
Proof.
  intros [c w1 | dt w1].
  - exists (mote_events c (mote w1) ++ []). destruct (run_call_abs c w1) as [ack ->].
    split; [apply (mote_run_call c ack), mote_run_nil | by rewrite app_nil_r, run_call_log].
  - exists []. split; [apply (mote_run_tick dt), mote_run_nil | by rewrite app_nil_r].
Qed.

Lemma reachable_run_log `{!ServerSends D} `{!ServerFramed D} w w' :
  reachable w w' → ∃ es, mote_run (abs w) es (abs w') ∧ log (srv w') = log (srv w) ++ es.
Proof.
  induction 1 as [w | w1 w2 w3 Hs _ (es' & Hr' & Hl')].
  { exists []. split; [constructor | by rewrite app_nil_r]. }
  destruct (step_run w1 w2 Hs) as (es & Hr & Hl). exists (es ++ es').
  split; [by eapply mote_run_app | by rewrite Hl', Hl, app_assoc].
Qed.

(** ** The queuing path *)

(** A mote for which [save_command] transmits at once has nothing
    queued. *)
Lemma reachable_now_flushed m :
  reachable_now m = true → queue_needs_pwrdown m → awake_means_flushed m →
  queued_commands m = [].
Proof.
  unfold reachable_now. intros [Hs%bool_decide_eq_true | Hp%negb_true_iff]%orb_true_iff Hq Ha;
    [by apply Ha|].
  destruct (queued_commands m) eqn:E; [done|]. rewrite Hq in Hp; [done|]. by rewrite E.
Qed.

(** One call of the queuing path: what it hands over and what it leaves
    queued is what was queued followed by what it asks for. *)
Lemma client_step_delivers c ack now m :
  queue_client c = true → queue_needs_pwrdown m → awake_means_flushed m →
  commands (mote_events c m) ++ queued_commands (mote_step c ack now m)
  = queued_commands m ++ requested c.
Proof.
  intros Hc Hq Ha.
  destruct c; try done; cbn [mote_events mote_step requested];
    try (destruct (reachable_now m) eqn:E;
         [by rewrite (reachable_now_flushed m E Hq Ha) | done]);
    try (simpl; by rewrite app_nil_r).
  - destruct (getRegister regId m) as [[reg|]|e]; simpl; by rewrite app_nil_r.
  - destruct (receiving st); simpl; [by rewrite commands_map_send | by rewrite app_nil_r].
Qed.

(** A run of the queuing path: what it hands over and leaves queued is
    what was handed over and queued before, followed by what its calls
    ask for, in their order. *)
Lemma client_run_delivers `{!ServerSends D} `{!ServerFramed D} cs : ∀ w,
  forallb queue_client cs = true →
  queue_needs_pwrdown (mote w) → awake_means_flushed (mote w) →
  commands (log (srv (foldl (λ w c, (run_call c w).2) w cs)))
    ++ queued_commands (mote (foldl (λ w c, (run_call c w).2) w cs))
  = commands (log (srv w)) ++ queued_commands (mote w) ++ flat_map requested cs.
Proof.
  induction cs as [|c cs IH]; intros w Hcs Hq Ha; simpl.
  { by rewrite app_nil_r. }
  apply andb_true_iff in Hcs as [Hc Hcs].
  destruct (run_call_abs c w) as [ack [= Hm _]].
  rewrite IH, run_call_log, Hm; [|done|rewrite Hm..].
  - rewrite commands_app, <-!app_assoc. f_equal.
    by rewrite !app_assoc, (client_step_delivers c ack (clock w) (mote w)).
  - by apply keeps_queue_needs_pwrdown.
  - by apply keeps_awake_means_flushed.
Qed.

(** C12: under a delegate that transmits reliably and never writes to the
    mote, the calls each method makes on the delegate are those the
    abstract machine prescribes for it ([mote_events]): one [send] of the
    packet built from the mote's attributes for [cmdRegister],
    [qryRegister] and a successful [staRegister], one confirmed exchange
    for the confirmed methods, the setters and an immediate
    [save_command], one [send] per queued command, in order, for a flush,
    and none otherwise.  Hence every run of the implementation is a run
    of the abstract machine with the same sequence of calls. *)
Theorem trace_refines `{!ServerSends D} `{!ServerFramed D} w w' :
  (∀ c, log (srv (run_call c w).2) = log (srv w) ++ mote_events c (mote w)) ∧
  (reachable w w' →
   ∃ es, mote_run (abs w) es (abs w') ∧ log (srv w') = log (srv w) ++ es).
Proof. split; [intros c; apply run_call_log | apply reachable_run_log]. Qed.

(** C6: in the sequential machine register writes are delivered once and
    in order.  On a mote whose queue is empty unless the device powers
    down and empty when it is recorded awake -- as after construction --
    and under a delegate that transmits reliably and never writes to the
    mote, after any sequence of calls of the saving methods, reports of
    state and methods that write no register, the register writes handed
    to the delegate so far, followed by those still queued, are those
    handed over and queued before followed by the writes requested, each
    once and in the order of the requests. *)
Theorem in_order_delivery `{!ServerSends D} `{!ServerFramed D} cs w :
  forallb queue_client cs = true →
  queue_needs_pwrdown (mote w) → awake_means_flushed (mote w) →
  let w' := foldl (λ w c, (run_call c w).2) w cs in
  commands (log (srv w')) ++ queued_commands (mote w')
  = commands (log (srv w)) ++ queued_commands (mote w) ++ flat_map requested cs.
Proof. intros Hcs Hq Ha. by apply client_run_delivers. Qed.

End trace.

(** ** Witnesses *)

Lemma trace_refines_witness :
  log (srv (run_call (CSetAddress 9) logged_world).2)
    = [ESet ID_DEVICE_ADDR (SwapValue_new 9 1)] ∧
  ∃ es, mote_run (abs logged_world) es
          (abs (foldl (λ w c, (run_call c w).2) logged_world client_run)) ∧
        log (srv (foldl (λ w c, (run_call c w).2) logged_world client_run)) = es.
Proof.
  split; [apply (proj1 (trace_refines logged_world logged_world) (CSetAddress 9))|].
  apply (proj2 (trace_refines logged_world _)), reachable_run.
Defined.

Lemma in_order_delivery_witness :
  commands (log (srv (foldl (λ w c, (run_call c w).2) logged_world client_run)))
    ++ queued_commands (mote (foldl (λ w c, (run_call c w).2) logged_world client_run))
  = [(ID_DEVICE_ADDR, SwapValue_new 6 1); (ID_TX_INTERVAL, SwapValue_new 60 2);
     (ID_NETWORK_ID, SwapValue_new 9 2)].
Proof. by apply (in_order_delivery client_run logged_world). Defined.

(** The log of the sample run: the query at once, the two saved commands
    at the report of RXON, the last command as a confirmed exchange. *)
Example client_run_log :
  log (srv (foldl (λ w c, (run_call c w).2) logged_world client_run))
  = [ ESend (SwapQueryPacket 5 11 false);
      ESend (SwapCommandPacket 5 ID_DEVICE_ADDR (SwapValue_new 6 1) 7 false);
      ESend (SwapCommandPacket 5 ID_TX_INTERVAL (SwapValue_new 60 2) 7 false);
      ESet ID_NETWORK_ID (SwapValue_new 9 2) ].
Proof. by vm_compute. Qed.

(** A direct [cmdRegister] does not wait for the queue: outside the
    queuing path the order of requests is not the order of delivery. *)
Example cmdRegister_overtakes :
  commands (log (srv (foldl (λ w c, (run_call c w).2) logged_world
                        [CSaveAddressCommand 6; CCmdRegister ID_NETWORK_ID (SwapValue_new 9 2);
                         CUpdateState RXON])))
  = [(ID_NETWORK_ID, SwapValue_new 9 2); (ID_DEVICE_ADDR, SwapValue_new 6 1)].
Proof. by vm_compute. Qed.
