(* ===== verification/Footprint.v ===== *)
(** * Footprint: what the methods may write, for any delegate

    The theorems of [Machine] assume a delegate that never writes to the
    mote.  Here nothing is assumed of the delegate: [writes] lists the
    seven writes the methods of [SwapMote] themselves make to the object,
    and every property of the world that is [stable] under these writes
    and under the passing of time, and that the delegate's three
    operations keep, holds in every reachable world.  The proof goes
    through the methods with the rules of [preserves]. *)

From stdpp Require Import relations.
From S2P Require Import Prelude PyBase SwapDefs MoteData Server MoteOps MoteSpec Samples.
From S2P Require Import Machine.

Local Open Scope Z_scope.

Section footprint.
Context `{SwapServer D}.
Implicit Types (w : World D) (I : World D → Prop).

(** The mote after one write of a method, in the world [w]: an attribute
    mirrored by a setter, the reported state, the time stamp set to the
    current time, a command appended to the queue, the oldest command
    removed from it. *)
Inductive writes (w : World D) : SwapMote → Prop :=
| writes_address addr : writes w (set_address addr (mote w))
| writes_security secu : writes w (set_security secu (mote w))
| writes_txinterval interval : writes w (set_txinterval interval (mote w))
| writes_state st : writes w (set_state st (mote w))
| writes_timestamp : writes w (set_timestamp (clock w) (mote w))
| writes_append regid value : writes w (queue_append regid value (mote w))
| writes_popleft : writes w (set_queued_commands (tail (queued_commands (mote w))) (mote w)).

(** A property of worlds that the writes and the changes of the clock
    keep. *)
Definition stable I : Prop :=
  (∀ w m', writes w m' → I w → I (set_mote m' w)) ∧
  (∀ dt w, I w → I (tick dt w)).

(** A property of worlds that the delegate's operations keep. *)
Definition delegate_keeps I : Prop :=
  (∀ p, preserves I (send p)) ∧
  (∀ regId value, preserves I (setMoteRegister regId value)) ∧
  (∀ regId, preserves I (queryMoteRegister regId)).

(** Nothing but the queue differs from [m0]. *)
Definition identity_of (m0 : SwapMote) (w : World D) : Prop := same_identity m0 (mote w).

(** ** The methods, one by one *)

Section methods.
Context (I : World D → Prop) (Hw : stable I) (Hd : delegate_keeps I).

Lemma preserves_send p : preserves I (send p).
Proof. apply Hd. Qed.

Lemma preserves_setMoteRegister regId value : preserves I (cmdRegisterWack regId value).
Proof. apply Hd. Qed.

Lemma preserves_queryMoteRegister regId : preserves I (qryRegisterWack regId).
Proof. apply Hd. Qed.

Lemma preserves_assign f : (∀ w, writes w (f (mote w))) → preserves I (assign f).
Proof. intros Hf w HI. apply (proj1 Hw w _ (Hf w) HI). Qed.

Lemma preserves_updateTimeStamp : preserves I updateTimeStamp.
Proof. intros w HI. apply (proj1 Hw w _ (writes_timestamp w) HI). Qed.

Lemma preserves_get_saved_command : preserves I get_saved_command.
Proof.
  intros w HI. destruct (get_saved_command_mote w) as [Hm Hc].
  pose proof (proj1 Hw w _ (writes_popleft w) HI) as HI'.
  unfold get_saved_command in *. destruct (queue_popleft (mote w)) as [o m'].
  simpl in *. by rewrite Hm.
Qed.

#[local] Hint Resolve preserves_send preserves_setMoteRegister preserves_queryMoteRegister
  preserves_updateTimeStamp preserves_get_saved_command : swap.
#[local] Hint Extern 1 (preserves _ (assign _)) =>
  apply preserves_assign; intros; constructor : swap.

Lemma preserves_cmdRegister regId value : preserves I (cmdRegister regId value).
Proof. unfold cmdRegister, self. eauto with swap. Qed.

Lemma preserves_flush_one i : preserves I (flush_one i).
Proof.
  unfold flush_one. apply preserves_bind; [auto with swap|]. intros [regid value].
  eauto using preserves_cmdRegister with swap.
Qed.

Lemma preserves_save_command regid value : preserves I (save_command regid value).
Proof. unfold save_command, self. eauto 7 with swap. Qed.

Lemma preserves_update_state st : preserves I (update_state st).
Proof.
  unfold update_state, self, for_range. eauto 8 using preserves_flush_one with swap.
Qed.

(** Every method keeps [I]. *)
Lemma preserves_run_call c : preserves I (run_call c).
Proof.
  destruct c; cbn [run_call]; unfold void;
    eauto using preserves_cmdRegister, preserves_save_command, preserves_update_state
      with swap;
    unfold qryRegister, staRegister, save_address_command, save_txinterval_command,
      setAddress, setNetworkId, setFreqChannel, setSecurity, setTxInterval, restart,
      leaveSync, self;
    eauto 8 using preserves_save_command with swap.
Qed.

End methods.

(** ** Identity, for delegates that only enqueue *)

Lemma identity_of_stable m0 : stable (identity_of m0).
Proof.
  split; [|done]. intros w m' Hm' HI. unfold identity_of, same_identity in *.
  by destruct Hm'.
Qed.

Lemma enqueues_keeps_identity {A} m0 (m : M (World D) A) :
  enqueues m → preserves (identity_of m0) m.
Proof.
  intros Hm w HI. destruct (Hm w) as (Hs & _). unfold identity_of in *. simpl.
  by rewrite <-Hs.
Qed.

(** ** The theorem *)

(** C40: for any delegate whatsoever, a property of the world that is
    stable under the seven writes of [writes] and under the passing of
    time, and that the delegate's own operations keep, holds in every
    world reachable from a world where it holds: the methods of the class
    change the mote by these writes and through the delegate, and in no
    other way. *)
Theorem footprint_invariant I w0 w :
  stable I → delegate_keeps I → reachable w0 w → I w0 → I w.
Proof.
  intros Hs Hd. induction 1 as [|w1 w2 w3 Hstep _ IH]; [done|].
  intros HI. apply IH. destruct Hstep as [c w1 | dt w1].
  - by apply preserves_run_call.
  - by apply Hs.
Qed.

End footprint.

(** ** Witness: the identity of the mote under the resubmitting delegate *)

Lemma Resubmitter_keeps_identity m0 : delegate_keeps (D := Resubmitter) (identity_of m0).
Proof.
  split_and!; intros; apply enqueues_keeps_identity;
    [apply send_enqueues | apply frames_enqueues, frames_ret..].
Qed.

Lemma footprint_invariant_witness :
  identity_of sample_mote (foldl (λ w c, (run_call c w).2) resubmit_world sample_run).
Proof.
  apply (footprint_invariant (identity_of sample_mote) resubmit_world);
    [apply identity_of_stable | apply Resubmitter_keeps_identity | apply reachable_run |].
  by vm_compute.
Defined.
