(* ===== verification/Wf.v ===== *)
(** * Wf: the well-formedness of a mote, from its construction on

    [wf_mote] collects what a [SwapMote] object satisfies as long as its
    methods are called with arguments of the expected types: the two
    identifiers are the parse of the product code, the register lists and
    the power-down flag are those of the device definition, the state is
    one of the four protocol states, every queued value is a string of
    bytes, commands are queued only for a device that powers down, and
    never while the mote is recorded awake.  The constructor establishes
    it and every method preserves it. *)

From stdpp Require Import relations.
From S2P Require Import Prelude PyBase PyLong SwapDefs MoteData Server MoteOps MoteSpec.
From S2P Require Import Samples Queue Setters Construct Machine.

Local Open Scope Z_scope.

(** A value whose data are bytes. *)
Definition wf_value (v : SwapValue) : Prop := Forall (λ b, 0 ≤ b < 256) (sv_data v).

(** A state of [SwapState]. *)
Definition valid_state (st : Z) : Prop := st ∈ [RESTART; RXON; RXOFF; SYNC].

(** What the constructor derives from its arguments, for good. *)
Definition wf_static (m : SwapMote) : Prop :=
  parse_product_code (product_code m) = Return (manufacturer_id m, product_id m) ∧
  config m = None ∧
  regular_registers m = getRegList false (definition m) ∧
  config_registers m = getRegList true (definition m) ∧
  pwrdownmode m = def_pwrdownmode (definition m).

(** The invariant of the object. *)
Definition wf_mote (m : SwapMote) : Prop :=
  wf_static m ∧ valid_state (state m) ∧
  Forall (λ c, wf_value c.2) (queued_commands m) ∧
  queue_needs_pwrdown m ∧ awake_means_flushed m.

(** A call whose arguments have the expected types: a value to be queued
    is a string of bytes, a reported state is a protocol state. *)
Definition wf_call (c : Call) : Prop :=
  match c with
  | CSaveCommand _ value => wf_value value
  | CUpdateState st => valid_state st
  | _ => True
  end.

#[export] Instance wf_value_dec v : Decision (wf_value v).
Proof. unfold wf_value. apply _. Defined.

#[export] Instance valid_state_dec st : Decision (valid_state st).
Proof. unfold valid_state. apply _. Defined.

#[export] Instance wf_mote_dec m : Decision (wf_mote m).
Proof.
  unfold wf_mote, wf_static, queue_needs_pwrdown, awake_means_flushed. apply _.
Defined.

#[export] Instance wf_call_dec c : Decision (wf_call c).
Proof. destruct c; simpl; apply _. Defined.

Section wf.
Context `{SwapServer D}.
Implicit Types (w : World D) (m : SwapMote).

(** The transitions made with well-typed arguments. *)
Inductive wf_step : World D → World D → Prop :=
| wf_step_call c w : wf_call c → wf_step w (run_call c w).2
| wf_step_tick dt w : wf_step w (tick dt w).

(** ** The parts of the invariant *)

Lemma wf_value_new value n : wf_value (SwapValue_new value n).
Proof. apply be_bytes_range. Qed.

Lemma wf_static_identity m m' : same_identity m m' → wf_static m → wf_static m'.
Proof.
  unfold same_identity, wf_static. intros Hs Hm. destruct_and!.
  split_and!; congruence.
Qed.

Lemma mote_step_valid_state c ack now m :
  wf_call c → valid_state (state m) → valid_state (state (mote_step c ack now m)).
Proof. destruct c; simpl; repeat case_match; simpl; auto. Qed.

Lemma mote_step_wf_queue c ack now m :
  wf_call c →
  Forall (λ c, wf_value c.2) (queued_commands m) →
  Forall (λ c, wf_value c.2) (queued_commands (mote_step c ack now m)).
Proof.
  intros Hc Hq.
  destruct c; simpl; repeat case_match; simpl; auto using Forall_tail;
    (apply Forall_app_2; [done|]); apply Forall_singleton; simpl; auto using wf_value_new.
Qed.

(** Every abstract step with well-typed arguments keeps the invariant. *)
Lemma mote_step_wf c ack now m : wf_call c → wf_mote m → wf_mote (mote_step c ack now m).
Proof.
  intros Hc (Hs & Hst & Hq & Hp & Ha). split_and!.
  - eapply wf_static_identity; [|done]. apply keeps_same_identity. by unfold same_identity.
  - by apply mote_step_valid_state.
  - by apply mote_step_wf_queue.
  - by apply keeps_queue_needs_pwrdown.
  - by apply keeps_awake_means_flushed.
Qed.

(** ** The constructor establishes the invariant *)

Lemma init_wf load_definition server product_code addr secu nonce_ ext now w :
  SwapMote_init load_definition server product_code addr secu nonce_ ext now = Return w →
  wf_mote (mote w).
Proof.
  unfold SwapMote_init. destruct server as [s|]; [|done].
  destruct (parse_product_code product_code) as [[mf pr]|] eqn:Hp; [|done].
  destruct (load_definition _) as [d|]; [|done]. intros [= <-].
  split_and!; simpl; first [done | by intros ? | unfold valid_state; set_solver].
Qed.

(** ** Every method preserves it *)

Lemma wf_step_keeps `{!ServerSends D} `{!ServerFramed D} w w' :
  wf_step w w' → wf_mote (mote w) → wf_mote (mote w').
Proof.
  intros [c w1 Hc | dt w1] Hw; [|done].
  destruct (run_call_abs c w1) as [ack [= -> _]]. by apply mote_step_wf.
Qed.

Lemma wf_steps_keep `{!ServerSends D} `{!ServerFramed D} w w' :
  rtc wf_step w w' → wf_mote (mote w) → wf_mote (mote w').
Proof. induction 1; eauto using wf_step_keeps. Qed.

(** A sequence of well-typed calls is a sequence of such transitions. *)
Lemma wf_run cs : ∀ w, Forall wf_call cs → rtc wf_step w (foldl (λ w c, (run_call c w).2) w cs).
Proof.
  induction cs as [|c cs IH]; intros w Hcs; simpl; [done|].
  apply Forall_cons in Hcs as [Hc Hcs].
  eapply rtc_l; [by apply wf_step_call | by apply IH].
Qed.

(** C22: the invariant [wf_mote] is established by the constructor and
    preserved by every method called with well-typed arguments, under a
    delegate that transmits reliably and never writes to the mote: it
    holds in every world reached from a constructed mote. *)
Theorem wf_invariant `{!ServerSends D} `{!ServerFramed D}
    load_definition server product_code addr secu nonce_ ext now w0 w :
  SwapMote_init load_definition server product_code addr secu nonce_ ext now = Return w0 →
  rtc wf_step w0 w → wf_mote (mote w).
Proof. intros Hi%init_wf Hr. by apply (wf_steps_keep w0 w). Qed.

End wf.

(** A pass over the sample run from the constructed sample mote. *)
Lemma wf_invariant_witness :
  wf_mote (mote (foldl (λ w c, (run_call c w).2)
                       (mkWorld sample_mote sample_recorder 1000) sample_run)).
Proof.
  apply (wf_invariant sample_loader (Some sample_recorder) (Some "0000000100000002")
           5 0 7 false 1000 (mkWorld sample_mote sample_recorder 1000));
    [reflexivity|]. apply wf_run. by repeat constructor.
Defined.

(** A value that is not a string of bytes makes a queue that is not
    well-formed: the hypothesis on the arguments is needed. *)
Example ill_typed_value_breaks_wf :
  ¬ wf_mote (mote (run_call (CSaveCommand 9 (mkSwapValue [256])) sample_world).2).
Proof. apply (bool_decide_unpack _). by vm_compute. Qed.
