(* ===== verification/Liveness.v ===== *)
(** * Liveness: a queued command is eventually transmitted

    An execution is an infinite sequence of worlds, each obtained from the
    one before by a method call or by time passing.  Under the fairness
    assumption that the mote reports a receiving state again and again,
    and as long as nobody else takes commands out of the queue with
    [get_saved_command], every command that is in the queue at some point
    is on the wire at a later point, in the packet [cmdRegister] builds
    from the mote's attributes at the time of the flush. *)

From stdpp Require Import relations.
From S2P Require Import Prelude PyBase SwapDefs MoteData Server MoteOps MoteSpec Samples.
From S2P Require Import Queue Setters Machine.

Local Open Scope Z_scope.

(** What happens between two worlds of an execution. *)
Inductive Label : Type :=
| LCall (c : Call)
| LTick (dt : N).

#[export] Instance Label_eq_dec : EqDecision Label.
Proof. solve_decision. Defined.

(** The mote reports a receiving state. *)
Definition wakes (l : Label) : Prop :=
  match l with
  | LCall (CUpdateState st) => st = RXON ∨ st = SYNC
  | _ => False
  end.

(** Somebody takes a command out of the queue. *)
Definition drains (l : Label) : Prop := l = LCall CGetSavedCommand.

#[export] Instance wakes_dec l : Decision (wakes l).
Proof. destruct l as [[]|]; simpl; apply _. Defined.

(** Fairness: after every point the mote reports a receiving state. *)
Definition wakes_again (ls : nat → Label) : Prop :=
  ∀ n, ∃ k, (n ≤ k)%nat ∧ wakes (ls k).

(** Labels for the witness: a command saved, then the mote waking up at
    every other step. *)
Definition sample_labels (n : nat) : Label :=
  match n with
  | O => LCall (CSaveAddressCommand 6)
  | S k => if Nat.even k then LTick 5 else LCall (CUpdateState SYNC)
  end.

Section liveness.
Context `{SwapServer D}.
Implicit Types (w : World D) (ls : nat → Label) (e : nat → World D).

(** One step of an execution. *)
Definition exec_label (l : Label) (w : World D) : World D :=
  match l with
  | LCall c => (run_call c w).2
  | LTick dt => tick (Z.of_N dt) w
  end.

(** [e] is the execution of the labels [ls]. *)
Definition execution ls e : Prop := ∀ n, e (S n) = exec_label (ls n) (e n).

(** The execution of [ls] from [w]. *)
Fixpoint run_labels ls w (n : nat) : World D :=
  match n with
  | O => w
  | S k => exec_label (ls k) (run_labels ls w k)
  end.

(** ** Executions are runs of the machine *)

Lemma execution_run_labels ls w : execution ls (run_labels ls w).
Proof. by intros n. Qed.

Lemma exec_label_step l w : step w (exec_label l w).
Proof. destruct l as [c|dt]; [apply step_call | apply step_tick]. Qed.

Lemma execution_reachable ls e n : execution ls e → reachable (e 0%nat) (e n).
Proof.
  intros He. induction n as [|n IH]; [done|].
  eapply rtc_r; [exact IH|]. rewrite He. apply exec_label_step.
Qed.

(** ** One step *)

(** A step that neither flushes nor drains keeps what is queued. *)
Lemma mote_step_keeps_queued c' ack now m c :
  ¬ wakes (LCall c') → ¬ drains (LCall c') →
  c ∈ queued_commands m → c ∈ queued_commands (mote_step c' ack now m).
Proof.
  intros Hw Hd Hc. destruct c'; simpl in *; repeat case_match; simpl;
    try done; try (apply elem_of_app; by left).
  destruct Hw. by apply receiving_true.
Qed.

Lemma exec_label_keeps_queued `{!ServerSends D} `{!ServerFramed D} l w c :
  ¬ wakes l → ¬ drains l →
  c ∈ queued_commands (mote w) → c ∈ queued_commands (mote (exec_label l w)).
Proof.
  destruct l as [c'|dt]; [|done]. intros Hw Hd Hc. simpl.
  destruct (run_call_abs c' w) as [ack [= -> _]]. by apply mote_step_keeps_queued.
Qed.

(** A report of a receiving state puts what is queued on the wire. *)
Lemma exec_label_transmits `{!ServerSends D} `{!ServerFramed D} l w c :
  wakes l → c ∈ queued_commands (mote w) →
  command_packet (mote w) c ∈ wire (srv (exec_label l w)).
Proof.
  destruct l as [[]|]; try done. intros Hst Hc. cbn [exec_label run_call].
  destruct (update_state_receiving st w Hst) as (w' & Hrun & _ & Hw & _).
  rewrite Hrun. cbn [snd]. rewrite Hw. apply elem_of_app. right. by apply list_elem_of_In, in_map, list_elem_of_In.
Qed.

(** ** Executions *)

(** If the mote reports a receiving state [d] steps from now, what is
    queued now is transmitted by then. *)
Lemma transmitted_within `{!ServerSends D} `{!ServerFramed D} ls e :
  execution ls e → (∀ k, ¬ drains (ls k)) →
  ∀ d n c, wakes (ls (n + d)%nat) → c ∈ queued_commands (mote (e n)) →
    ∃ k, (n ≤ k ≤ n + d)%nat ∧ wakes (ls k) ∧
         command_packet (mote (e k)) c ∈ wire (srv (e (S k))).
Proof.
  intros He Hd d. induction d as [|d IH]; intros n c Hw Hc.
  { rewrite Nat.add_0_r in Hw. exists n. rewrite He.
    split_and!; [lia.. | done | by apply exec_label_transmits]. }
  destruct (decide (wakes (ls n))) as [Hn|Hn].
  { exists n. rewrite He. split_and!; [lia.. | done | by apply exec_label_transmits]. }
  destruct (IH (S n) c) as (k & Hk & Hwk & Hp).
  - by replace (S n + d)%nat with (n + S d)%nat by lia.
  - rewrite He. by apply exec_label_keeps_queued.
  - exists k. split_and!; [lia.. | done | done].
Qed.

(** C13: under a delegate that transmits reliably and never writes to the
    mote, in every execution in which the mote reports a receiving state
    again and again and in which no call of [get_saved_command] takes
    commands away, every command that is in the queue at some point is on
    the wire at a later point: it is transmitted by the flush of the next
    report of RXON or SYNC, in the packet built from the mote's address,
    nonce and addressing mode at that time. *)
Theorem queued_eventually_transmitted `{!ServerSends D} `{!ServerFramed D} ls e n c :
  execution ls e → wakes_again ls → (∀ k, ¬ drains (ls k)) →
  c ∈ queued_commands (mote (e n)) →
  ∃ k, (n ≤ k)%nat ∧ wakes (ls k) ∧
       command_packet (mote (e k)) c ∈ wire (srv (e (S k))).
Proof.
  intros He Hf Hd Hc. destruct (Hf n) as (k0 & Hk0 & Hw).
  destruct (transmitted_within ls e He Hd (k0 - n) n c) as (k & Hk & ? & ?);
    [by replace (n + (k0 - n))%nat with k0 by lia | done|].
  exists k. split_and!; [lia | done..].
Qed.

End liveness.

(** ** Witness *)

Lemma sample_labels_wake : wakes_again sample_labels.
Proof.
  intros n. destruct (Nat.even n) eqn:E.
  - exists (S (S n)). split; [lia|]. unfold sample_labels.
    rewrite Nat.even_succ, <-Nat.negb_even, E. by right.
  - exists (S n). split; [lia|]. unfold sample_labels. rewrite E. by right.
Qed.

Lemma sample_labels_keep k : ¬ drains (sample_labels k).
Proof. unfold drains. destruct k as [|k]; simpl; [done|]. by destruct (Nat.even k). Qed.

Lemma queued_eventually_transmitted_witness :
  ∃ k, (1 ≤ k)%nat ∧ wakes (sample_labels k) ∧
       command_packet (mote (run_labels sample_labels sample_world k))
                      (ID_DEVICE_ADDR, SwapValue_new 6 1)
       ∈ wire (srv (run_labels sample_labels sample_world (S k))).
Proof.
  apply (queued_eventually_transmitted sample_labels (run_labels sample_labels sample_world));
    [apply execution_run_labels | apply sample_labels_wake | apply sample_labels_keep |].
  apply (bool_decide_unpack _). by vm_compute.
Defined.

(** Without the discipline the property fails: a command taken out of the
    queue by [get_saved_command] is never transmitted. *)
Example drained_never_transmitted :
  let w := foldl (λ w c, (run_call c w).2) sample_world
             [CSaveAddressCommand 6; CGetSavedCommand; CUpdateState RXON] in
  wire (srv w) = [] ∧ queued_commands (mote w) = [].
Proof. done. Qed.
