(* ===== verification/Threads.v ===== *)
(** * Threads: the methods, statement by statement

    [SwapMote] has no lock, and its methods are called from the thread of
    the controller and from the thread that receives radio notifications.
    Here every method is a thread that advances one statement at a time:
    a step is a statement that reads or writes an attribute of the mote
    or calls the delegate; statements on local variables belong to the
    step before them.  A thread state ([Thread]) is a point between two
    statements with the local variables that are live there.  Each
    method has the function of its statements, and [thread_step] chooses
    the function of the method a thread is in.
    [cmdRegister] is called by its clients and by the loop of
    [update_state]: the continuation [Kont] says where it returns to.
    The measures [before_loop] and [in_loop] count the statements a
    thread has left, and [owes] is the register write a thread has in
    its hands: requested or taken out of the queue, and not yet handed to
    the delegate, queued, or returned. *)

From stdpp Require Import relations.
From S2P Require Import Prelude PyBase SwapDefs MoteData Server MoteOps MoteSpec Samples.
From S2P Require Import Machine Trace.

Local Open Scope Z_scope.

(** ** Points of a thread *)

(** The attribute a confirmed setter assigns. *)
Inductive Attr : Type := AAddress | ASecurity | ATxInterval.

#[export] Instance Attr_eq_dec : EqDecision Attr.
Proof. solve_decision. Defined.

Definition set_attr (a : Attr) (z : Z) : SwapMote → SwapMote :=
  match a with
  | AAddress => set_address z
  | ASecurity => set_security z
  | ATxInterval => set_txinterval z
  end.

(** Where [cmdRegister] returns to: its caller outside the class, or turn
    [i] of the loop of [update_state], which has [n] more turns to
    make. *)
Inductive Kont : Type :=
| KReturn
| KLoop (i n : nat).

#[export] Instance Kont_eq_dec : EqDecision Kont.
Proof. solve_decision. Defined.

(** A thread: a method about to be called, a point inside [cmdRegister]
    (before [infPacket], before [cmdPacket], before the transmission),
    [qryRegister] and [staRegister] (before the packet, before the
    transmission), [save_command] (after its test), a confirmed setter
    (before its assignment), [update_state] (before its test, before a
    turn of the loop), or a method that has returned or raised. *)
Inductive Thread : Type :=
| TCall (c : Call)
| TCmdInf (regId : Z) (value : SwapValue) (k : Kont)
| TCmdPkt (regId : Z) (value : SwapValue) (inf : SwapPacket) (k : Kont)
| TCmdSend (inf cmd : SwapPacket) (k : Kont)
| TQrySend (qry : SwapPacket)
| TStaPkt (regId : Z) (reg : option SwapRegister)
| TStaSend (inf : SwapPacket)
| TSaveSend (regId : Z) (value : SwapValue)
| TSaveAppend (regId : Z) (value : SwapValue)
| TAssign (a : Attr) (z : Z)
| TUpTest (st : Z)
| TUpPop (i n : nat)
| TDone (res : outcome Result).

#[export] Instance Thread_eq_dec : EqDecision Thread.
Proof. solve_decision. Defined.

(** A thread that has returned or raised. *)
Definition is_done (t : Thread) : Prop := ∃ res, t = TDone res.

#[export] Instance is_done_dec t : Decision (is_done t).
Proof. destruct t; (by left; eexists) || (right; by intros [? ?]). Defined.

(** [cmdRegister] returns: to its caller, or to the loop. *)
Definition ret_to (k : Kont) (res : Result) : Thread :=
  match k with
  | KReturn => TDone (Return res)
  | KLoop i O => TDone (Return RNone)
  | KLoop i (S n) => TUpPop (S i) n
  end.

(** [if res: self.<a> = z; return res] *)
Definition mirrored (a : Attr) (z : Z) (res : bool) : Thread :=
  if res then TAssign a z else TDone (Return (RBool false)).

Definition done_bool (res : bool) : Thread := TDone (Return (RBool res)).

(** ** What a thread has left to do, and what it holds *)

(** The statements left before the loop of [update_state], for a thread
    that is not in it. *)
Definition before_loop (t : Thread) : nat :=
  match t with
  | TCall _ | TCmdInf _ _ KReturn => 3
  | TCmdPkt _ _ _ KReturn | TStaPkt _ _ => 2
  | TCmdSend _ _ KReturn | TQrySend _ | TStaSend _ | TSaveSend _ _ | TSaveAppend _ _
  | TAssign _ _ | TUpTest _ => 1
  | _ => 0
  end.

(** The statements left in the loop of [update_state]: four a turn. *)
Definition in_loop (t : Thread) : nat :=
  match t with
  | TUpPop _ n => 4 * n + 4
  | TCmdInf _ _ (KLoop _ n) => 4 * n + 3
  | TCmdPkt _ _ _ (KLoop _ n) => 4 * n + 2
  | TCmdSend _ _ (KLoop _ n) => 4 * n + 1
  | _ => 0
  end.

(** The register write a call asks for. *)
Definition call_owes (c : Call) : list (Z * SwapValue) :=
  match c with
  | CCmdRegister regId value | CCmdRegisterWack regId value | CSaveCommand regId value =>
      [(regId, value)]
  | CSaveAddressCommand addr | CSetAddress addr => [(ID_DEVICE_ADDR, SwapValue_new addr 1)]
  | CSaveTxIntervalCommand interval | CSetTxInterval interval =>
      [(ID_TX_INTERVAL, SwapValue_new interval 2)]
  | CSetNetworkId netId => [(ID_NETWORK_ID, SwapValue_new netId 2)]
  | CSetFreqChannel channel => [(ID_FREQ_CHANNEL, SwapValue_new channel 1)]
  | CSetSecurity secu => [(ID_SECU_OPTION, SwapValue_new secu 1)]
  | CRestart => [(ID_SYSTEM_STATE, SwapValue_new RESTART 1)]
  | CLeaveSync => [(ID_SYSTEM_STATE, SwapValue_new RXOFF 1)]
  | _ => []
  end.

(** The register write a thread holds: requested or taken out of the
    queue, and neither handed to the delegate nor queued; for a thread
    about to transmit, the write of its packet, if it is a command; a
    command [get_saved_command] has returned is held by its caller. *)
Definition owes (t : Thread) : list (Z * SwapValue) :=
  match t with
  | TCall c => call_owes c
  | TCmdInf regId value _ | TCmdPkt regId value _ _
  | TSaveSend regId value | TSaveAppend regId value => [(regId, value)]
  | TCmdSend _ p _ | TQrySend p | TStaSend p => commands [ESend p]
  | TDone (Return (RCommand c)) => [c]
  | _ => []
  end.

(** A thread of the queuing path that has not yet sent or appended its
    command. *)
Definition saves (t : Thread) : bool :=
  match t with
  | TCall (CSaveCommand _ _) | TCall (CSaveAddressCommand _)
  | TCall (CSaveTxIntervalCommand _) | TSaveSend _ _ | TSaveAppend _ _ => true
  | _ => false
  end.

(** A thread that may take commands out of the queue. *)
Definition pops (t : Thread) : bool :=
  match t with
  | TCall (CUpdateState _) | TCall CGetSavedCommand | TUpTest _ | TUpPop _ _
  | TCmdInf _ _ (KLoop _ _) | TCmdPkt _ _ _ (KLoop _ _) | TCmdSend _ _ (KLoop _ _) => true
  | _ => false
  end.

Section threads.
Context `{SwapServer D}.
Implicit Types (w : World D) (t : Thread) (k : Kont).

(** ** One statement *)

(** Go on with the value an action returns, end with its exception. *)
Definition after {A} (r : outcome A * World D) (next : A → Thread)
    : option (Thread * World D) :=
  Some (match r.1 with
        | Return a => next a
        | Raise e => TDone (Raise e)
        end, r.2).

(** [infPacket = SwapStatusPacket(self.address, regId, value)] *)
Definition cmd_inf (regId : Z) (value : SwapValue) k w : option (Thread * World D) :=
  Some (TCmdPkt regId value (SwapStatusPacket (address (mote w)) regId value false) k, w).

(** [if self.state == SwapState.RXON or not self.pwrdownmode] *)
Definition save_test (regid : Z) (value : SwapValue) w : option (Thread * World D) :=
  Some (if reachable_now (mote w) then TSaveSend regid value else TSaveAppend regid value, w).

(** ** The statements of each method

    One function per method, or per group of methods that follow one
    another in the file: the next statement at each of its points, and
    [None] at the points of the others. *)

(** [cmdRegister]: the expected status packet, the command packet, the
    transmission and the return. *)
Definition cmdRegister_step t w : option (Thread * World D) :=
  match t with
  | TCall (CCmdRegister regId value) => cmd_inf regId value KReturn w
  | TCmdInf regId value k => cmd_inf regId value k w
  | TCmdPkt regId value inf k =>
      Some (TCmdSend inf (command_packet (mote w) (regId, value)) k, w)
  | TCmdSend inf cmd k => after (send cmd w) (λ _, ret_to k (RPacket inf))
  | _ => None
  end.

(** [qryRegister]: the query packet, the transmission. *)
Definition qryRegister_step t w : option (Thread * World D) :=
  match t with
  | TCall (CQryRegister regId) =>
      Some (TQrySend (SwapQueryPacket (address (mote w)) regId (extended_addr (mote w))), w)
  | TQrySend qry => after (send qry w) (λ _, TDone (Return RNone))
  | _ => None
  end.

(** [staRegister]: the lookup, the status packet with the value of the
    register found, the transmission.  The registers of a world are
    values, and the point after the lookup holds the register found: its
    value at the lookup is its value when the packet is built as long as
    nobody assigns to the register object in between, which no statement
    of the class does.  [Status] has the three statements on register
    objects, where the value is read when the packet is built. *)
Definition staRegister_step t w : option (Thread * World D) :=
  match t with
  | TCall (CStaRegister regId) =>
      Some (match getRegister regId (mote w) with
            | Return reg => TStaPkt regId reg
            | Raise e => TDone (Raise e)
            end, w)
  | TStaPkt regId reg =>
      Some (match reg with
            | Some r =>
                TStaSend (SwapStatusPacket (address (mote w)) regId (reg_value r)
                                           (extended_addr (mote w)))
            | None => TDone (Raise AttributeError)
            end, w)
  | TStaSend inf => after (send inf w) (λ _, TDone (Return RNone))
  | _ => None
  end.

(** [cmdRegisterWack] and [qryRegisterWack]: the confirmed exchange. *)
Definition confirmed_step t w : option (Thread * World D) :=
  match t with
  | TCall (CCmdRegisterWack regId value) => after (cmdRegisterWack regId value w) done_bool
  | TCall (CQryRegisterWack regId) =>
      after (qryRegisterWack regId w) (λ v, TDone (Return (of_reply v)))
  | _ => None
  end.

(** [save_command], and [save_address_command] and
    [save_txinterval_command], which build the value and call it: the
    test, then the confirmed command or the append. *)
Definition save_command_step t w : option (Thread * World D) :=
  match t with
  | TCall (CSaveCommand regid value) => save_test regid value w
  | TCall (CSaveAddressCommand addr) => save_test ID_DEVICE_ADDR (SwapValue_new addr 1) w
  | TCall (CSaveTxIntervalCommand interval) =>
      save_test ID_TX_INTERVAL (SwapValue_new interval 2) w
  | TSaveSend regid value => after (cmdRegisterWack regid value w) done_bool
  | TSaveAppend regid value =>
      Some (TDone (Return RNone), on_mote (queue_append regid value) w)
  | _ => None
  end.

(** [get_saved_command]: the removal from the queue. *)
Definition get_saved_command_step t w : option (Thread * World D) :=
  match t with
  | TCall CGetSavedCommand => after (get_saved_command w) (λ c, TDone (Return (RCommand c)))
  | _ => None
  end.

(** The setters, from [setAddress] to [leaveSync]: the confirmed command
    on the register of the setter, and the assignment of the three that
    mirror an attribute. *)
Definition setter_step t w : option (Thread * World D) :=
  match t with
  | TCall (CSetAddress addr) =>
      after (cmdRegisterWack ID_DEVICE_ADDR (SwapValue_new addr 1) w) (mirrored AAddress addr)
  | TCall (CSetNetworkId netId) =>
      after (cmdRegisterWack ID_NETWORK_ID (SwapValue_new netId 2) w) done_bool
  | TCall (CSetFreqChannel channel) =>
      after (cmdRegisterWack ID_FREQ_CHANNEL (SwapValue_new channel 1) w)
            (λ _, TDone (Return RNone))
  | TCall (CSetSecurity secu) =>
      after (cmdRegisterWack ID_SECU_OPTION (SwapValue_new secu 1) w) (mirrored ASecurity secu)
  | TCall (CSetTxInterval interval) =>
      after (cmdRegisterWack ID_TX_INTERVAL (SwapValue_new interval 2) w)
            (mirrored ATxInterval interval)
  | TCall CRestart => after (cmdRegisterWack ID_SYSTEM_STATE (SwapValue_new RESTART 1) w) done_bool
  | TCall CLeaveSync => after (cmdRegisterWack ID_SYSTEM_STATE (SwapValue_new RXOFF 1) w) done_bool
  | TAssign a z => Some (TDone (Return (RBool true)), on_mote (set_attr a z) w)
  | _ => None
  end.

(** [updateTimeStamp]: the assignment of the time. *)
Definition updateTimeStamp_step t w : option (Thread * World D) :=
  match t with
  | TCall CUpdateTimeStamp => Some (TDone (Return RNone), on_mote (set_timestamp (clock w)) w)
  | _ => None
  end.

(** [update_state]: the assignment of the state, the test with the
    reading of the length of the queue, and the removal from the queue
    that starts a turn of the loop; the rest of the turn is
    [cmdRegister]. *)
Definition update_state_step t w : option (Thread * World D) :=
  match t with
  | TCall (CUpdateState st) => Some (TUpTest st, on_mote (set_state st) w)
  | TUpTest st =>
      Some (if receiving st then
              match nbof_saved_commands (mote w) with
              | O => TDone (Return RNone)
              | S n => TUpPop 0 n
              end
            else TDone (Return RNone), w)
  | TUpPop i n => after (get_saved_command w) (λ c, TCmdInf c.1 c.2 (KLoop i n))
  | _ => None
  end.

(** The next statement of a thread: that of the method it is in. *)
Definition thread_step t w : option (Thread * World D) :=
  match t with
  | TCall (CCmdRegister _ _) | TCmdInf _ _ _ | TCmdPkt _ _ _ _ | TCmdSend _ _ _ =>
      cmdRegister_step t w
  | TCall (CQryRegister _) | TQrySend _ => qryRegister_step t w
  | TCall (CStaRegister _) | TStaPkt _ _ | TStaSend _ => staRegister_step t w
  | TCall (CCmdRegisterWack _ _) | TCall (CQryRegisterWack _) => confirmed_step t w
  | TCall (CSaveCommand _ _) | TCall (CSaveAddressCommand _)
  | TCall (CSaveTxIntervalCommand _) | TSaveSend _ _ | TSaveAppend _ _ =>
      save_command_step t w
  | TCall CGetSavedCommand => get_saved_command_step t w
  | TCall (CSetAddress _) | TCall (CSetNetworkId _) | TCall (CSetFreqChannel _)
  | TCall (CSetSecurity _) | TCall (CSetTxInterval _) | TCall CRestart | TCall CLeaveSync
  | TAssign _ _ => setter_step t w
  | TCall CUpdateTimeStamp => updateTimeStamp_step t w
  | TCall (CUpdateState _) | TUpTest _ | TUpPop _ _ => update_state_step t w
  | TDone _ => None
  end.

(** The steps of a thread on the world. *)
Definition tstep (x y : Thread * World D) : Prop := thread_step x.1 x.2 = Some y.

(** [n] statements of a thread that runs alone. *)
Fixpoint run_thread (n : nat) t w : Thread * World D :=
  match n with
  | O => (t, w)
  | S n =>
      match thread_step t w with
      | Some (t', w') => run_thread n t' w'
      | None => (t, w)
      end
  end.

(** ** Progress and termination of one thread *)

Lemma after_Some {A} (r : outcome A * World D) next t' w' :
  after r next = Some (t', w') →
  w' = r.2 ∧ ((∃ a, r.1 = Return a ∧ t' = next a) ∨ (∃ e, r.1 = Raise e ∧ t' = TDone (Raise e))).
Proof. unfold after. intros [= <- <-]. split; [done|]. destruct r.1; eauto. Qed.

(** A thread has a next statement unless it is done. *)
Lemma thread_step_None t w : thread_step t w = None ↔ is_done t.
Proof.
  split; [|by intros [res ->]].
  destruct t as [[]| | | | | | | | | | | |]; try done. by eexists.
Qed.

(** Every statement brings a thread closer to its end: before the loop
    the statements are counted; in the loop the turns are. *)
Lemma thread_step_decreases t w t' w' :
  thread_step t w = Some (t', w') →
  (before_loop t' < before_loop t)%nat ∨
  (before_loop t' = before_loop t ∧ in_loop t' < in_loop t)%nat.
Proof.
  destruct t as [[]|? ? []|? ? ? []|? ? [|? []]| | | | | | | | |]; simpl;
    unfold cmd_inf, save_test, after, mirrored, done_bool;
    intros ?; simplify_eq; repeat case_match; simpl; lia.
Qed.

(** A thread that does not take commands out of the queue never will. *)
Lemma thread_step_pops t w t' w' :
  thread_step t w = Some (t', w') → pops t = false → pops t' = false.
Proof.
  destruct t as [[]|? ? []|? ? ? []|? ? []| | | | | | | | |]; simpl;
    unfold cmd_inf, save_test, after, mirrored, done_bool;
    intros ??; simplify_eq; repeat case_match; done.
Qed.

(** A thread that is not on the queuing path never appends. *)
Lemma thread_step_saves t w t' w' :
  thread_step t w = Some (t', w') → saves t = false → saves t' = false.
Proof.
  destruct t as [[]|? ? []|? ? ? []|? ? [|? []]| | | | | | | | |]; simpl;
    unfold cmd_inf, save_test, after, mirrored, done_bool;
    intros ??; simplify_eq; repeat case_match; done.
Qed.

(** [run_thread] follows the steps. *)
Lemma run_thread_rtc n : ∀ t w, rtc tstep (t, w) (run_thread n t w).
Proof.
  induction n as [|n IH]; intros t w; simpl; [done|].
  destruct (thread_step t w) as [[t' w']|] eqn:E; [|done].
  eapply rtc_l; [exact E | apply IH].
Qed.

End threads.
