(* ===== verification/Status.v ===== *)
(** * Status: [staRegister] on the register objects, statement by statement

    [staRegister] looks the register up (line 85), builds the status
    packet from the value of the object (line 87) and sends it (line 89).
    Between two of its statements a holder of a reference may assign to a
    register object.  The points of the call ([StaThread]) hold the
    reference, not a copy; a schedule is a list of statements of the call
    and assignments ([Action]).  The packet reports the value the object
    has when the packet is built: an assignment made after the lookup is
    reported, one made after the packet is built is not.  As long as
    nothing is assigned, the statements on the objects are those of
    [Threads] on the contents of the objects ([contents]). *)

From stdpp Require Import gmap.
From S2P Require Import Prelude PyBase SwapDefs MoteData Server MoteOps MoteSpec Samples.
From S2P Require Import Lookup Objects Machine Threads.

Local Open Scope Z_scope.

(** The points of a call of [staRegister]: the call, after the lookup
    with the reference found, after the packet is built, and the end. *)
Inductive StaThread : Type :=
| RefCall (regId : Z)
| RefFound (regId : Z) (ref : option loc)
| RefSend (infPacket : SwapPacket)
| RefDone (res : outcome unit).

(** What the schedule chooses next: the next statement of the call, or an
    assignment [reg.value = v] to the object at [l] by a holder of the
    reference. *)
Inductive Action : Type :=
| ARun
| AAssign (l : loc) (v : SwapValue).

(** The world, with the contents of the register objects in the lists of
    its mote. *)
Definition sync {D} (h : Store) (r : RegRefs) (w : World D) : World D :=
  set_mote (snapshot h r (mote w)) w.

(** The next statement of the call. *)
Definition sta_step `{SwapServer D} (r : RegRefs) (t : StaThread) (h : Store) (w : World D)
    : StaThread * World D :=
  match t with
  | RefCall regId =>
      (match getRegister_ref regId h r with
       | Return ref => RefFound regId ref
       | Raise e => RefDone (Raise e)
       end, sync h r w)
  | RefFound regId ref =>
      (match sta_packet h (mote w) regId ref with
       | Return infPacket => RefSend infPacket
       | Raise e => RefDone (Raise e)
       end, sync h r w)
  | RefSend infPacket =>
      let '(res, w') := send infPacket (sync h r w) in (RefDone res, w')
  | RefDone _ => (t, w)
  end.

Definition act `{SwapServer D} (r : RegRefs) (s : StaThread * Store * World D) (a : Action)
    : StaThread * Store * World D :=
  match a with
  | ARun => let '(t', w') := sta_step r s.1.1 s.1.2 s.2 in (t', s.1.2, w')
  | AAssign l v => (s.1.1, assign_value l v s.1.2, s.2)
  end.

Definition run_actions `{SwapServer D} (r : RegRefs) (acts : list Action)
    (s : StaThread * Store * World D) : StaThread * Store * World D :=
  foldl (act r) s acts.

(** A sequence of assignments, as actions and as what it does to the
    store. *)
Definition assigns (las : list (loc * SwapValue)) : list Action :=
  (λ a, AAssign a.1 a.2) <$> las.

Definition assign_all (las : list (loc * SwapValue)) (h : Store) : Store :=
  foldl (λ h a, assign_value a.1 a.2 h) h las.

(** The point of [Threads] that a point on the objects stands for: the
    register it holds is the content of the object. *)
Definition contents (h : Store) (t : StaThread) : Thread :=
  match t with
  | RefCall regId => TCall (CStaRegister regId)
  | RefFound regId ref => TStaPkt regId (ref ≫= (h !!.))
  | RefSend infPacket => TStaSend infPacket
  | RefDone res => TDone ((λ _, RNone) <$> res)
  end.

Section status.
Context `{SwapServer D}.
Implicit Types (h : Store) (r : RegRefs) (l : loc) (w : World D) (t : StaThread).
Implicit Types (las : list (loc * SwapValue)).

Lemma assign_all_shape las h : assign_all las h ≡ₛ h.
Proof.
  revert h. induction las as [|a las IH]; intros h; simpl; [done|].
  by rewrite IH, assign_value_shape.
Qed.

Lemma sync_sync h h' r w : sync h' r (sync h r w) = sync h' r w.
Proof. done. Qed.

(** The packet is built from the address and the addressing mode of the
    mote and from the object, not from the lists. *)
Lemma sta_packet_snapshot h h' r m regId ref :
  sta_packet h (snapshot h' r m) regId ref = sta_packet h m regId ref.
Proof. done. Qed.

Lemma run_actions_app r acts1 acts2 s :
  run_actions r (acts1 ++ acts2) s = run_actions r acts2 (run_actions r acts1 s).
Proof. apply foldl_app. Qed.

Lemma run_assigns r las t h w :
  run_actions r (assigns las) (t, h, w) = (t, assign_all las h, w).
Proof. revert h. induction las as [|a las IH]; intros h; simpl; [done|]. apply IH. Qed.

(** Assignments, then a statement. *)
Lemma run_assigns_step r las acts t h w :
  run_actions r (assigns las ++ ARun :: acts) (t, h, w)
  = run_actions r acts
      ((sta_step r t (assign_all las h) w).1, assign_all las h,
       (sta_step r t (assign_all las h) w).2).
Proof.
  rewrite run_actions_app, run_assigns. simpl. by destruct (sta_step _ _ _ _).
Qed.

(** Every schedule of the three statements of a call with assignments
    before, between and after them. *)
Lemma run_status r regId h w las1 las2 las3 las4 :
  let h1 := assign_all las1 h in
  let h2 := assign_all las2 h1 in
  let h3 := assign_all las3 h2 in
  let h4 := assign_all las4 h3 in
  run_actions r (assigns las1 ++ ARun :: assigns las2 ++ ARun :: assigns las3 ++
                 ARun :: assigns las4) (RefCall regId, h, w)
  = match getRegister_ref regId h r with
    | Raise e => (RefDone (Raise e), h4, sync h1 r w)
    | Return ref =>
        match sta_packet h2 (mote w) regId ref with
        | Raise e => (RefDone (Raise e), h4, sync h2 r w)
        | Return infPacket =>
            let '(res, w') := send infPacket (sync h3 r w) in (RefDone res, h4, w')
        end
    end.
Proof.
  intros h1 h2 h3 h4. rewrite run_assigns_step. fold h1. simpl.
  replace (getRegister_ref regId h1 r) with (getRegister_ref regId h r)
    by (unfold h1; by rewrite assign_all_shape).
  destruct (getRegister_ref regId h r) as [ref|e];
    [|by rewrite !run_assigns_step, run_assigns].
  rewrite run_assigns_step. fold h2. simpl.
  rewrite sta_packet_snapshot.
  destruct (sta_packet h2 (mote w) regId ref) as [infPacket|e];
    [|by rewrite run_assigns_step, run_assigns].
  rewrite run_assigns_step. fold h3. simpl. rewrite !sync_sync.
  destruct (send infPacket (sync h3 r w)) as [res w'] eqn:E. by rewrite run_assigns.
Qed.

(** A statement on the objects is the statement of [Threads] on their
    contents. *)
Lemma sta_step_thread r t h w :
  thread_step (contents h t) (sync h r w)
  = match t with
    | RefDone _ => None
    | _ => Some (contents h (sta_step r t h w).1, (sta_step r t h w).2)
    end.
Proof.
  destruct t as [regId|regId ref|infPacket|res]; simpl; [| | |done].
  - rewrite getRegister_snapshot. by destruct (getRegister_ref regId h r) as [[l|]|e].
  - unfold sta_packet. by destruct (ref ≫= (h !!.)).
  - unfold after. by destruct (send infPacket (sync h r w)) as [[[]|e] w'].
Qed.

(** C29: [staRegister] reports the value its register has when the
    packet is built.  In every schedule of the three statements of a
    call with assignments to register objects before, between and after
    them, the lookup finds the object it would find without the
    assignments; the packet carries the value the object has after the
    assignments made before the second statement, those made after the
    lookup included; the assignments made after the packet is built are
    in the store at the end and not in the packet sent.  Without
    assignments the three statements are [staRegister] on the contents
    of the objects, and each of them is the statement of the thread
    semantics on the contents, where the register found is held as a
    value. *)
Theorem status_reads_at_packet r regId h w las1 las2 las3 las4 :
  let h1 := assign_all las1 h in
  let h2 := assign_all las2 h1 in
  let h3 := assign_all las3 h2 in
  let h4 := assign_all las4 h3 in
  run_actions r (assigns las1 ++ ARun :: assigns las2 ++ ARun :: assigns las3 ++
                 ARun :: assigns las4) (RefCall regId, h, w)
  = match getRegister_ref regId h r with
    | Raise e => (RefDone (Raise e), h4, sync h1 r w)
    | Return ref =>
        match sta_packet h2 (mote w) regId ref with
        | Raise e => (RefDone (Raise e), h4, sync h2 r w)
        | Return infPacket =>
            let '(res, w') := send infPacket (sync h3 r w) in (RefDone res, h4, w')
        end
    end ∧
  run_actions r [ARun; ARun; ARun] (RefCall regId, h, w)
  = (let '(res, w') := staRegister regId (sync h r w) in (RefDone res, h, w')) ∧
  (∀ t, thread_step (contents h t) (sync h r w)
        = match t with
          | RefDone _ => None
          | _ => Some (contents h (sta_step r t h w).1, (sta_step r t h w).2)
          end).
Proof.
  intros h1 h2 h3 h4. split_and!; [apply run_status | | intros t; apply sta_step_thread].
  etrans; [exact (run_status r regId h w [] [] [] [])|]. unfold sync. simpl.
  rewrite staRegister_snapshot.
  destruct (getRegister_ref regId h r) as [ref|e]; [|done].
  by destruct (sta_packet h (mote w) regId ref).
Qed.

End status.

(** ** On the sample device *)

(** The register 12 is assigned 7 after the lookup and 9 after the packet
    is built: the packet sent carries 7, and the object holds 9. *)
Lemma status_reads_at_packet_witness :
  let s := run_actions sample_refs
             (assigns [] ++ ARun :: assigns [(Loc 2, SwapValue_new 7 1)] ++ ARun ::
              assigns [(Loc 2, SwapValue_new 9 1)] ++ ARun :: assigns [])
             (RefCall 12, sample_store, sample_world) in
  s.1.1 = RefDone (Return tt) ∧
  wire (srv s.2) = [SwapStatusPacket 5 12 (SwapValue_new 7 1) false] ∧
  reg_value <$> s.1.2 !! Loc 2 = Some (SwapValue_new 9 1).
Proof.
  intros s. unfold s.
  rewrite (proj1 (status_reads_at_packet sample_refs 12 sample_store sample_world
                    [] [(Loc 2, SwapValue_new 7 1)] [(Loc 2, SwapValue_new 9 1)] [])).
  by vm_compute.
Defined.
