(* ===== verification/Interleave.v ===== *)
(** * Interleave: method calls running together

    A pool is a list of threads of [Threads] with the world they share;
    a step of the pool is a statement of one of its threads.  Nothing
    orders the steps: the pool is the class used from several threads
    without a lock.  Every pool comes to an end, whatever the delegate
    does, and it ends when every call has returned or raised.  The
    invariants that rest on what a single statement may write survive
    the interleaving: the properties of [Footprint] and the fact that
    commands are queued only for a device that powers down.  The
    invariant that a mote recorded awake has an empty queue does not
    (the schedule [stranded], run in [Races]). *)

From stdpp Require Import relations.
From S2P Require Import Prelude PyBase SwapDefs MoteData Server MoteOps MoteSpec Samples.
From S2P Require Import Machine Trace Footprint Threads.

Local Open Scope Z_scope.

(** ** Pools *)

(** The threads and the world they share. *)
Definition Pool (D : Type) : Type := list Thread * World D.

(** Every call has returned or raised. *)
Definition finished {D} (p : Pool D) : Prop := Forall is_done p.1.

(** The lexicographic measure of a pool. *)
Definition pool_before (ts : list Thread) : nat := sum_list_with before_loop ts.
Definition pool_in_loop (ts : list Thread) : nat := sum_list_with in_loop ts.

(** Commands are queued, and about to be queued, only for a device that
    powers down. *)
Definition pool_needs_pwrdown {D} (p : Pool D) : Prop :=
  queue_needs_pwrdown (mote p.2) ∧
  ∀ regId value, TSaveAppend regId value ∈ p.1 → pwrdownmode (mote p.2) = true.

(** A writer and the receive path on the sample mote, which sleeps with
    three commands queued. *)
Definition writer_cmd : Z * SwapValue := (ID_NETWORK_ID, SwapValue_new 9 2).

Definition start_pool : Pool Recorder :=
  ([TCall (CSaveCommand ID_NETWORK_ID (SwapValue_new 9 2)); TCall (CUpdateState RXON)],
   loaded_world).

(** The writer tests the state before the report is recorded, and appends
    after the receive path has read the length of the queue. *)
Definition stranded : list nat := ([0; 1; 1; 0] ++ replicate 12 1)%nat.

(** The writer tests the state after the report is recorded, and its
    confirmed command goes out before the flush begins. *)
Definition overtaking : list nat := ([1; 0; 0] ++ replicate 13 1)%nat.

(** A command to the mote and a change of its address. *)
Definition readdress_pool : Pool Recorder :=
  ([TCall (CCmdRegister ID_NETWORK_ID (SwapValue_new 9 2)); TCall (CSetAddress 9)],
   sample_world).

(** The address changes between the two packets [cmdRegister] builds. *)
Definition readdress : list nat := [0; 1; 1; 0; 0]%nat.

Section pools.
Context `{SwapServer D}.
Implicit Types (w : World D) (t : Thread) (ts : list Thread) (p : Pool D).

(** Thread [i] makes its next statement. *)
Definition pool_next (i : nat) p : option (Pool D) :=
  t ← p.1 !! i; r ← thread_step t p.2; Some (<[i := r.1]> p.1, r.2).

(** Some thread makes its next statement. *)
Definition pool_step p p' : Prop := ∃ i, pool_next i p = Some p'.

(** A schedule names the thread that moves; a thread that is done, or
    that does not exist, does not move. *)
Definition sched_step (i : nat) p : Pool D := default p (pool_next i p).

Definition run_schedule (sched : list nat) p : Pool D :=
  foldl (λ p i, sched_step i p) p sched.

(** ** A step of the pool is a step of one thread *)

Lemma pool_next_inv i ts w p' :
  pool_next i (ts, w) = Some p' →
  ∃ ts1 t ts2 t' w', ts = ts1 ++ t :: ts2 ∧ length ts1 = i ∧
    thread_step t w = Some (t', w') ∧ p' = (ts1 ++ t' :: ts2, w').
Proof.
  unfold pool_next. simpl. destruct (ts !! i) as [t|] eqn:Et; [|done]. simpl.
  destruct (thread_step t w) as [[t' w']|] eqn:E; [|done]. intros [= <-].
  pose proof (lookup_lt_Some _ _ _ Et) as Hi.
  exists (take i ts), t, (drop (S i) ts), t', w'.
  rewrite take_drop_middle, length_take_le, insert_take_drop by (done || lia). done.
Qed.

Lemma pool_next_middle ts1 t ts2 w t' w' :
  thread_step t w = Some (t', w') →
  pool_next (length ts1) (ts1 ++ t :: ts2, w) = Some (ts1 ++ t' :: ts2, w').
Proof.
  intros E. unfold pool_next. simpl. rewrite list_lookup_middle by done. simpl.
  rewrite E. simpl. rewrite insert_app_r_alt, Nat.sub_diag by done. done.
Qed.

Lemma pool_step_inv ts w p' :
  pool_step (ts, w) p' →
  ∃ ts1 t ts2 t' w', ts = ts1 ++ t :: ts2 ∧
    thread_step t w = Some (t', w') ∧ p' = (ts1 ++ t' :: ts2, w').
Proof. intros [i (ts1 & t & ts2 & t' & w' & ? & _ & ? & ?)%pool_next_inv]. eauto 8. Qed.

(** A schedule is an interleaving. *)
Lemma sched_step_pool i p : p = sched_step i p ∨ pool_step p (sched_step i p).
Proof.
  unfold sched_step. destruct (pool_next i p) as [p'|] eqn:E; [right; by exists i | by left].
Qed.

Lemma run_schedule_pool sched : ∀ p, rtc pool_step p (run_schedule sched p).
Proof.
  induction sched as [|i sched IH]; intros p; [done|]. unfold run_schedule. simpl.
  destruct (sched_step_pool i p) as [<- | Hs]; [apply IH | eapply rtc_l; [exact Hs | apply IH]].
Qed.

(** ** Termination and progress *)

Lemma pool_step_decreases p p' :
  pool_step p p' →
  (pool_before p'.1 < pool_before p.1)%nat ∨
  (pool_before p'.1 = pool_before p.1 ∧ pool_in_loop p'.1 < pool_in_loop p.1)%nat.
Proof.
  destruct p as [ts w]. intros (ts1 & t & ts2 & t' & w' & -> & E & ->)%pool_step_inv.
  unfold pool_before, pool_in_loop. simpl. rewrite !sum_list_with_app. simpl.
  destruct (thread_step_decreases t w t' w' E); lia.
Qed.

Lemma pool_step_sn p : sn pool_step p.
Proof.
  remember (pool_before p.1) as a eqn:Ea. revert p Ea.
  induction (lt_wf a) as [a _ IHa]. intros p Ea.
  remember (pool_in_loop p.1) as b eqn:Eb. revert p Ea Eb.
  induction (lt_wf b) as [b _ IHb]. intros p Ea Eb.
  constructor. intros p' [Hlt | [Heq Hlt]]%pool_step_decreases.
  - eapply IHa; [|reflexivity]. lia.
  - eapply IHb; [|congruence|reflexivity]. lia.
Qed.

(** A pool is stuck exactly when every thread is done. *)
Lemma finished_nf p : nf pool_step p ↔ finished p.
Proof.
  destruct p as [ts w]. unfold finished. simpl. split.
  - intros Hnf. destruct (decide (Forall is_done ts)) as [|Hex%not_Forall_Exists]; [done|..];
      [|apply _]. destruct Hnf.
    apply Exists_exists in Hex as (t & (ts1 & ts2 & ->)%list_elem_of_split & Ht).
    destruct (thread_step t w) as [[t' w']|] eqn:E; [|by apply thread_step_None in E].
    exists (ts1 ++ t' :: ts2, w'), (length ts1). by apply pool_next_middle.
  - intros Hd (p' & (ts1 & t & ts2 & t' & w' & -> & E & _)%pool_step_inv).
    apply Forall_app in Hd as [_ [Ht%(thread_step_None t w) _]%Forall_cons]. congruence.
Qed.

(** ** What a statement may write *)

Section keeps.
Context (I : World D → Prop) (Hs : stable I) (Hd : delegate_keeps I).

Lemma after_keeps {A} (act : M (World D) A) next w t' w' :
  preserves I act → after (act w) next = Some (t', w') → I w → I w'.
Proof. intros Hact [-> _]%after_Some. apply Hact. Qed.

(** A statement of a thread keeps what the writes and the delegate keep. *)
Lemma thread_step_keeps t w t' w' : thread_step t w = Some (t', w') → I w → I w'.
Proof.
  pose proof (preserves_get_saved_command I Hs) as Hpop.
  destruct Hd as (Hsend & Hset & Hqry).
  destruct t as [[]| | | | | | | | | | | |]; simpl; unfold cmd_inf, save_test;
    try (intros ?; by simplify_eq); try (by eapply after_keeps);
    intros [= <- <-]; apply (proj1 Hs); try destruct a; constructor.
Qed.

Lemma pool_steps_keep p p' : rtc pool_step p p' → I p.2 → I p'.2.
Proof.
  induction 1 as [|[ts w] p2 p3 (? & ? & ? & ? & ? & -> & E & ->)%pool_step_inv _ IH];
    [done|].
  intros HI. apply IH. by eapply thread_step_keeps.
Qed.

End keeps.

(** ** Queuing only for devices that power down *)

(** A thread is about to append after a test that found the mote asleep
    and the device powering down. *)
Lemma thread_step_appending t w regId value w' :
  thread_step t w = Some (TSaveAppend regId value, w') →
  w' = w ∧ pwrdownmode (mote w) = true.
Proof.
  destruct t as [[]| | | | | | | | | | | |]; simpl; unfold cmd_inf, save_test;
    try (intros [_ [(? & _ & ?) | (? & _ & ?)]]%after_Some;
         unfold mirrored, done_bool, ret_to in *; repeat case_match; by simplify_eq);
    intros ?; repeat case_match; simplify_eq; split; try done;
    by apply reachable_now_false.
Qed.

(** What a statement does to the queue, under a delegate that never
    writes to the mote: nothing, a removal at its head, or the append of
    the command a thread was about to append. *)
Lemma thread_step_queue `{!ServerFramed D} t w t' w' :
  thread_step t w = Some (t', w') →
  pwrdownmode (mote w') = pwrdownmode (mote w) ∧
  (queued_commands (mote w') = queued_commands (mote w) ∨
   pops t = true ∧ queued_commands (mote w') = tail (queued_commands (mote w)) ∨
   ∃ regId value, t = TSaveAppend regId value ∧
     queued_commands (mote w') = queued_commands (mote w) ++ [(regId, value)]).
Proof.
  destruct t as [[]| | | | | | | | |[]| | |]; simpl;
    unfold cmd_inf, save_test, cmdRegisterWack, qryRegisterWack;
    try (intros [-> _]%after_Some;
         rewrite ?(proj1 (setMoteRegister_frames _ _ w)),
           ?(proj1 (queryMoteRegister_frames _ w)), ?(proj1 (send_frames _ w)),
           ?(proj1 (get_saved_command_mote w)); simpl; by eauto);
    intros ?; simplify_eq; simpl; eauto 8.
Qed.

Lemma pool_step_needs_pwrdown `{!ServerFramed D} p p' :
  pool_step p p' → pool_needs_pwrdown p → pool_needs_pwrdown p'.
Proof.
  destruct p as [ts w].
  intros (ts1 & t & ts2 & t' & w' & -> & E & ->)%pool_step_inv [Hq Ha].
  unfold pool_needs_pwrdown, queue_needs_pwrdown in *. simpl in *.
  destruct (thread_step_queue t w t' w' E) as [Hp Hw]. rewrite Hp. split.
  - destruct Hw as [-> | [[_ Hw] | (regId & value & -> & _)]]; [done| |].
    + rewrite Hw. intros Hne. apply Hq. by destruct (queued_commands (mote w)).
    + intros _. apply (Ha regId value). rewrite elem_of_app, elem_of_cons. auto.
  - intros regId value [Hin | [<- | Hin]%elem_of_cons]%elem_of_app;
      [| by destruct (thread_step_appending t w regId value w' E) as [_ ?] |];
      apply (Ha regId value); rewrite elem_of_app, elem_of_cons; auto.
Qed.

(** ** The theorems *)

(** C25: every pool of calls terminates, from every point of the calls
    and whatever the delegate does: there is no infinite sequence of
    statements of the threads, however they interleave, because each
    flush makes the number of turns it read at its start and no other
    method has a loop.  A pool stops only when every call has returned
    or raised: no thread ever waits for another. *)
Theorem interleavings_terminate p : sn pool_step p ∧ (nf pool_step p ↔ finished p).
Proof. split; [apply pool_step_sn | apply finished_nf]. Qed.

(** C34: what a single statement cannot break, an interleaving cannot
    break.  For any delegate, a property of the world that is stable
    under the seven writes of [writes] and that the delegate's
    operations keep holds at every point of every interleaving of any
    calls; and under a delegate that never writes to the mote, at every
    point of every interleaving commands are queued, and about to be
    appended, only if the device has the power-down mode. *)
Theorem interleaving_keeps `{!ServerFramed D} I p p' :
  rtc pool_step p p' →
  (stable I → delegate_keeps I → I p.2 → I p'.2) ∧
  (pool_needs_pwrdown p → pool_needs_pwrdown p').
Proof.
  intros Hr. split; [intros Hs Hd; by apply pool_steps_keep|].
  induction Hr; eauto using pool_step_needs_pwrdown.
Qed.

End pools.

(** ** Witness and schedules *)

Lemma interleaving_keeps_witness :
  (identity_of sample_loaded (run_schedule stranded start_pool).2) ∧
  pool_needs_pwrdown (run_schedule stranded start_pool).
Proof.
  destruct (interleaving_keeps (identity_of sample_loaded) start_pool _
              (run_schedule_pool stranded start_pool)) as [H1 H2].
  split; [apply H1 | apply H2].
  - apply identity_of_stable.
  - split_and!; intros; apply enqueues_keeps_identity, frames_enqueues;
      [apply send_frames | apply setMoteRegister_frames | apply queryMoteRegister_frames].
  - done.
  - split; [done|]. intros regId value Hin. by repeat (apply elem_of_cons in Hin as [?|Hin]).
Defined.
