(* ===== verification/Conserve.v ===== *)
(** * Conserve: no register write is lost or made up

    The pools of [Interleave] run on a logging delegate of [Trace], so
    that the register writes handed to the delegate can be told from the
    log.  A register write is in the system when it has been handed to
    the delegate, when a thread holds it ([owes]), or when it is queued.
    Under a delegate that never writes to the mote, every statement but
    the append of [save_command] leaves the sequence of the writes handed
    over, held by the thread that makes the statement and queued as it
    is; the append moves a write from the thread to the tail of the
    queue.  Hence the writes in the system are the same at every point of
    every interleaving, and as long as one thread only takes commands out
    of the queue they keep their order. *)

From stdpp Require Import relations.
From S2P Require Import Prelude PyBase SwapDefs MoteData Server MoteOps MoteSpec Samples.
From S2P Require Import Machine Trace Threads Interleave.

Local Open Scope Z_scope.

(** The register writes in the system. *)
Definition in_system {D} (p : Pool (Logged D)) : list (Z * SwapValue) :=
  commands (log (srv p.2)) ++ (p.1 ≫= owes) ++ queued_commands (mote p.2).

(** The register writes on the way through the thread [u]: handed to the
    delegate, held by [u], queued. *)
Definition through {D} (u : Thread) (w : World (Logged D)) : list (Z * SwapValue) :=
  commands (log (srv w)) ++ owes u ++ queued_commands (mote w).

(** Only thread [j] may take commands out of the queue, and it is not
    about to append one. *)
Definition sole_reader (j : nat) (ts : list Thread) : Prop :=
  ∀ k t, ts !! k = Some t → if decide (k = j) then saves t = false else pops t = false.

(** The writer and the receive path of [Interleave], with the log. *)
Definition logged_pool : Pool (Logged Recorder) := (start_pool.1, relog [] start_pool.2).

Section conserve.
Context `{SwapServer D}.
Implicit Types (w : World (Logged D)) (t u : Thread) (p : Pool (Logged D)).

(** ** One statement *)

Lemma logged_world {A} ev (act : M (World D) A) w :
  frames act →
  log (srv (logged ev act w).2) = log (srv w) ++ [ev] ∧ mote (logged ev act w).2 = mote w.
Proof. intros Hact. split; [done|]. by destruct (Hact (unlog w)). Qed.

(** A call of the delegate hands over what the thread held. *)
Lemma logged_through {A} ev (act : M (World D) A) next w t t' w' :
  after (logged ev act w) next = Some (t', w') →
  frames act →
  (∀ a, commands [ev] ++ owes (next a) = owes t) →
  commands [ev] = owes t →
  through t' w' = through t w.
Proof.
  intros [-> Ht']%after_Some Hact Hn He. unfold through.
  destruct (logged_world ev act w Hact) as [-> ->].
  rewrite commands_app, <-app_assoc. f_equal. rewrite app_assoc. f_equal.
  destruct Ht' as [(a & _ & ->) | (e & _ & ->)]; [apply Hn | by rewrite <-He, app_nil_r].
Qed.

(** A thread that reads a command from the queue holds it. *)
Lemma popped_through (next : Z * SwapValue → Thread) w t t' w' :
  after (get_saved_command w) next = Some (t', w') →
  owes t = [] → (∀ c, owes (next c) = [c]) →
  through t' w' = through t w.
Proof.
  intros [-> Ht']%after_Some Ht Hn. unfold through. rewrite Ht.
  destruct (queued_commands (mote w)) as [|c q] eqn:Eq.
  - rewrite (get_saved_command_nil w Eq) in *. simpl in *. rewrite Eq.
    by destruct Ht' as [(a & ? & ->) | (e & _ & ->)].
  - rewrite (get_saved_command_cons w c q Eq) in *. simpl in *.
    destruct Ht' as [(a & [= <-] & ->) | (e & ? & _)]; [|done]. by rewrite Hn.
Qed.

(** Every statement but the append of [save_command] leaves the sequence
    of the writes handed over, held and queued as it is. *)
Lemma thread_step_through `{!ServerFramed D} t w t' w' :
  thread_step t w = Some (t', w') →
  through t' w' = through t w ∨
  ∃ regId value, t = TSaveAppend regId value ∧ t' = TDone (Return RNone) ∧
    w' = on_mote (queue_append regId value) w.
Proof.
  destruct t as [[]| | | | | | | | |[]| | |]; simpl;
    unfold cmd_inf, save_test, cmdRegisterWack, qryRegisterWack; intros E;
    try (left; eapply logged_through;
         [exact E
         | first [apply send_frames | apply setMoteRegister_frames
                 | apply queryMoteRegister_frames]
         | intros a; try destruct a; unfold mirrored, done_bool, ret_to;
           repeat case_match; by rewrite ?app_nil_r
         | done]; fail);
    try (left; eapply popped_through; [exact E | done | by intros []]; fail);
    simplify_eq; eauto 6; left; unfold through; simpl; repeat case_match; done.
Qed.

(** The log grows, and a thread that does not take commands out of the
    queue lets the queue grow. *)
Lemma thread_step_grows `{!ServerFramed D} t w t' w' :
  thread_step t w = Some (t', w') →
  (∃ es, log (srv w') = log (srv w) ++ es) ∧
  (pops t = false → ∃ q, queued_commands (mote w') = queued_commands (mote w) ++ q).
Proof.
  intros E. split.
  - destruct t as [[]| | | | | | | | | | | |]; simpl in E;
      unfold cmd_inf, save_test, cmdRegisterWack, qryRegisterWack in E;
      try (apply after_Some in E as [-> _]);
      try (eexists [_]; reflexivity); simplify_eq; exists []; rewrite app_nil_r;
      unfold get_saved_command; by try destruct (queue_popleft _).
  - intros Hp. destruct (thread_step_queue t w t' w' E) as [_ Hq].
    destruct Hq as [-> | [[? _] | (regId & value & _ & ->)]]; [|congruence|eexists; reflexivity].
    exists []. by rewrite app_nil_r.
Qed.

(** ** Pools *)

Lemma pool_step_in_system `{!ServerFramed D} p p' :
  pool_step p p' → in_system p' ≡ₚ in_system p.
Proof.
  destruct p as [ts w]. intros (ts1 & t & ts2 & t' & w' & -> & E & ->)%pool_step_inv.
  unfold in_system. simpl. rewrite !bind_app, !bind_cons.
  destruct (thread_step_through t w t' w' E) as [Ht | (regId & value & -> & -> & ->)].
  - unfold through in Ht.
    trans ((ts1 ≫= owes) ++ (ts2 ≫= owes)
           ++ commands (log (srv w')) ++ owes t' ++ queued_commands (mote w'));
      [solve_Permutation | rewrite Ht; solve_Permutation].
  - simpl. solve_Permutation.
Qed.

Lemma sole_reader_step `{!ServerFramed D} j ts1 t ts2 w t' w' :
  thread_step t w = Some (t', w') →
  sole_reader j (ts1 ++ t :: ts2) → sole_reader j (ts1 ++ t' :: ts2).
Proof.
  intros E Hj k t0 Hk. destruct (decide (k = length ts1)) as [->|Hne].
  - rewrite list_lookup_middle in Hk by done. simplify_eq.
    pose proof (Hj (length ts1) t (list_lookup_middle _ _ _ _ eq_refl)).
    destruct (decide _);
      [by eapply (thread_step_saves (D:=Logged D)) | by eapply (thread_step_pops (D:=Logged D))].
  - apply Hj. by rewrite (lookup_middle_ne _ _ t t').
Qed.

(** A statement of any thread keeps the order of the writes on the way
    through the sole reader. *)
Lemma pool_step_through `{!ServerFramed D} j u p p' :
  pool_step p p' → sole_reader j p.1 → p.1 !! j = Some u →
  ∃ u', p'.1 !! j = Some u' ∧ through u p.2 `sublist_of` through u' p'.2.
Proof.
  destruct p as [ts w]. intros (ts1 & t & ts2 & t' & w' & -> & E & ->)%pool_step_inv Hj Hu.
  simpl in *. pose proof (Hj (length ts1) t (list_lookup_middle _ _ _ _ eq_refl)) as Ht.
  destruct (decide (j = length ts1)) as [->|Hne].
  - rewrite list_lookup_middle in Hu by done. simplify_eq. rewrite decide_True in Ht by done.
    exists t'. rewrite list_lookup_middle by done. split; [done|].
    destruct (thread_step_through u w t' w' E) as [-> | (? & ? & -> & _)]; done.
  - rewrite decide_False in Ht by done. exists u. split.
    + by rewrite (lookup_middle_ne _ _ t' t).
    + unfold through. destruct (thread_step_grows t w t' w' E) as [[es ->] Hq].
      destruct (Hq Ht) as [q ->]. rewrite commands_app, <-app_assoc.
      apply sublist_app; [done|]. apply sublist_inserts_l, sublist_app; [done|].
      by apply sublist_inserts_r.
Qed.

Lemma pool_steps_through `{!ServerFramed D} j p p' :
  rtc pool_step p p' → ∀ u, sole_reader j p.1 → p.1 !! j = Some u →
  ∃ u', p'.1 !! j = Some u' ∧ through u p.2 `sublist_of` through u' p'.2.
Proof.
  induction 1 as [p | p1 p2 p3 Hs _ IH]; intros u Hj Hu; [by exists u|].
  destruct (pool_step_through j u p1 p2 Hs Hj Hu) as (u2 & Hu2 & Hsub).
  destruct (IH u2) as (u3 & Hu3 & Hsub'); [|done|].
  - destruct p1 as [ts w]. apply pool_step_inv in Hs as (? & ? & ? & ? & ? & -> & E & ->).
    by eapply sole_reader_step.
  - exists u3. split; [done | by etrans].
Qed.

(** C36: under a delegate that never writes to the mote, at every point
    of every interleaving of any calls of any methods, the register
    writes in the system -- handed to the delegate, held by a thread,
    queued -- are those that were in the system at the start: no write is
    lost, none is duplicated, none is made up.  And when one thread only
    takes commands out of the queue, as the receive path does, the writes
    handed over, held by that thread and queued at the start come in the
    same order at every later point: the commands queued at the start
    reach the delegate in the order in which they were queued, whatever
    the other threads save or send meanwhile. *)
Theorem interleaving_conserves `{!ServerFramed D} p p' :
  rtc pool_step p p' →
  in_system p' ≡ₚ in_system p ∧
  ∀ j u, sole_reader j p.1 → p.1 !! j = Some u →
    ∃ u', p'.1 !! j = Some u' ∧ through u p.2 `sublist_of` through u' p'.2.
Proof.
  intros Hr. split; [|intros j u; by apply pool_steps_through].
  induction Hr as [|p1 p2 p3 Hs _ IH]; [done|]. by rewrite IH, (pool_step_in_system p1 p2).
Qed.

End conserve.

(** ** Witness *)

Lemma interleaving_conserves_witness :
  in_system (run_schedule overtaking logged_pool) ≡ₚ writer_cmd :: sample_queue ∧
  ∃ u', (run_schedule overtaking logged_pool).1 !! 1%nat = Some u' ∧
    sample_queue `sublist_of` through u' (run_schedule overtaking logged_pool).2.
Proof.
  destruct (interleaving_conserves logged_pool _ (run_schedule_pool overtaking logged_pool))
    as [H1 H2].
  split; [exact H1|]. apply (H2 1%nat (TCall (CUpdateState RXON))); [|done].
  intros [|[|k]] t Hk; vm_compute in Hk; by simplify_eq.
Defined.
