(* ===== verification/Solo.v ===== *)
(** * Solo: the statements of a method compute the method

    The statement-level semantics of [Threads] and the methods of
    [MoteOps] are two models of the same code.  This file shows that they
    agree: a thread that runs alone from the call of a method ends, after
    finitely many statements, with the outcome and in the world of the
    method; its run is the only one.  Hence the calls of a pool made one
    after another are one of its interleavings, and the worlds the
    sequential machine of [Machine] reaches are reached by pools. *)

From stdpp Require Import relations.
From S2P Require Import Prelude PyBase SwapDefs MoteData Server MoteOps MoteSpec Samples.
From S2P Require Import Machine Trace Threads Interleave.

(** The statement [for i in range(nb_cmds)] with [n] turns to go. *)
Definition loop_at (i n : nat) : Thread :=
  match n with
  | O => TDone (Return RNone)
  | S n => TUpPop i n
  end.

(** Two calls on the loaded mote of [Samples], one after the other. *)
Definition two_calls : list Call :=
  [CSaveCommand ID_NETWORK_ID (SwapValue_new 9 2); CUpdateState RXON].

Section solo.
Context `{SwapServer D}.
Implicit Types (w : World D) (t : Thread) (c : Call).

(** A thread that has returned or raised what [r] holds, in its world. *)
Definition finish (r : outcome Result * World D) : Thread * World D := (TDone r.1, r.2).

(** The calls made one after another: what they return, and the world
    they leave. *)
Fixpoint run_calls (cs : list Call) w : list (outcome Result) * World D :=
  match cs with
  | [] => ([], w)
  | c :: cs =>
      let r := call_result c w in
      let rs := run_calls cs r.2 in
      (r.1 :: rs.1, rs.2)
  end.

(** ** One thread *)

Lemma tstep_deterministic : deterministic tstep.
Proof. intros x y1 y2 H1 H2. unfold tstep in *. congruence. Qed.

Lemma finish_nf r : nf tstep (finish r).
Proof. by intros [y Hy]. Qed.

(** The loop of [update_state], turn by turn. *)
Lemma flush_loop_computes n : ∀ i w,
  rtc tstep (loop_at i n, w) (finish (((λ _, RNone) <$> for_range_from i n flush_one) w)).
Proof.
  induction n as [|n IH]; intros i w; [done|].
  unfold fmap, M_fmap. rewrite for_range_from_S. unfold flush_one, cmdRegister.
  unfold mbind, M_bind. simpl.
  destruct (get_saved_command w) as [[[regid value]|e] w1] eqn:E1.
  2:{ eapply rtc_l; [|done]. unfold tstep; simpl. by rewrite E1. }
  eapply rtc_l; [unfold tstep; simpl; by rewrite E1|]. simpl.
  do 2 (eapply rtc_l; [unfold tstep; simpl; reflexivity|]).
  unfold self, gets. simpl.
  destruct (send _ w1) as [[[]|e] w2] eqn:E2; simpl.
  - eapply rtc_l; [unfold tstep; simpl; by rewrite E2|]. simpl. apply (IH (S i) w2).
  - eapply rtc_l; [|done]. unfold tstep; simpl. by rewrite E2.
Qed.

(** [update_state], from its first statement. *)
Lemma update_state_computes st w :
  rtc tstep (TCall (CUpdateState st), w) (finish (call_result (CUpdateState st) w)).
Proof.
  do 2 (eapply rtc_l; [unfold tstep; simpl; reflexivity|]). simpl.
  pose proof (flush_loop_computes (nbof_saved_commands (mote (on_mote (set_state st) w))) 0
                (on_mote (set_state st) w)) as Hl.
  unfold update_state, receiving, for_range, fmap, M_fmap, mbind, M_bind, assign, modify,
    self, gets, mret, M_ret in *. simpl in *.
  destruct (bool_decide (st = RXON) || bool_decide (st = SYNC)); [|done].
  destruct (nbof_saved_commands _) eqn:En; [done|].
  rewrite bool_decide_true by lia. exact Hl.
Qed.

(** The methods without a loop take three statements at most. *)
Lemma method_computes c w :
  (∀ st, c ≠ CUpdateState st) → run_thread 3 (TCall c) w = finish (call_result c w).
Proof.
  intros Hc. destruct c; try (by destruct (Hc st)); clear Hc;
    unfold finish, call_result, fmap, M_fmap, cmdRegister, qryRegister, staRegister,
      save_address_command, save_txinterval_command, save_command, setAddress, setNetworkId,
      setFreqChannel, setSecurity, setTxInterval, restart, leaveSync, updateTimeStamp,
      mbind, M_bind, mret, M_ret, self, gets, assign, modify, lift_outcome, raise; simpl;
    unfold after, cmd_inf, save_test, reachable_now, mirrored, done_bool; simpl;
    repeat (case_match; unfold after, done_bool in *; simpl in *; simplify_eq); done.
Qed.

(** A thread that runs alone computes the method. *)
Lemma thread_computes c w : rtc tstep (TCall c, w) (finish (call_result c w)).
Proof.
  assert ((∃ st, c = CUpdateState st) ∨ ∀ st, c ≠ CUpdateState st) as [[st ->]|Hc]
    by (destruct c; (by left; eexists) || by right).
  - apply update_state_computes.
  - rewrite <-method_computes by done. apply run_thread_rtc.
Qed.

(** It has no other run. *)
Lemma thread_run_unique c w x :
  rtc tstep (TCall c, w) x → nf tstep x → x = finish (call_result c w).
Proof.
  intros Hx Hnf. eapply (confluent_rtc_nf (R:=tstep) (TCall c, w));
    eauto using deterministic_confluent, tstep_deterministic, thread_computes, finish_nf.
Qed.

Lemma done_nf t w : is_done t → nf tstep (t, w).
Proof. intros [res ->] [y Hy]. done. Qed.

(** ** Pools *)

(** The statements of one thread are steps of the pool it is in. *)
Lemma pool_lift ts1 ts2 x y :
  rtc tstep x y → rtc pool_step (ts1 ++ x.1 :: ts2, x.2) (ts1 ++ y.1 :: ts2, y.2).
Proof.
  induction 1 as [|[t w] [t' w'] z Hs _ IH]; [done|].
  eapply rtc_l; [|exact IH]. exists (length ts1). by apply pool_next_middle.
Qed.

(** The calls of a pool, each run to its end before the next begins. *)
Lemma run_calls_pool cs : ∀ ts w,
  rtc pool_step (ts ++ (TCall <$> cs), w)
                (ts ++ (TDone <$> (run_calls cs w).1), (run_calls cs w).2).
Proof.
  induction cs as [|c cs IH]; intros ts w; [done|]. simpl.
  etrans; [apply (pool_lift ts (TCall <$> cs) _ _ (thread_computes c w))|]. simpl.
  rewrite !(cons_middle _ ts), !app_assoc. apply IH.
Qed.

Lemma run_calls_world cs : ∀ w, (run_calls cs w).2 = foldl (λ w c, (run_call c w).2) w cs.
Proof. induction cs as [|c cs IH]; intros w; simpl; [done|]. by rewrite IH, call_result_world. Qed.

(** C20: the statement-level semantics agrees with the methods.  A thread
    that runs alone from the call of any of the eighteen methods, on any
    world and with any delegate, reaches the end of the method with the
    outcome (value or exception) and in the world of the method, and no
    run of it ends otherwise.  Hence, for any list of calls, the schedule
    in which each call runs to its end before the next begins is an
    interleaving of the pool of these calls: it ends with the outcomes of
    the methods called one after another, in the world the sequential
    machine reaches by these calls. *)
Theorem sequential_is_interleaving cs w :
  (∀ c x, rtc tstep (TCall c, w) x → nf tstep x → x = finish (call_result c w)) ∧
  rtc pool_step (TCall <$> cs, w) (TDone <$> (run_calls cs w).1, (run_calls cs w).2) ∧
  finished (TDone <$> (run_calls cs w).1, (run_calls cs w).2) ∧
  (run_calls cs w).2 = foldl (λ w c, (run_call c w).2) w cs.
Proof.
  split_and!.
  - intros c. apply thread_run_unique.
  - apply (run_calls_pool cs []).
  - apply Forall_fmap, Forall_true. intros r. by exists r.
  - apply run_calls_world.
Qed.

End solo.

(** ** Witness *)

Lemma sequential_is_interleaving_witness :
  run_thread 40 (TCall (CUpdateState RXON)) loaded_world
  = finish (call_result (CUpdateState RXON) loaded_world) ∧
  rtc pool_step start_pool
    (TDone <$> (run_calls two_calls loaded_world).1, (run_calls two_calls loaded_world).2).
Proof.
  destruct (sequential_is_interleaving two_calls loaded_world) as (H1 & H2 & _). split.
  - apply H1; [apply run_thread_rtc | by intros [y Hy]].
  - exact H2.
Defined.
