(* ===== verification/Serial.v ===== *)
(** * Serial: the methods behind one lock

    The class has no lock; its callers are to serialize access.  This file
    models that discipline and shows that it is enough: when every call
    takes one lock for its duration, a pool of calls can only do what the
    calls do when they are made one after another in some order.  The
    lock is held by at most one thread, taken with the first statement of
    a call and released with its last.  The complete runs are exactly the
    serial executions, and whenever the lock is free the world is one the
    sequential machine of [Machine] reaches, so that its invariants
    hold there.  With the run lemma of [Trace], register writes are
    then delivered once and in the order in which the calls took the
    lock. *)

From stdpp Require Import relations.
From S2P Require Import Prelude PyBase SwapDefs MoteData Server MoteOps MoteSpec Samples.
From S2P Require Import Machine Trace Threads Interleave Solo.

(** A pool with the thread that holds the lock, if any. *)
Definition Locked (D : Type) : Type := option nat * Pool D.

(** The holder after a statement of thread [i]: the lock is released with
    the last statement of the call. *)
Definition holder_after {D} (i : nat) (p : Pool D) : option nat :=
  match p.1 !! i with
  | Some t => if decide (is_done t) then None else Some i
  | None => None
  end.

(** The schedule [stranded] of [Interleave], and then the receive path to
    its end: under the lock the receive path loses the two turns it asks
    for while the writer holds the lock. *)
Definition stranded_locked : list nat := stranded ++ replicate 8 1%nat.

(** The calls of the threads [js], in this order. *)
Definition calls_in (js : list nat) (cs : list Call) : list Call := omap (λ j, cs !! j) js.

(** The writer and the receive path of [Interleave] on the logging
    delegate, with the lock free. *)
Definition logged_start : Locked (Logged Recorder) :=
  (None, (TCall <$> two_calls, relog [] loaded_world)).

Section serial.
Context `{SwapServer D}.
Implicit Types (w : World D) (t : Thread) (ts : list Thread) (p : Pool D) (x : Locked D).
Implicit Types (c : Call) (cs : list Call) (js : list nat).

(** Thread [i] makes its next statement, if the lock is free or its own. *)
Definition locked_next (i : nat) x : option (Locked D) :=
  if decide (x.1 = None ∨ x.1 = Some i)
  then p' ← pool_next i x.2; Some (holder_after i p', p')
  else None.

Definition locked_step x x' : Prop := ∃ i, locked_next i x = Some x'.

(** A schedule under the lock: a thread that may not move does not. *)
Definition run_locked (sched : list nat) x : Locked D :=
  foldl (λ x i, default x (locked_next i x)) x sched.

(** The call of thread [j], made at once. *)
Definition run_whole (j : nat) p : Pool D :=
  match p.1 !! j with
  | Some (TCall c) => (<[j := TDone (call_result c p.2).1]> p.1, (call_result c p.2).2)
  | _ => p
  end.

(** The calls of the threads [js], one after another in this order. *)
Definition serial js p : Pool D := foldl (λ p j, run_whole j p) p js.

(** What holds at every point of a run under the lock: the calls of some
    threads [js] have been made one after another, and the holder of the
    lock, if any, is on its way through its call from there. *)
Definition serial_inv cs w x : Prop :=
  ∃ js, NoDup js ∧ (∀ j, j ∈ js → j < length cs)%nat ∧
    match x.1 with
    | None => x.2 = serial js (TCall <$> cs, w)
    | Some j =>
        (j ∉ js) ∧
        (∃ c t, cs !! j = Some c ∧ ¬ is_done t ∧
           rtc tstep (TCall c, (serial js (TCall <$> cs, w)).2) (t, x.2.2) ∧
           x.2.1 = <[j := t]> (serial js (TCall <$> cs, w)).1)
    end.

(** ** Steps *)

Lemma pool_next_Some i ts w p' :
  pool_next i (ts, w) = Some p' ↔
  ∃ t t' w', ts !! i = Some t ∧ thread_step t w = Some (t', w') ∧ p' = (<[i := t']> ts, w').
Proof.
  unfold pool_next. simpl. split.
  - destruct (ts !! i) as [t|]; [|done]. simpl.
    destruct (thread_step t w) as [[t' w']|] eqn:E; [|done]. intros [= <-]. by exists t, t', w'.
  - intros (t & t' & w' & -> & E & ->). simpl. by rewrite E.
Qed.

Lemma locked_next_insert h j ts (a b : Thread * World D) :
  h = None ∨ h = Some j → (j < length ts)%nat → tstep a b →
  locked_next j (h, (<[j := a.1]> ts, a.2))
  = Some (if decide (is_done b.1) then None else Some j, (<[j := b.1]> ts, b.2)).
Proof.
  intros Hh Hj Hs. unfold locked_next. rewrite decide_True by done. simpl.
  destruct b as [t' w']. rewrite (proj2 (pool_next_Some j _ _ (<[j := t']> ts, w'))).
  - simpl. unfold holder_after. simpl. by rewrite list_lookup_insert_eq.
  - exists a.1, t', w'. rewrite list_lookup_insert_eq, list_insert_insert_eq by done. done.
Qed.

Lemma run_locked_rtc sched : ∀ x, rtc locked_step x (run_locked sched x).
Proof.
  induction sched as [|i sched IH]; intros x; [done|]. unfold run_locked. simpl.
  destruct (locked_next i x) as [x'|] eqn:E; simpl; [|apply IH].
  eapply rtc_l; [by exists i | apply IH].
Qed.

(** ** Serial executions *)

Lemma serial_snoc js j p : serial (js ++ [j]) p = run_whole j (serial js p).
Proof. unfold serial. by rewrite foldl_app. Qed.

Lemma run_whole_length j p : length (run_whole j p).1 = length p.1.
Proof. unfold run_whole. repeat case_match; simpl; by rewrite ?length_insert. Qed.

Lemma run_whole_lookup_ne i j p : i ≠ j → (run_whole j p).1 !! i = p.1 !! i.
Proof.
  intros Hij. unfold run_whole. repeat case_match; simpl; try done.
  by rewrite list_lookup_insert_ne.
Qed.

Lemma serial_length js p : length (serial js p).1 = length p.1.
Proof.
  induction js as [|j js IH] using rev_ind; [done|]. by rewrite serial_snoc, run_whole_length.
Qed.

Lemma serial_length_calls cs w js : length (serial js (TCall <$> cs, w)).1 = length cs.
Proof. rewrite serial_length. apply length_fmap. Qed.

(** A thread that is not in the list has not begun. *)
Lemma serial_lookup_notin js i p : i ∉ js → (serial js p).1 !! i = p.1 !! i.
Proof.
  induction js as [|j js IH] using rev_ind; [done|].
  rewrite elem_of_app, list_elem_of_singleton. intros Hi.
  rewrite serial_snoc, run_whole_lookup_ne by tauto. apply IH. tauto.
Qed.

Lemma serial_lookup_call cs w js i :
  i ∉ js → (serial js (TCall <$> cs, w)).1 !! i = TCall <$> cs !! i.
Proof. intros Hi. rewrite serial_lookup_notin by done. simpl. apply list_lookup_fmap. Qed.

(** A thread that is in the list has returned or raised. *)
Lemma serial_lookup_in cs w js i :
  i ∈ js → ∀ t, (serial js (TCall <$> cs, w)).1 !! i = Some t → is_done t.
Proof.
  induction js as [|j js IH] using rev_ind; [by intros ?%elem_of_nil|].
  rewrite serial_snoc. destruct (decide (i = j)) as [->|Hij].
  - intros _ t. unfold run_whole. destruct (decide (j ∈ js)) as [Hj|Hj].
    + destruct (_ !! j) as [t0|] eqn:E0; [|by rewrite E0].
      destruct (IH Hj t0 eq_refl) as [res ->]. rewrite E0. intros [= <-]. by eexists.
    + rewrite serial_lookup_call by done.
      destruct (cs !! j) as [c|] eqn:Hc; simpl.
      * rewrite list_lookup_insert_eq; [intros [= <-]; by eexists|].
        rewrite serial_length_calls. eauto using lookup_lt_Some.
      * by rewrite serial_lookup_call, Hc.
  - rewrite run_whole_lookup_ne, elem_of_app, list_elem_of_singleton by done.
    intros [?|?]; [auto | done].
Qed.

(** Every serial execution is a run of the sequential machine. *)
Lemma serial_reachable js p : reachable p.2 (serial js p).2.
Proof.
  induction js as [|j js IH] using rev_ind; [apply rtc_refl|].
  rewrite serial_snoc. unfold run_whole. repeat case_match; try done. simpl.
  rewrite call_result_world. eapply rtc_r; [exact IH | apply step_call].
Qed.

(** ** The lock makes the calls atomic *)

(** A thread that holds the lock, or takes it, runs to the end of its
    call. *)
Lemma locked_lift j ts (a b : Thread * World D) : (j < length ts)%nat →
  rtc tstep a b → ∀ h, h = None ∨ h = Some j → ¬ is_done a.1 → is_done b.1 →
  rtc locked_step (h, (<[j := a.1]> ts, a.2)) (None, (<[j := b.1]> ts, b.2)).
Proof.
  intros Hj. induction 1 as [a|a a1 b Hs Hr IH]; intros h Hh Ha Hb; [done|].
  eapply rtc_l; [exists j; by apply locked_next_insert|].
  destruct (decide (is_done a1.1)) as [Hd|Hd]; [|apply IH; auto].
  destruct a1 as [t1 w1]. by rewrite <-(rtc_nf _ _ Hr (done_nf t1 w1 Hd)).
Qed.

Lemma run_whole_locked j p : rtc locked_step (None, p) (None, run_whole j p).
Proof.
  unfold run_whole. destruct (p.1 !! j) as [[c| | | | | | | | | | | |]|] eqn:Ej; try done.
  destruct p as [ts w]. simpl in *. rewrite <-(list_insert_id ts j (TCall c)) at 1 by done.
  apply (locked_lift j ts (TCall c, w) (finish (call_result c w)));
    eauto using lookup_lt_Some, thread_computes.
  - by intros [? ?].
  - by eexists.
Qed.

(** The holder of the lock, one statement further. *)
Lemma serial_inv_advance cs w js j c t' w' :
  NoDup js → (∀ i, i ∈ js → i < length cs)%nat → j ∉ js → cs !! j = Some c →
  rtc tstep (TCall c, (serial js (TCall <$> cs, w)).2) (t', w') →
  serial_inv cs w (if decide (is_done t') then None else Some j,
                   (<[j := t']> (serial js (TCall <$> cs, w)).1, w')).
Proof.
  intros Hnd Hlt Hj Hc Hr. destruct (decide (is_done t')) as [Hd|Hd].
  - exists (js ++ [j]). split_and!.
    + apply NoDup_app. split_and!; [done | | apply NoDup_singleton].
      by intros i ? ->%list_elem_of_singleton.
    + intros i [?| ->%list_elem_of_singleton]%elem_of_app; eauto using lookup_lt_Some.
    + simpl. rewrite serial_snoc. unfold run_whole.
      rewrite serial_lookup_call, Hc by done. simpl.
      pose proof (thread_run_unique c _ _ Hr (done_nf t' w' Hd)) as Hu.
      unfold finish in Hu. by simplify_eq.
  - exists js. split_and!; [done..|]. simpl. eauto 8.
Qed.

Lemma locked_step_serial_inv cs w x x' :
  locked_step x x' → serial_inv cs w x → serial_inv cs w x'.
Proof.
  destruct x as [h [ts w1]]. intros [i Hi] (js & Hnd & Hlt & Hx). unfold locked_next in Hi.
  case_decide as Hh; [|done]. simpl in *.
  destruct (pool_next i (ts, w1)) as [p'|] eqn:Ep; [|done]. simpl in Hi. simplify_eq.
  apply pool_next_Some in Ep as (t & t' & w' & Ht & Es & ->).
  unfold holder_after. simpl.
  rewrite list_lookup_insert_eq by eauto using lookup_lt_Some.
  destruct h as [j|].
  - destruct Hh as [|[= ->]]; [done|]. destruct Hx as (Hj & c & t0 & Hc & _ & Hr & ->).
    assert (i < length cs)%nat by eauto using lookup_lt_Some.
    rewrite list_lookup_insert_eq in Ht by (by rewrite serial_length_calls).
    simplify_eq. rewrite list_insert_insert_eq.
    apply (serial_inv_advance cs w js i c); [done..|]. by eapply rtc_r.
  - assert (ts = (serial js (TCall <$> cs, w)).1 ∧ w1 = (serial js (TCall <$> cs, w)).2)
      as [-> ->] by (by rewrite <-Hx).
    destruct (decide (i ∈ js)) as [Hin|Hin].
    + apply (serial_lookup_in cs w js i Hin) in Ht as [res ->]. done.
    + rewrite serial_lookup_call in Ht by done.
      destruct (cs !! i) as [c|] eqn:Hc; simplify_eq/=.
      apply (serial_inv_advance cs w js i c); [done..|]. by apply rtc_once.
Qed.

Lemma locked_steps_serial_inv cs w x :
  rtc locked_step (None, (TCall <$> cs, w)) x → serial_inv cs w x.
Proof.
  revert x. apply (rtc_ind_r (R:=locked_step) (serial_inv cs w)).
  - exists []. split_and!; [constructor | by intros j ?%elem_of_nil | done].
  - intros y z _ Hs IH. by eapply locked_step_serial_inv.
Qed.

(** When every call has returned, every call has been made. *)
Lemma serial_finished cs w js :
  NoDup js → (∀ j, j ∈ js → j < length cs)%nat → finished (serial js (TCall <$> cs, w)) →
  js ≡ₚ seq 0 (length cs).
Proof.
  intros Hnd Hlt Hf. apply NoDup_Permutation; [done | apply NoDup_seq|].
  intros i. rewrite elem_of_seq. split; [intros ?%Hlt; lia|]. intros [_ Hi].
  destruct (decide (i ∈ js)) as [|Hin]; [done|].
  destruct (lookup_lt_is_Some_2 cs i Hi) as [c Hc].
  eapply Forall_lookup_1 in Hf as [res Hres];
    [|by rewrite serial_lookup_call, Hc]. done.
Qed.

Lemma locked_finished cs w x :
  rtc locked_step (None, (TCall <$> cs, w)) x → finished x.2 →
  ∃ js, NoDup js ∧ js ≡ₚ seq 0 (length cs) ∧ x = (None, serial js (TCall <$> cs, w)).
Proof.
  destruct x as [h p]. intros (js & Hnd & Hlt & Hx)%locked_steps_serial_inv Hf.
  destruct h as [j|]; simpl in *.
  - destruct Hx as (_ & c & t & Hc & Ht & _ & Hp). destruct Ht.
    eapply (Forall_lookup_1 _ _ j) in Hf; [done|]. rewrite Hp.
    apply list_lookup_insert_eq. rewrite serial_length_calls.
    eauto using lookup_lt_Some.
  - subst p. exists js. eauto using serial_finished.
Qed.

(** The world of a serial execution is that of the sequential machine
    after the calls in this order. *)
Lemma serial_world cs w js :
  NoDup js →
  (serial js (TCall <$> cs, w)).2 = foldl (λ w c, (run_call c w).2) w (calls_in js cs).
Proof.
  induction js as [|j js IH] using rev_ind; [done|].
  intros (Hnd & Hj & _)%NoDup_app. unfold calls_in. rewrite serial_snoc, omap_app, foldl_app.
  unfold run_whole. rewrite serial_lookup_call by (intros ?; eapply Hj; [done|left]).
  simpl. destruct (cs !! j) as [c|]; simpl; [|by apply IH].
  by rewrite call_result_world, IH.
Qed.

Lemma calls_in_perm cs js : js ≡ₚ seq 0 (length cs) → calls_in js cs ≡ₚ cs.
Proof.
  unfold calls_in. intros ->. pose proof (omap_lookup_seq [] cs) as E. simpl in E.
  by rewrite E.
Qed.

(** C16: one lock around the calls makes them atomic.  When every call
    takes the lock with its first statement and releases it with its
    last, then for any calls on any world and with any delegate: the
    calls made one after another, in any order, are a run under the
    lock; every run under the lock in which all calls have returned ends
    with the lock free, and with the outcomes and in the world of the
    calls made one after another in some order, every call once; and
    whenever the lock is free the world is one that the sequential
    machine reaches, so that what holds of every reachable world holds
    there. *)
Theorem locked_is_serial cs w :
  (∀ js, rtc locked_step (None, (TCall <$> cs, w)) (None, serial js (TCall <$> cs, w))) ∧
  (∀ x, rtc locked_step (None, (TCall <$> cs, w)) x → finished x.2 →
     ∃ js, js ≡ₚ seq 0 (length cs) ∧ x = (None, serial js (TCall <$> cs, w))) ∧
  (∀ x, rtc locked_step (None, (TCall <$> cs, w)) x → x.1 = None → reachable w x.2.2).
Proof.
  split_and!.
  - induction js as [|j js IH] using rev_ind; [done|].
    rewrite serial_snoc. etrans; [exact IH | apply run_whole_locked].
  - intros x Hx Hf. destruct (locked_finished cs w x Hx Hf) as (js & _ & ? & ?); eauto.
  - intros [h p] (js & _ & _ & Hx)%locked_steps_serial_inv Hh. simpl in *. subst h.
    rewrite Hx. apply (serial_reachable js (TCall <$> cs, w)).
Qed.

End serial.

(** ** Delivery under the lock *)

Section serial_order.
Context `{SwapServer D} `{!ServerSends D} `{!ServerFramed D}.

(** C39: with the lock, register writes are delivered once and in the
    order in which the calls took the lock.  Under a delegate that
    transmits reliably and never writes to the mote, from a mote whose
    queue is empty unless the device powers down and empty when it is
    recorded awake: when calls of the saving methods, reports of state
    and methods that write no register run together, each under the
    lock, and all have returned, then the register writes handed to the
    delegate followed by those still queued are those handed over and
    queued before, followed by the writes the calls asked for, each once,
    in one order of the calls. *)
Theorem locked_in_order cs (w : World (Logged D)) x :
  forallb queue_client cs = true →
  queue_needs_pwrdown (mote w) → awake_means_flushed (mote w) →
  rtc locked_step (None, (TCall <$> cs, w)) x → finished x.2 →
  ∃ cs', cs' ≡ₚ cs ∧
    commands (log (srv x.2.2)) ++ queued_commands (mote x.2.2)
    = commands (log (srv w)) ++ queued_commands (mote w) ++ flat_map requested cs'.
Proof.
  intros Hcs Hq Ha Hx Hf. destruct (locked_finished cs w x Hx Hf) as (js & Hnd & Hjs & ->).
  pose proof (calls_in_perm cs js Hjs) as Hp. exists (calls_in js cs). split; [done|].
  simpl. rewrite serial_world by done. apply client_run_delivers; [|done..].
  apply forallb_forall. intros c Hc%list_elem_of_In. rewrite Hp in Hc.
  apply list_elem_of_In in Hc. by apply (proj1 (forallb_forall _ _) Hcs).
Qed.

End serial_order.

(** ** Witnesses *)

Lemma locked_is_serial_witness :
  rtc locked_step (None, start_pool) (None, serial [1; 0]%nat start_pool) ∧
  (∃ js, js ≡ₚ [0; 1]%nat ∧
     run_locked stranded_locked (None, start_pool) = (None, serial js start_pool)) ∧
  reachable loaded_world (run_locked [0; 1; 1; 0]%nat (None, start_pool)).2.2.
Proof.
  destruct (locked_is_serial two_calls loaded_world) as (H1 & H2 & H3). split_and!.
  - apply (H1 [1; 0]%nat).
  - apply (H2 (run_locked stranded_locked (None, start_pool))); [apply run_locked_rtc|].
    vm_compute. repeat econstructor.
  - apply (H3 (run_locked [0; 1; 1; 0]%nat (None, start_pool)));
      [apply run_locked_rtc | by vm_compute].
Defined.

Lemma locked_in_order_witness :
  ∃ cs', cs' ≡ₚ two_calls ∧
    commands (log (srv (run_locked stranded_locked logged_start).2.2))
      ++ queued_commands (mote (run_locked stranded_locked logged_start).2.2)
    = sample_queue ++ flat_map requested cs'.
Proof.
  apply (locked_in_order two_calls (relog [] loaded_world)
           (run_locked stranded_locked logged_start)); [done.. | apply run_locked_rtc |].
  vm_compute. repeat econstructor.
Defined.
