(* ===== verification/Races.v ===== *)
(** * Races: what the interleavings cost

    The schedules of [Interleave] on the sample motes, run to their end.
    They show what the theorems of [Interleave] and [Conserve] leave
    open: a command may stay queued on a mote recorded awake, a new
    command may overtake the queued ones, the two packets of
    [cmdRegister] may disagree on the address, and of two flushes at once
    one may raise [IndexError].  The last examples are
    the sequential schedule of [Solo] and a schedule under the lock of
    [Serial], where none of this happens. *)

From S2P Require Import Prelude PyBase SwapDefs MoteData Server MoteOps MoteSpec Samples.
From S2P Require Import Machine Trace Threads Interleave Conserve Solo Serial.

Local Open Scope Z_scope.

(** Two reports of a receiving state, handled by two threads, on the mote
    that sleeps with three commands queued. *)
Definition two_reports : Pool Recorder :=
  ([TCall (CUpdateState RXON); TCall (CUpdateState SYNC)], loaded_world).

(** Both threads read the length of the queue, then the first flushes. *)
Definition double_flush : list nat := ([0; 0; 1; 1] ++ replicate 12 0 ++ [1])%nat.

(** The writer appends after the receive path has read the length of the
    queue: both calls return, the mote is recorded awake, and the new
    command stays in the queue until the next report: a mote recorded
    awake with a queue that is not empty. *)
Example stranded_command :
  let p := run_schedule stranded start_pool in
  p.1 = [TDone (Return RNone); TDone (Return RNone)] ∧
  state (mote p.2) = RXON ∧ queued_commands (mote p.2) = [writer_cmd] ∧
  rec_wire (srv p.2) = command_packet sample_mote <$> sample_queue.
Proof. by vm_compute. Qed.

(** The writer tests the state after the report is recorded: its command
    goes out before the three commands queued earlier. *)
Example overtaking_command :
  let p := run_schedule overtaking start_pool in
  p.1 = [TDone (Return (RBool true)); TDone (Return RNone)] ∧
  rec_wire (srv p.2) = command_packet sample_mote <$> writer_cmd :: sample_queue ∧
  queued_commands (mote p.2) = [].
Proof. by vm_compute. Qed.

(** [cmdRegister] reads the address twice: when the address is changed
    between the two statements, the command goes to the new address and
    the status packet the caller is told to expect names the old one. *)
Example readdressed_command :
  let p := run_schedule readdress readdress_pool in
  p.1 = [TDone (Return (RPacket (SwapStatusPacket 5 ID_NETWORK_ID (SwapValue_new 9 2) false)));
         TDone (Return (RBool true))] ∧
  last (rec_wire (srv p.2))
    = Some (SwapCommandPacket 9 ID_NETWORK_ID (SwapValue_new 9 2) 7 false).
Proof. by vm_compute. Qed.

(** Two flushes at once: both read a length of three, the first empties
    the queue, and the second raises [IndexError] at its first turn.
    Every command is transmitted once. *)
Example double_flush_raises :
  let p := run_schedule double_flush two_reports in
  p.1 = [TDone (Return RNone); TDone (Raise IndexError)] ∧
  state (mote p.2) = SYNC ∧ queued_commands (mote p.2) = [] ∧
  rec_wire (srv p.2) = command_packet sample_mote <$> sample_queue.
Proof. by vm_compute. Qed.

(** In the schedule where the new command overtakes, the writes reach the
    delegate in this order. *)
Example overtaking_log :
  commands (log (srv (run_schedule overtaking logged_pool).2)) = writer_cmd :: sample_queue.
Proof. by vm_compute. Qed.

(** The outcomes and the queue of the two calls made one after another:
    the command is queued and then transmitted with the others. *)
Example two_calls_results :
  (run_calls two_calls loaded_world).1 = [Return RNone; Return RNone] ∧
  queued_commands (mote (run_calls two_calls loaded_world).2) = [] ∧
  length (rec_wire (srv (run_calls two_calls loaded_world).2)) = 4%nat.
Proof. by vm_compute. Qed.

(** The schedule that strands the command, under the lock of [Serial]:
    the receive path waits for the writer, and transmits its command
    after the three queued before it. *)
Example locked_delivers :
  let x := run_locked stranded_locked (None, start_pool) in
  x.1 = None ∧ x.2.1 = [TDone (Return RNone); TDone (Return RNone)] ∧
  state (mote x.2.2) = RXON ∧ queued_commands (mote x.2.2) = [] ∧
  rec_wire (srv x.2.2) = command_packet sample_mote <$> sample_queue ++ [writer_cmd].
Proof. by vm_compute. Qed.
